(** * Agent controller: a shallow embedding of [src/api/agent_controller.py]

    The controller is a set of FastAPI handlers over a Redis key space
    and a Redis pub/sub channel, plus a process-local registry of
    WebSocket connections.  Handlers are embedded as functions in a
    state-and-exception monad over an explicit [world]; JSON values are
    an inductive type with Python's dictionary semantics on objects. *)

From Stdlib Require Import ZArith String Ascii List Bool Lia.
From Stdlib Require Import Floats.SpecFloat.
From stdpp Require Import base option list strings pretty gmap fin_maps.

Import ListNotations.
Set Warnings "-register-all".
Local Open Scope string_scope.
Local Open Scope Z_scope.

(* ===================================================================== *)
(** ** JSON values as Python sees them after [json.loads] *)
(* ===================================================================== *)

(** [json.loads] yields [None], [bool], [int], [float], [str], [list]
    and [dict] with string keys.  A [dict] keeps insertion order, hence
    an association list. *)
Inductive json : Type :=
| JNull
| JBool (b : bool)
| JInt (n : Z)
| JFloat (x : spec_float)
| JStr (s : string)
| JArr (xs : list json)
| JObj (kvs : list (string * json)).

Abbreviation dict := (list (string * json)).

(** [d.get(k)] / [d[k]] / [k in d] on a dictionary. *)
Fixpoint dict_get (k : string) (d : dict) : option json :=
  match d with
  | [] => None
  | (k', v) :: d' => if String.eqb k k' then Some v else dict_get k d'
  end.

Definition dict_has (k : string) (d : dict) : bool :=
  match dict_get k d with Some _ => true | None => false end.

(** [d[k] = v]: an existing key keeps its position, a new key is
    appended. *)
Fixpoint dict_set (k : string) (v : json) (d : dict) : dict :=
  match d with
  | [] => [(k, v)]
  | (k', v') :: d' =>
      if String.eqb k k' then (k', v) :: d' else (k', v') :: dict_set k v d'
  end.

(** [d.update(u)]. *)
Definition dict_update (d u : dict) : dict :=
  fold_left (fun acc kv => dict_set (fst kv) (snd kv) acc) u d.

(** Python truth value of a decoded JSON value. *)
Definition truthy (v : json) : bool :=
  match v with
  | JNull => false
  | JBool b => b
  | JInt n => negb (n =? 0)
  | JFloat (S754_zero _) => false
  | JFloat _ => true
  | JStr s => negb (String.eqb s "")
  | JArr [] => false
  | JArr _ => true
  | JObj [] => false
  | JObj _ => true
  end.

(** [v == s] for a string literal [s]. *)
Definition eq_str (v : json) (s : string) : bool :=
  match v with JStr s' => String.eqb s' s | _ => false end.

(* ===================================================================== *)
(** ** [deep_update] (nested in [inject_config]) *)
(* ===================================================================== *)

(** <<
    def deep_update(d, u):
        for k, v in u.items():
            if isinstance(v, dict) and k in d and isinstance(d[k], dict):
                deep_update(d[k], v)
            else:
                d[k] = v
    >>
    The recursion descends into the patch, so it is structural on the
    patch seen as a JSON value; the loop over its items is the inner
    [fix].  The in-place mutation of [d[k]] is the replacement of the
    binding of [k] at its position. *)
Fixpoint deep_update_val (u : json) (d : dict) {struct u} : dict :=
  match u with
  | JObj items =>
      (fix loop (items : dict) (d : dict) {struct items} : dict :=
         match items with
         | [] => d
         | (k, v) :: rest =>
             loop rest
               match v, dict_get k d with
               | JObj _, Some (JObj dk) => dict_set k (JObj (deep_update_val v dk)) d
               | _, _ => dict_set k v d
               end
         end) items d
  | _ => d
  end.

Definition deep_update (d u : dict) : dict := deep_update_val (JObj u) d.

(** One iteration of the loop body of [deep_update]. *)
Definition deep_update_step (d : dict) (k : string) (v : json) : dict :=
  match v, dict_get k d with
  | JObj vk, Some (JObj dk) => dict_set k (JObj (deep_update dk vk)) d
  | _, _ => dict_set k v d
  end.

(** What the loop body leaves under the key it visits. *)
Definition merged_value (v : json) (old : option json) : json :=
  match v, old with
  | JObj vk, Some (JObj dk) => JObj (deep_update dk vk)
  | _, _ => v
  end.

(* ===================================================================== *)
(** ** The runtime the controller is linked against *)
(* ===================================================================== *)

(** Python exceptions the handlers can meet. *)
Inductive exn : Type :=
| HTTPException (status_code : Z) (detail : string)
| JSONDecodeError
| UnicodeDecodeError
| RecursionError
| TypeError
| AttributeError
| KeyError
| ValueError
| ValidationError
| PyJWTError.

(** Hereditarily duplicate-free keys: the values a Python [dict] can
    actually hold, and the ones [json.loads] produces. *)
Fixpoint keys_fresh (k : string) (d : dict) : bool :=
  match d with
  | [] => true
  | (k', _) :: d' => negb (String.eqb k k') && keys_fresh k d'
  end.

Fixpoint wf_json (v : json) : bool :=
  match v with
  | JArr xs => forallb wf_json xs
  | JObj kvs =>
      (fix wf_items (kvs : dict) : bool :=
         match kvs with
         | [] => true
         | (k, x) :: rest => keys_fresh k rest && wf_json x && wf_items rest
         end) kvs
  | _ => true
  end.

Definition wf_dict (d : dict) : bool := wf_json (JObj d).

(** Library functions the source calls and does not define: the byte
    strings exchanged with Redis, [json], [str()], [int()], PyJWT,
    pydantic's field validation and the wall clock.  [None] stands for
    the exception the library raises. *)
Class Runtime := {
  bytes : Type;
  (** [s.encode()], done by the Redis client on [set] and [publish] *)
  encode : string -> bytes;
  (** [b.decode("utf-8")] *)
  decode : bytes -> option string;
  (** [not b] *)
  is_empty : bytes -> bool;
  (** [json.dumps(v)] as sent to Redis, and [json.loads(b)] *)
  dumps : json -> bytes;
  loads : bytes -> option json;
  (** what [json.loads(b)] raises when it returns nothing:
      [JSONDecodeError] on a text that is not JSON, [UnicodeDecodeError]
      on bytes that are not UTF-8, [RecursionError] on nesting deeper
      than the interpreter allows, [ValueError] on an integer literal
      longer than it converts *)
  loads_error : bytes -> exn;
  (** [int(b)] *)
  py_int : bytes -> option Z;
  (** [str(v)], as used by an f-string *)
  py_str : json -> string;
  (** [jwt.decode(token, JWT_SECRET, algorithms=[JWT_ALGORITHM])] *)
  jwt_decode : string -> option json;
  (** what it raises when it returns nothing: a [PyJWTError] on a token
      it rejects, or what escaped it (a [RecursionError] from the
      header of a token nested too deep) *)
  jwt_error : string -> exn;
  (** pydantic validation of a [str] and of a [float] field *)
  validate_str : json -> option string;
  validate_float : json -> option spec_float;
  (** the [n]-th evaluation of [int(datetime.now().timestamp() * 1000)] *)
  now_ms : nat -> Z;

  decode_encode : forall s, decode (encode s) = Some s;
  is_empty_encode : forall s, is_empty (encode s) = String.eqb s "";
  loads_dumps : forall j, wf_json j = true -> loads (dumps j) = Some j;
  loads_wf : forall b j, loads b = Some j -> wf_json j = true;
  (** [json.loads] is the standard library's: it raises no
      [HTTPException] *)
  loads_error_builtin : forall b status_code detail,
    loads_error b <> HTTPException status_code detail;
  is_empty_dumps : forall j, is_empty (dumps j) = false;
  py_str_str : forall s, py_str (JStr s) = s;
  validate_str_str : forall s, validate_str (JStr s) = Some s;
  validate_float_float : forall x, validate_float (JFloat x) = Some x
}.

(** A WebSocket held in [active_connections]; [send_json] raises on a
    socket that is no longer open. *)
Record WebSocket := { ws_open : bool }.

Section Coroutine.
Context `{RT : Runtime}.

(** Everything a handler can read or change. *)
Record world := {
  (** the Redis key space *)
  store : gmap string bytes;
  (** keys passed to [GET], oldest first *)
  gets : list string;
  (** [(channel, payload)] of every [PUBLISH], oldest first *)
  published : list (string * bytes);
  (** the module-level [active_connections] dictionary *)
  active_connections : list (string * WebSocket);
  (** [(client_id, frame)] of every [send_json] that went out *)
  delivered : list (string * json);
  (** how often the wall clock has been read *)
  ticks : nat
}.

(** A coroutine: runs to a value or to a raised exception, keeping the
    effects it had until then. *)
Definition M (A : Type) : Type := world -> (A + exn) * world.

Definition ret {A} (a : A) : M A := fun w => (inl a, w).
Definition raise {A} (e : exn) : M A := fun w => (inr e, w).
Definition bind {A B} (m : M A) (k : A -> M B) : M B :=
  fun w => match m w with
           | (inl a, w') => k a w'
           | (inr e, w') => (inr e, w')
           end.
(** [try: m except Exception as e: h(e)] *)
Definition try_except {A} (m : M A) (h : exn -> M A) : M A :=
  fun w => match m w with
           | (inl a, w') => (inl a, w')
           | (inr e, w') => h e w'
           end.
(** A library call that may raise. *)
Definition lift {A} (o : option A) (e : exn) : M A :=
  match o with Some a => ret a | None => raise e end.

End Coroutine.

Declare Scope coro_scope.
Delimit Scope coro_scope with coro.
Notation "x <- m ;; k" := (bind m (fun x => k))
  (at level 100, m at next level, right associativity) : coro_scope.
Notation "m ;;; k" := (bind m (fun _ => k))
  (at level 100, right associativity) : coro_scope.
Local Open Scope coro_scope.

(* ===================================================================== *)
(** ** Python operators on decoded JSON *)
(* ===================================================================== *)

(** [p in s] on two strings. *)
Fixpoint is_substring (p s : string) : bool :=
  String.prefix p s ||
  match s with
  | EmptyString => false
  | String _ s' => is_substring p s'
  end.

(** The elements of [v[:2]] when iterated. *)
Definition str_chars2 (s : string) : list json :=
  match s with
  | EmptyString => []
  | String a EmptyString => [JStr (String a "")]
  | String a (String b _) => [JStr (String a ""); JStr (String b "")]
  end.

(** A header value reaches a handler decoded as latin-1, so its
    characters are the code points 0 to 255, one [ascii] each.  Of
    these, [str.split()] and [str.isspace()] take for white space the
    ASCII ones (9 to 13, 28 to 32), NEL (133) and the no-break space
    (160). *)
Definition is_space (c : ascii) : bool :=
  let n := nat_of_ascii c in
  ((Nat.leb 9 n && Nat.leb n 13) || (Nat.leb 28 n && Nat.leb n 32)
   || Nat.eqb n 133 || Nat.eqb n 160)%bool.

(** [s.split()]: maximal runs of non-whitespace characters. *)

(** [cur] is the run being read, reversed. *)
Fixpoint split_ws_from (cur : list ascii) (s : string) : list string :=
  let flush := match cur with
               | [] => []
               | _ => [string_of_list_ascii (rev cur)]
               end in
  match s with
  | EmptyString => flush
  | String c s' =>
      if is_space c then (flush ++ split_ws_from [] s')%list
      else split_ws_from (c :: cur) s'
  end.

Definition split_ws (s : string) : list string := split_ws_from [] s.

(** [s.lower()] on the code points 0 to 255: the capital letters are
    A to Z (65 to 90) and the accented ones from 192 to 222, the
    multiplication sign (215) apart; each has its small letter 32
    places further. *)
Definition lower_char (c : ascii) : ascii :=
  let n := nat_of_ascii c in
  if ((Nat.leb 65 n && Nat.leb n 90)
      || (Nat.leb 192 n && Nat.leb n 222 && negb (Nat.eqb n 215)))%bool
  then ascii_of_nat (n + 32) else c.

Fixpoint lower (s : string) : string :=
  match s with
  | EmptyString => EmptyString
  | String c s' => String (lower_char c) (lower s')
  end.

(** Redis glob matching, for patterns made of literals and [*]. *)
Fixpoint glob (p s : string) : bool :=
  match p with
  | EmptyString => match s with EmptyString => true | _ => false end
  | String c p' =>
      if Ascii.eqb c "*"%char then
        (fix star (s : string) : bool :=
           glob p' s || match s with
                        | EmptyString => false
                        | String _ s' => star s'
                        end) s
      else
        match s with
        | EmptyString => false
        | String c' s' => Ascii.eqb c c' && glob p' s'
        end
  end.

(** The last character of a key; it tells the four kinds of document
    of an agent apart. *)
Fixpoint last_char (s : string) : option ascii :=
  match s with
  | EmptyString => None
  | String c EmptyString => Some c
  | String _ s' => last_char s'
  end.

Section Controller.
Context `{RT : Runtime}.

Definition with_store (f : gmap string bytes -> gmap string bytes) (w : world) : world :=
  {| store := f (store w); gets := gets w; published := published w;
     active_connections := active_connections w; delivered := delivered w;
     ticks := ticks w |}.

(** [k in v] *)
Definition py_in (k : string) (v : json) : M bool :=
  match v with
  | JObj d => ret (dict_has k d)
  | JArr xs => ret (existsb (fun x => eq_str x k) xs)
  | JStr s => ret (is_substring k s)
  | _ => raise TypeError
  end.

(** [v[k]] for a string [k] *)
Definition py_getitem (v : json) (k : string) : M json :=
  match v with
  | JObj d => lift (dict_get k d) KeyError
  | _ => raise TypeError
  end.

(** [v[k] = x] for a string [k] *)
Definition py_setitem (v : json) (k : string) (x : json) : M json :=
  match v with
  | JObj d => ret (JObj (dict_set k x d))
  | _ => raise TypeError
  end.

(** [v.get(k, default)] *)
Definition py_get (v : json) (k : string) (default : json) : M json :=
  match v with
  | JObj d => ret (match dict_get k d with Some x => x | None => default end)
  | _ => raise AttributeError
  end.

(** [for x in v[:2]] *)
Definition py_slice2 (v : json) : M (list json) :=
  match v with
  | JArr xs => ret (firstn 2 xs)
  | JStr s => ret (str_chars2 s)
  | _ => raise TypeError
  end.

(** [if b:] on the result of [r.get]: [None] and [b""] are false. *)
Definition present (o : option bytes) : option bytes :=
  match o with
  | Some b => if is_empty b then None else Some b
  | None => None
  end.

(* ===================================================================== *)
(** ** Redis client and clock *)
(* ===================================================================== *)

Definition r_get (k : string) : M (option bytes) :=
  fun w => (inl (store w !! k),
            {| store := store w; gets := (gets w ++ [k])%list; published := published w;
               active_connections := active_connections w;
               delivered := delivered w; ticks := ticks w |}).

Definition r_exists (k : string) : M bool :=
  fun w => (inl (bool_decide (is_Some (store w !! k))), w).

Definition r_set (k : string) (v : bytes) : M unit :=
  fun w => (inl tt, with_store (insert k v) w).

Definition r_publish (channel : string) (payload : bytes) : M unit :=
  fun w => (inl tt,
            {| store := store w; gets := gets w;
               published := (published w ++ [(channel, payload)])%list;
               active_connections := active_connections w;
               delivered := delivered w; ticks := ticks w |}).

(** [r.keys(pattern)]; Redis promises no order, the map's is taken. *)
Definition r_keys (pattern : string) : M (list string) :=
  fun w => (inl (List.filter (glob pattern) (map fst (map_to_list (store w)))), w).

(** [int(datetime.now().timestamp() * 1000)] *)
Definition now : M Z :=
  fun w => (inl (now_ms (ticks w)),
            {| store := store w; gets := gets w; published := published w;
               active_connections := active_connections w;
               delivered := delivered w; ticks := S (ticks w) |}).

(* ===================================================================== *)
(** ** Helper functions of the module *)
(* ===================================================================== *)

(** <<
    message = {"type": event_type, "agentId": agent_id, "timestamp": ...}
    if data: message.update(data)
    await redis_client.publish("agent_events", json.dumps(message))
    >> *)
Definition publish_agent_event (event_type agent_id : string) (data : option dict) : M unit :=
  ts <- now ;;
  let message := [("type", JStr event_type); ("agentId", JStr agent_id);
                  ("timestamp", JInt ts)] in
  let message :=
    match data with
    | Some (kv :: u) => dict_update message (kv :: u)
    | _ => message
    end in
  r_publish "agent_events" (dumps (JObj message)).

(** One pass over [active_connections]: frames that went out, and the
    clients whose [send_json] raised. *)
Fixpoint send_all (message : json) (conns : list (string * WebSocket))
  : list (string * json) * list string :=
  match conns with
  | [] => ([], [])
  | (client_id, websocket) :: rest =>
      let '(sent, disconnected) := send_all message rest in
      if ws_open websocket then ((client_id, message) :: sent, disconnected)
      else (sent, client_id :: disconnected)
  end.

(** [active_connections.pop(client_id, None)] *)
Definition pop_connection (client_id : string) (conns : list (string * WebSocket))
  : list (string * WebSocket) :=
  List.filter (fun c => negb (String.eqb (fst c) client_id)) conns.

Definition broadcast_websocket_message (message : json) : M unit :=
  fun w =>
    let '(sent, disconnected) := send_all message (active_connections w) in
    (inl tt,
     {| store := store w; gets := gets w; published := published w;
        active_connections := fold_left (fun cs c => pop_connection c cs) disconnected
                                        (active_connections w);
        delivered := (delivered w ++ sent)%list; ticks := ticks w |}).

(** The frame built inline by the lifecycle handlers. *)
Definition status_changed (agentId status : string) (ts : Z) : json :=
  JObj [("type", JStr "agent_status_changed"); ("agentId", JStr agentId);
        ("status", JStr status); ("timestamp", JInt ts)].

(* ===================================================================== *)
(** ** Agent API routes *)
(* ===================================================================== *)

(** Response model [AgentStatus]. *)
Record AgentStatus := { success : bool; message : string }.

Definition reg_key_of (agentId : string) : string := "agent:" ++ agentId ++ ":registration".
Definition state_key_of (agentId : string) : string := "agent:" ++ agentId ++ ":state".
Definition metrics_key_of (agentId : string) : string := "agent:" ++ agentId ++ ":metrics".
Definition last_signal_key_of (agentId : string) : string := "agent:" ++ agentId ++ ":last_signal".

Definition not_found {A} : M A := raise (HTTPException 404 "Agent not found").

(** [GET /api/agent/config] *)
Definition get_agent_config (agentId : string) : M json :=
  agent_data <- r_get (reg_key_of agentId) ;;
  match present agent_data with
  | None => not_found
  | Some agent_data =>
      agent_json <- lift (loads agent_data) (loads_error agent_data) ;;
      config <- py_get agent_json "config" (JObj []) ;;
      ret (JObj [("agentId", JStr agentId); ("config", config)])
  end.

(** [POST /api/agent/pause] *)
Definition pause_agent (agentId : string) : M AgentStatus :=
  exists_ <- r_exists (reg_key_of agentId) ;;
  if negb exists_ then not_found
  else
    publish_agent_event "pause_requested" agentId None ;;;
    r_publish ("agent:" ++ agentId ++ ":pause") (encode "") ;;;
    r_set (state_key_of agentId) (encode "paused") ;;;
    ts <- now ;;
    broadcast_websocket_message (status_changed agentId "paused" ts) ;;;
    ret {| success := true; message := "Agent " ++ agentId ++ " paused" |}.

(** [POST /api/agent/resume] *)
Definition resume_agent (agentId : string) : M AgentStatus :=
  exists_ <- r_exists (reg_key_of agentId) ;;
  if negb exists_ then not_found
  else
    publish_agent_event "resume_requested" agentId None ;;;
    r_publish ("agent:" ++ agentId ++ ":resume") (encode "") ;;;
    r_set (state_key_of agentId) (encode "running") ;;;
    ts <- now ;;
    broadcast_websocket_message (status_changed agentId "running" ts) ;;;
    ret {| success := true; message := "Agent " ++ agentId ++ " resumed" |}.

(** [POST /api/agent/restart] *)
Definition restart_agent (agentId : string) : M AgentStatus :=
  exists_ <- r_exists (reg_key_of agentId) ;;
  if negb exists_ then not_found
  else
    publish_agent_event "restart_requested" agentId None ;;;
    r_publish ("agent:" ++ agentId ++ ":restart") (encode "") ;;;
    r_set (state_key_of agentId) (encode "initializing") ;;;
    ts <- now ;;
    broadcast_websocket_message (status_changed agentId "initializing" ts) ;;;
    ret {| success := true; message := "Agent " ++ agentId ++ " restarting" |}.

(** The three handlers above are one text with four literals changed:
    the event type, the command topic suffix, the state written and the
    word in the reply. *)
Definition lifecycle (requested command state done agentId : string) : M AgentStatus :=
  exists_ <- r_exists (reg_key_of agentId) ;;
  if negb exists_ then not_found
  else
    publish_agent_event requested agentId None ;;;
    r_publish ("agent:" ++ agentId ++ ":" ++ command) (encode "") ;;;
    r_set (state_key_of agentId) (encode state) ;;;
    ts <- now ;;
    broadcast_websocket_message (status_changed agentId state ts) ;;;
    ret {| success := true; message := "Agent " ++ agentId ++ " " ++ done |}.

(** [deep_update(agent_json["config"], update.config)] where the stored
    value need not be a dictionary: the loop body then raises on the
    first item ([k in d] or [d[k] = v] on a non-dictionary, or [d[k]]
    with a string index), and an empty patch never enters the loop. *)
Definition deep_update_any (d : json) (u : dict) : M json :=
  match d, u with
  | JObj d, _ => ret (JObj (deep_update d u))
  | _, [] => ret d
  | _, _ => raise TypeError
  end.

(** [POST /api/agent/inject-config] *)
Definition inject_config (agentId : string) (config : dict) : M AgentStatus :=
  let reg_key := reg_key_of agentId in
  agent_data <- r_get reg_key ;;
  match present agent_data with
  | None => not_found
  | Some agent_data =>
      publish_agent_event "config_update_requested" agentId
                          (Some [("config", JObj config)]) ;;;
      r_publish ("agent:" ++ agentId ++ ":inject_config") (dumps (JObj config)) ;;;
      agent_json <- lift (loads agent_data) (loads_error agent_data) ;;
      has_config <- py_in "config" agent_json ;;
      agent_json <- (if has_config then ret agent_json
                     else py_setitem agent_json "config" (JObj [])) ;;
      stored <- py_getitem agent_json "config" ;;
      merged <- deep_update_any stored config ;;
      (* the merge happened inside [agent_json]: same object *)
      agent_json <- py_setitem agent_json "config" merged ;;
      r_set reg_key (dumps agent_json) ;;;
      ts <- now ;;
      broadcast_websocket_message
        (JObj [("type", JStr "agent_config_updated"); ("agentId", JStr agentId);
               ("timestamp", JInt ts)]) ;;;
      ret {| success := true;
             message := "Configuration injected into agent " ++ agentId |}
  end.

(** [exec_config.get("mode") == "canary" or exec_config.get("canaryMode", False)] *)
Definition in_canary (exec_config : json) : M bool :=
  mode <- py_get exec_config "mode" JNull ;;
  if eq_str mode "canary" then ret true
  else canaryMode <- py_get exec_config "canaryMode" (JBool false) ;;
       ret (truthy canaryMode).

(** [k1 in v and k2 in v[k1]] *)
Definition has_path (v : json) (k1 k2 : string) : M bool :=
  c <- py_in k1 v ;;
  if c then (sub <- py_getitem v k1 ;; py_in k2 sub) else ret false.

(** [POST /api/agent/promote-canary] *)
Definition promote_canary (agentId : string) : M AgentStatus :=
  let reg_key := reg_key_of agentId in
  agent_data <- r_get reg_key ;;
  match present agent_data with
  | None => not_found
  | Some agent_data =>
      agent_json <- lift (loads agent_data) (loads_error agent_data) ;;
      has_exec <- has_path agent_json "config" "executionConfig" ;;
      if negb has_exec then
        raise (HTTPException 400 "Agent does not have execution configuration")
      else
        config <- py_getitem agent_json "config" ;;
        exec_config <- py_getitem config "executionConfig" ;;
        canary <- in_canary exec_config ;;
        if negb canary then raise (HTTPException 400 "Agent is not in canary mode")
        else
          exec_config <- py_setitem exec_config "mode" (JStr "live") ;;
          exec_config <- py_setitem exec_config "canaryMode" (JBool false) ;;
          (* [exec_config] is the object inside [agent_json] *)
          config <- py_setitem config "executionConfig" exec_config ;;
          agent_json <- py_setitem agent_json "config" config ;;
          r_set reg_key (dumps agent_json) ;;;
          publish_agent_event "canary_promoted" agentId (Some [("newMode", JStr "live")]) ;;;
          r_publish ("agent:" ++ agentId ++ ":inject_config")
                    (dumps (JObj [("executionConfig", exec_config)])) ;;;
          ts <- now ;;
          broadcast_websocket_message (status_changed agentId "running" ts) ;;;
          ret {| success := true;
                 message := "Agent " ++ agentId ++ " promoted from canary to live" |}
  end.

(* ===================================================================== *)
(** ** [list_agents] *)
(* ===================================================================== *)

(** Response model [AgentPanelState]. *)
Record AgentPanelState := {
  agentId : string;
  name : option string;
  status : string;
  lastSignal : Z;
  pnl24h : spec_float;
  actions : list string;
  tags : list string;
  lastUpdated : Z
}.

(** pydantic validation of [Optional[str]] and [List[str]]. *)
Definition validate_opt_str (v : json) : option (option string) :=
  match v with
  | JNull => Some None
  | _ => match validate_str v with Some s => Some (Some s) | None => None end
  end.

Fixpoint validate_str_list (vs : list json) : option (list string) :=
  match vs with
  | [] => Some []
  | v :: vs' =>
      match validate_str v, validate_str_list vs' with
      | Some s, Some ss => Some (s :: ss)
      | _, _ => None
      end
  end.

(** "Map state to status". *)
Definition status_of_state (state : string) : string :=
  if String.eqb state "paused" then "paused"
  else if String.eqb state "disabled" then "paused"
  else "running".

(** "Available actions based on status". *)
Definition actions_of_status (status : string) : list string :=
  if String.eqb status "running" then ["pause"; "restart"]
  else if String.eqb status "paused" then ["resume"; "restart"]
  else if String.eqb status "canary" then ["promote"; "pause"; "restart"]
  else [].

(** The body of the [try] for one registration key whose value is
    [agent_data]; returns the panel appended to [agents]. *)
Definition agent_panel (agent_data : bytes) : M AgentPanelState :=
  agent_json <- lift (loads agent_data) (loads_error agent_data) ;;
  agent_id <- py_get agent_json "agentId" (JStr "unknown") ;;
  (* Get agent state *)
  state_data <- r_get ("agent:" ++ py_str agent_id ++ ":state") ;;
  state <- match present state_data with
           | Some b => lift (decode b) UnicodeDecodeError
           | None => ret "unknown"
           end ;;
  (* Map state to status *)
  let status := status_of_state state in
  (* Check if agent is in canary mode *)
  has_exec <- has_path agent_json "config" "executionConfig" ;;
  is_canary <- (if has_exec then
                   config <- py_getitem agent_json "config" ;;
                   exec_config <- py_getitem config "executionConfig" ;;
                   in_canary exec_config
                 else ret false) ;;
  let status := if is_canary then "canary" else status in
  (* Get metrics *)
  metrics_data <- r_get ("agent:" ++ py_str agent_id ++ ":metrics") ;;
  metrics <- match present metrics_data with
             | Some b => lift (loads b) (loads_error b)
             | None => ret (JObj [])
             end ;;
  (* Available actions based on status *)
  let actions := actions_of_status status in
  (* Last signal time *)
  last_signal <- r_get ("agent:" ++ py_str agent_id ++ ":last_signal") ;;
  last_signal_time <- match present last_signal with
                      | Some b => lift (py_int b) ValueError
                      | None => ret 0
                      end ;;
  (* Get 24h PnL *)
  pnl_24h <- py_get metrics "pnl" (JFloat (S754_zero false)) ;;
  has_custom <- has_path metrics "custom" "pnl_24h" ;;
  pnl_24h <- (if has_custom then
                 custom <- py_getitem metrics "custom" ;;
                 py_getitem custom "pnl_24h"
               else ret pnl_24h) ;;
  (* Tags from state and config *)
  let tags := ((if is_canary then [JStr "canary"] else [])
               ++ (if String.eqb status "paused" then [JStr "paused"] else []))%list in
  has_pairs <- py_in "tradingPairs" agent_json ;;
  tags <- (if has_pairs then
              pairs <- py_getitem agent_json "tradingPairs" ;;
              pairs <- py_slice2 pairs ;;
              ret (tags ++ pairs)%list
            else ret tags) ;;
  has_type <- py_in "agentType" agent_json ;;
  tags <- (if has_type then
              agentType <- py_getitem agent_json "agentType" ;;
              ret (tags ++ [agentType])%list
            else ret tags) ;;
  (* Create agent panel state *)
  name <- py_get agent_json "name" JNull ;;
  ts <- now ;;
  match validate_str agent_id, validate_opt_str name,
        validate_float pnl_24h, validate_str_list tags with
  | Some agentId, Some name, Some pnl24h, Some tags =>
      ret {| agentId := agentId; name := name; status := status;
             lastSignal := last_signal_time; pnl24h := pnl24h;
             actions := actions; tags := tags; lastUpdated := ts |}
  | _, _, _, _ => raise ValidationError
  end.

(** One iteration of [for reg_key in registrations]: a falsy value adds
    nothing, and any exception is caught (and printed) and adds
    nothing. *)
Definition list_step (agents : list AgentPanelState) (reg_key : string)
  : M (list AgentPanelState) :=
  try_except
    (agent_data <- r_get reg_key ;;
     match present agent_data with
     | Some agent_data => agent_panel <- agent_panel agent_data ;;
                          ret (agents ++ [agent_panel])%list
     | None => ret agents
     end)
    (fun _ => ret agents).

Fixpoint list_loop (registrations : list string) (agents : list AgentPanelState)
  : M (list AgentPanelState) :=
  match registrations with
  | [] => ret agents
  | reg_key :: rest => agents <- list_step agents reg_key ;; list_loop rest agents
  end.

(** [GET /api/agent/list] *)
Definition list_agents : M (list AgentPanelState) :=
  registrations <- r_keys "agent:*:registration" ;;
  list_loop registrations [].

(* ===================================================================== *)
(** ** Auth: [verify_token], and what a route hands to its handler *)
(* ===================================================================== *)

(** <<
    try:
        scheme, token = authorization.split()
        if scheme.lower() != "bearer":
            raise HTTPException(status_code=401, detail="Invalid authentication scheme")
        payload = jwt.decode(token, JWT_SECRET, algorithms=[JWT_ALGORITHM])
        return payload
    except jwt.PyJWTError:
        raise HTTPException(status_code=401, detail="Invalid token")
    except Exception:
        raise HTTPException(status_code=401, detail="Invalid authorization header")
    >>
    The [HTTPException] raised inside the [try] is itself caught by the
    last clause. *)
Definition verify_token (authorization : string) : M json :=
  try_except
    (match split_ws authorization with
     | [scheme; token] =>
         if negb (String.eqb (lower scheme) "bearer") then
           raise (HTTPException 401 "Invalid authentication scheme")
         else lift (jwt_decode token) (jwt_error token)
     | _ => raise ValueError
     end)
    (fun e => match e with
              | PyJWTError => raise (HTTPException 401 "Invalid token")
              | _ => raise (HTTPException 401 "Invalid authorization header")
              end).

(** The mutating operations of the API, as request bodies. *)
Inductive operation : Type :=
| Pause (agentId : string)
| Resume (agentId : string)
| Restart (agentId : string)
| InjectConfig (agentId : string) (config : dict)
| PromoteCanary (agentId : string).

(** A request is its [Authorization] header, if any, and its body.
    FastAPI passes a handler the parameters its signature declares;
    the five signatures declare the body model and [Depends(get_redis)]
    and nothing else, so the header is not looked at. *)
Definition handle (authorization : option string) (op : operation) : M AgentStatus :=
  match op with
  | Pause agentId => pause_agent agentId
  | Resume agentId => resume_agent agentId
  | Restart agentId => restart_agent agentId
  | InjectConfig agentId config => inject_config agentId config
  | PromoteCanary agentId => promote_canary agentId
  end.

(** A request presents a valid token when it has the header and
    [verify_token] returns on it. *)
Definition presents_valid_token (authorization : option string) (w : world) : bool :=
  match authorization with
  | Some a => match fst (verify_token a w) with inl _ => true | inr _ => false end
  | None => false
  end.

(* ===================================================================== *)
(** ** Vocabulary of the statements below *)
(* ===================================================================== *)

(** No store write, nothing published, no frame sent. *)
Definition quiet (w w' : world) : Prop :=
  store w' = store w /\ published w' = published w /\ delivered w' = delivered w.

(** The raw state [list_agents] reads for an agent: the decoded value
    under its state key, ["unknown"] when there is none, nothing when
    the bytes do not decode. *)
Definition raw_state (w : world) (agentId : string) : option string :=
  match present (store w !! state_key_of agentId) with
  | Some b => decode b
  | None => Some "unknown"
  end.

(** Whether the execution configuration of a registration signals
    canary: [mode == "canary"], or a [canaryMode] that Python takes
    for true. *)
Definition signals_canary (exec_config : dict) : bool :=
  match dict_get "mode" exec_config with
  | Some m => eq_str m "canary"
  | None => false
  end
  || match dict_get "canaryMode" exec_config with
     | Some c => truthy c
     | None => false
     end.

(** [agent_json["config"]["executionConfig"]] of a registration whose
    [config] is a dictionary. *)
Definition exec_config_of (agent_json : dict) : option json :=
  match dict_get "config" agent_json with
  | Some (JObj config) => dict_get "executionConfig" config
  | _ => None
  end.

(** The values on which [k not in v] is true: a dictionary without
    the key, a list without the string, a string without the substring.
    ([in] raises on the other values.) *)
Definition py_not_in (k : string) (v : json) : bool :=
  match v with
  | JObj d => negb (dict_has k d)
  | JArr xs => negb (existsb (fun x => eq_str x k) xs)
  | JStr s => negb (is_substring k s)
  | _ => false
  end.

(** The decoded values on which
    ["config" not in agent_json or "executionConfig" not in agent_json["config"]]
    is true. *)
Definition lacks_exec_config (agent_json : json) : bool :=
  py_not_in "config" agent_json
  || match agent_json with
     | JObj o => match dict_get "config" o with
                 | Some config => py_not_in "executionConfig" config
                 | None => false
                 end
     | _ => false
     end.

Definition canary_flag (agent_json : dict) : bool :=
  match exec_config_of agent_json with
  | Some (JObj exec_config) => signals_canary exec_config
  | _ => false
  end.

(** The world after a lifecycle call on a registered agent. *)
Definition after_lifecycle (requested command state agentId : string) (w : world) : world :=
  let frame := status_changed agentId state (now_ms (S (ticks w))) in
  {| store := <[state_key_of agentId := encode state]> (store w);
     gets := gets w;
     published :=
       (published w ++
        [("agent_events",
          dumps (JObj [("type", JStr requested); ("agentId", JStr agentId);
                       ("timestamp", JInt (now_ms (ticks w)))]));
         (("agent:" ++ agentId ++ ":" ++ command)%string, encode "")])%list;
     active_connections :=
       fold_left (fun cs c => pop_connection c cs)
                 (snd (send_all frame (active_connections w))) (active_connections w);
     delivered := (delivered w ++ fst (send_all frame (active_connections w)))%list;
     ticks := S (S (ticks w)) |}.

(** The frames a broadcast puts on the wire: one per open connection. *)
Definition frames_to_open (frame : json) (conns : list (string * WebSocket))
  : list (string * json) :=
  map (fun c => (fst c, frame)) (List.filter (fun c => ws_open (snd c)) conns).

(** The payloads published on one topic, oldest first. *)
Definition on_topic (topic : string) (l : list (string * bytes)) : list bytes :=
  map snd (List.filter (fun p => String.eqb (fst p) topic) l).

(** The registration [promote_canary] writes back, given the decoded
    registration, its [config] and its [executionConfig]. *)
Definition promoted_exec_config (exec_config : dict) : dict :=
  dict_set "canaryMode" (JBool false) (dict_set "mode" (JStr "live") exec_config).

Definition promoted_registration (agent_json config exec_config : dict) : dict :=
  dict_set "config"
    (JObj (dict_set "executionConfig" (JObj (promoted_exec_config exec_config)) config))
    agent_json.

(** The world after a successful [promote_canary]. *)
Definition after_promote (agentId : string) (agent_json config exec_config : dict)
  (w : world) : world :=
  let frame := status_changed agentId "running" (now_ms (S (ticks w))) in
  {| store := <[reg_key_of agentId :=
                  dumps (JObj (promoted_registration agent_json config exec_config))]>
              (store w);
     gets := (gets w ++ [reg_key_of agentId])%list;
     published :=
       (published w ++
        [("agent_events",
          dumps (JObj [("type", JStr "canary_promoted"); ("agentId", JStr agentId);
                       ("timestamp", JInt (now_ms (ticks w)));
                       ("newMode", JStr "live")]));
         (("agent:" ++ agentId ++ ":inject_config")%string,
          dumps (JObj [("executionConfig", JObj (promoted_exec_config exec_config))]))])%list;
     active_connections :=
       fold_left (fun cs c => pop_connection c cs)
                 (snd (send_all frame (active_connections w))) (active_connections w);
     delivered := (delivered w ++ fst (send_all frame (active_connections w)))%list;
     ticks := S (S (ticks w)) |}.

(** The world after a [GET] of [k] and nothing else. *)
Definition after_get (k : string) (w : world) : world :=
  {| store := store w; gets := (gets w ++ [k])%list; published := published w;
     active_connections := active_connections w; delivered := delivered w;
     ticks := ticks w |}.

(** The shape the data model gives a registration: an object whose
    [config], when present, is an object; whose [executionConfig], when
    present, is an object; whose [canaryMode], when present, is a
    boolean. *)
Definition registration_typed (agent_json : json) : bool :=
  match agent_json with
  | JObj o =>
      match dict_get "config" o with
      | None => true
      | Some (JObj c) =>
          match dict_get "executionConfig" c with
          | None => true
          | Some (JObj e) =>
              match dict_get "canaryMode" e with
              | None | Some (JBool _) => true
              | Some _ => false
              end
          | Some _ => false
          end
      | Some _ => false
      end
  | _ => false
  end.

(** The dictionary [inject_config] merges into: the stored [config],
    or the empty one it first puts there. *)
Definition config_dict (agent_json : dict) : option dict :=
  match dict_get "config" agent_json with
  | None => Some []
  | Some (JObj c) => Some c
  | Some _ => None
  end.

(** The world after a successful [inject_config] that left
    [agent_json] as the registration. *)
Definition after_inject (agentId : string) (config agent_json : dict) (w : world) : world :=
  let frame := JObj [("type", JStr "agent_config_updated"); ("agentId", JStr agentId);
                     ("timestamp", JInt (now_ms (S (ticks w))))] in
  {| store := <[reg_key_of agentId := dumps (JObj agent_json)]> (store w);
     gets := (gets w ++ [reg_key_of agentId])%list;
     published :=
       (published w ++
        [("agent_events",
          dumps (JObj [("type", JStr "config_update_requested");
                       ("agentId", JStr agentId);
                       ("timestamp", JInt (now_ms (ticks w)));
                       ("config", JObj config)]));
         (("agent:" ++ agentId ++ ":inject_config")%string, dumps (JObj config))])%list;
     active_connections :=
       fold_left (fun cs c => pop_connection c cs)
                 (snd (send_all frame (active_connections w))) (active_connections w);
     delivered := (delivered w ++ fst (send_all frame (active_connections w)))%list;
     ticks := S (S (ticks w)) |}.

(** The agent an operation addresses. *)
Definition agent_of (op : operation) : string :=
  match op with
  | Pause a | Resume a | Restart a | InjectConfig a _ | PromoteCanary a => a
  end.

(** A coroutine that leaves store, topics and sockets alone, whatever
    its outcome. *)
Definition readonly {A} (m : M A) : Prop := forall w, quiet w (snd (m w)).

(** The registration's [agentId], or the default. *)
Definition registered_id (agent_json : dict) : json :=
  match dict_get "agentId" agent_json with
  | Some v => v
  | None => JStr "unknown"
  end.

(** What the rest of a registration, and the metrics document, must
    look like for [list_agents] to build a panel: the shape of the data
    model. *)
Definition is_str (v : json) : bool :=
  match v with JStr _ => true | _ => false end.

Definition registration_listable (o : dict) : bool :=
  registration_typed (JObj o)
  && match dict_get "name" o with
     | None | Some JNull | Some (JStr _) => true
     | Some _ => false
     end
  && match dict_get "tradingPairs" o with
     | None => true
     | Some (JArr xs) => forallb is_str xs
     | Some _ => false
     end
  && match dict_get "agentType" o with
     | None | Some (JStr _) => true
     | Some _ => false
     end.

Definition metrics_listable (metrics : json) : bool :=
  match metrics with
  | JObj m =>
      match dict_get "pnl" m with
      | None | Some (JFloat _) => true
      | Some _ => false
      end
      && match dict_get "custom" m with
         | None => true
         | Some (JObj custom) =>
             match dict_get "pnl_24h" custom with
             | None | Some (JFloat _) => true
             | Some _ => false
             end
         | Some _ => false
         end
  | _ => false
  end.

(** The world after one more reading of the clock. *)
Definition after_tick (w : world) : world :=
  {| store := store w; gets := gets w; published := published w;
     active_connections := active_connections w; delivered := delivered w;
     ticks := S (ticks w) |}.

(** The [type] field of an event published as JSON. *)
Definition event_type (payload : bytes) : option string :=
  match loads payload with
  | Some (JObj m) =>
      match dict_get "type" m with
      | Some (JStr t) => Some t
      | _ => None
      end
  | _ => None
  end.

End Controller.

(* ===================================================================== *)
(** ** A reference runtime *)
(* ===================================================================== *)

(** A model of the library interface on which the handlers can be run:
    a byte string is the encoding of a text, the output of [json.dumps]
    on a document, or bytes that are not UTF-8 (such as the byte 0x80 followed by abc). *)
Module Ref.

Inductive blob : Type :=
| Text (s : string)
| Doc (j : json)
| Junk.

(** The text [json.dumps] writes, with Python's separators. *)
Definition show_float (x : spec_float) : string :=
  match x with
  | S754_zero s => if s then "-0.0" else "0.0"
  | S754_infinity s => if s then "-Infinity" else "Infinity"
  | S754_nan => "NaN"
  | S754_finite s m e =>
      (if s then "-" else "") ++ pretty (Z.pos m) ++ "p" ++ pretty e
  end.

Definition quote : string := String (ascii_of_nat 34) EmptyString.

Fixpoint show (v : json) : string :=
  match v with
  | JNull => "null"
  | JBool b => if b then "true" else "false"
  | JInt n => pretty n
  | JFloat x => show_float x
  | JStr s => quote ++ s ++ quote
  | JArr xs =>
      "[" ++ (fix items (xs : list json) : string :=
                match xs with
                | [] => ""
                | [x] => show x
                | x :: rest => show x ++ ", " ++ items rest
                end) xs ++ "]"
  | JObj kvs =>
      "{" ++ (fix items (kvs : dict) : string :=
                match kvs with
                | [] => ""
                | [(k, x)] => quote ++ k ++ quote ++ ": " ++ show x
                | (k, x) :: rest =>
                    quote ++ k ++ quote ++ ": " ++ show x ++ ", " ++ items rest
                end) kvs ++ "}"
  end.

Definition digit (c : ascii) : option Z :=
  let n := nat_of_ascii c in
  if (Nat.leb 48 n && Nat.leb n 57)%bool then Some (Z.of_nat (n - 48)) else None.

Fixpoint digits (acc : Z) (s : string) : option Z :=
  match s with
  | EmptyString => Some acc
  | String c s' => match digit c with
                   | Some d => digits (10 * acc + d) s'
                   | None => None
                   end
  end.

Definition int_of_text (s : string) : option Z :=
  match s with
  | EmptyString => None
  | String "-"%char (String c s') => Z.opp <$> digits 0 (String c s')
  | String "-"%char EmptyString => None
  | _ => digits 0 s
  end.

Definition text_of (b : blob) : option string :=
  match b with Text s => Some s | Doc j => Some (show j) | Junk => None end.

Definition blob_is_empty (b : blob) : bool :=
  match b with Text s => String.eqb s "" | Doc _ | Junk => false end.

Definition blob_loads (b : blob) : option json :=
  match b with
  | Doc j => if wf_json j then Some j else None
  | Text _ | Junk => None
  end.

Definition blob_loads_error (b : blob) : exn :=
  match b with
  | Junk => UnicodeDecodeError
  | _ => JSONDecodeError
  end.

Definition blob_int (b : blob) : option Z :=
  match b with
  | Text s => int_of_text s
  | Doc (JInt n) => Some n
  | Doc _ | Junk => None
  end.

Definition str_of (v : json) : string :=
  match v with JStr s => s | _ => show v end.

(** One token is accepted, with the claims of the administrator. *)
Definition ref_jwt_decode (token : string) : option json :=
  if String.eqb token "t0k3n" then
    Some (JObj [("sub", JStr "admin"); ("roles", JArr [JStr "admin"])])
  else None.

Definition strict_str (v : json) : option string :=
  match v with JStr s => Some s | _ => None end.

Definition to_float (v : json) : option spec_float :=
  match v with
  | JFloat x => Some x
  | JInt n => Some (binary_normalize 53 1024 n 0 false)
  | _ => None
  end.

Definition ref_now_ms (n : nat) : Z := 1700000000000 + Z.of_nat n.

Lemma blob_loads_wf b j : blob_loads b = Some j -> wf_json j = true.
Proof.
  destruct b as [s|j0|]; simpl; try discriminate.
  destruct (wf_json j0) eqn:E; [|discriminate].
  intros [= <-]. exact E.
Qed.

Lemma blob_loads_error_builtin b status_code detail :
  blob_loads_error b <> HTTPException status_code detail.
Proof. destruct b; discriminate. Qed.

Lemma blob_loads_dumps j : wf_json j = true -> blob_loads (Doc j) = Some j.
Proof. intros H. simpl. now rewrite H. Qed.

#[export] Instance runtime : Runtime := {|
  bytes := blob;
  encode := Text;
  decode := text_of;
  is_empty := blob_is_empty;
  dumps := Doc;
  loads := blob_loads;
  loads_error := blob_loads_error;
  py_int := blob_int;
  py_str := str_of;
  jwt_decode := ref_jwt_decode;
  jwt_error := fun _ => PyJWTError;
  validate_str := strict_str;
  validate_float := to_float;
  now_ms := ref_now_ms;
  decode_encode := fun s => eq_refl;
  is_empty_encode := fun s => eq_refl;
  loads_dumps := blob_loads_dumps;
  loads_wf := blob_loads_wf;
  loads_error_builtin := blob_loads_error_builtin;
  is_empty_dumps := fun j => eq_refl;
  py_str_str := fun s => eq_refl;
  validate_str_str := fun s => eq_refl;
  validate_float_float := fun x => eq_refl
|}.

(** A store with one canary agent that has been paused, and one agent
    registered without an [agentId]. *)
Definition a1_registration : json :=
  JObj [("agentId", JStr "a1"); ("name", JStr "alpha");
        ("tradingPairs", JArr [JStr "BTC/USD"; JStr "ETH/USD"; JStr "SOL/USD"]);
        ("config", JObj [("executionConfig", JObj [("mode", JStr "canary")]);
                         ("a", JObj [("b", JInt 1); ("c", JInt 2)])])].

Definition anon_registration : json :=
  JObj [("name", JStr "nameless"); ("agentType", JStr "arb")].

Definition store0 : gmap string blob :=
  <["agent:a1:registration" := Doc a1_registration]>
  (<["agent:a1:state" := Text "paused"]>
  (<["agent:x9:registration" := Doc anon_registration]>
  (<["agent:unknown:state" := Text "disabled"]>
  (<["agent:unknown:last_signal" := Text "1699999999000"]>
  (<["agent:unknown:metrics" :=
      Doc (JObj [("pnl", JFloat (S754_finite false 6755399441055744 (-51)))])]> ∅))))).

Definition w0 : world :=
  {| store := store0; gets := []; published := [];
     active_connections := [("c1", {| ws_open := true |}); ("c2", {| ws_open := false |})];
     delivered := []; ticks := 0 |}.

(** An agent that is not in canary mode by [mode], and whose
    [canaryMode] is a string. *)
Definition a2_exec_config : dict := [("mode", JStr "paper"); ("canaryMode", JStr "yes")].

Definition a2_registration : dict :=
  [("agentId", JStr "a2"); ("config", JObj [("executionConfig", JObj a2_exec_config)])].

Definition w2 : world :=
  with_store (insert "agent:a2:registration" (Doc (JObj a2_registration))) w0.

End Ref.


(* ===================================================================== *)
(** ** Vocabulary of the further properties *)
(* ===================================================================== *)

(** No character of [s] is one [str.split()] splits at. *)
Fixpoint no_space (s : string) : bool :=
  match s with
  | EmptyString => true
  | String c s' => negb (is_space c) && no_space s'
  end.

(** The pattern has no [*]: it matches itself only. *)
Fixpoint literal (p : string) : bool :=
  match p with
  | EmptyString => true
  | String c p' => negb (Ascii.eqb c "*"%char) && literal p'
  end.

(** The type of the event each mutating operation announces on
    [agent_events]. *)
Definition event_name (op : operation) : string :=
  match op with
  | Pause _ => "pause_requested"
  | Resume _ => "resume_requested"
  | Restart _ => "restart_requested"
  | InjectConfig _ _ => "config_update_requested"
  | PromoteCanary _ => "canary_promoted"
  end.

(** The patch of an operation, if it carries one, has distinct keys at
    every level (it was a Python dictionary). *)
Definition patch_wf (op : operation) : bool :=
  match op with
  | InjectConfig _ config => wf_json (JObj config)
  | _ => true
  end.

(* ===================================================================== *)
(** ** Auth routes *)
(* ===================================================================== *)

(** What the token route needs besides the [Runtime]. *)
Class AuthRuntime := {
  (** [os.environ.get("ADMIN_PASSWORD", "admin")] *)
  admin_password : string;
  (** [jwt.encode(claims, JWT_SECRET, algorithm=JWT_ALGORITHM)] *)
  jwt_encode : dict -> string;
  (** the [n]-th reading of [datetime.utcnow()], in the whole seconds
      since the epoch that PyJWT writes for an [exp] of that instant *)
  utcnow_s : nat -> Z
}.

(** Response model [TokenResponse]. *)
Record TokenResponse := { access_token : string; token_type : string }.

Section Auth.
Context `{RT : Runtime} `{AR : AuthRuntime}.

(** [ACCESS_TOKEN_EXPIRE_MINUTES = 60 * 24], in seconds. *)
Definition ACCESS_TOKEN_EXPIRE_SECONDS : Z := 60 * 24 * 60.

(** <<
    to_encode = data.copy()
    expire = datetime.utcnow() + timedelta(minutes=ACCESS_TOKEN_EXPIRE_MINUTES)
    to_encode.update({"exp": expire})
    encoded_jwt = jwt.encode(to_encode, JWT_SECRET, algorithm=JWT_ALGORITHM)
    >> *)
Definition create_access_token (data : dict) : M string :=
  fun w =>
    let expire := JInt (utcnow_s (ticks w) + ACCESS_TOKEN_EXPIRE_SECONDS) in
    let to_encode := dict_update data [("exp", expire)] in
    (inl (jwt_encode to_encode),
     {| store := store w; gets := gets w; published := published w;
        active_connections := active_connections w; delivered := delivered w;
        ticks := S (ticks w) |}).

(** [POST /auth/token] *)
Definition login_for_access_token (username password : string) : M TokenResponse :=
  if String.eqb username "admin" && String.eqb password admin_password then
    let token_data := [("sub", JStr username); ("roles", JArr [JStr "admin"])] in
    access_token <- create_access_token token_data ;;
    ret {| access_token := access_token; token_type := "bearer" |}
  else raise (HTTPException 401 "Invalid credentials").

End Auth.

(** The value [list_agents] shows as 24h PnL for a metrics object:
    [custom.pnl_24h] when there is one, else [pnl], else [0.0]. *)
Definition shown_pnl (metrics : dict) : json :=
  let pnl := match dict_get "pnl" metrics with
             | Some x => x
             | None => JFloat (S754_zero false)
             end in
  match dict_get "custom" metrics with
  | Some (JObj custom) =>
      match dict_get "pnl_24h" custom with
      | Some x => x
      | None => pnl
      end
  | _ => pnl
  end.

(* ===================================================================== *)
(** ** More of the reference runtime *)
(* ===================================================================== *)

Module RefMore.

(** The fields of a JSON object. *)
Definition fields_of (j : json) : dict :=
  match j with JObj o => o | _ => [] end.

Definition a1_fields : dict := fields_of Ref.a1_registration.

Definition a1_config : dict :=
  fields_of match dict_get "config" a1_fields with Some c => c | None => JNull end.

(** The reference world with three more keys: a registration that is
    not JSON, one that is not UTF-8, and one that holds an empty
    value. *)
Definition w1 : world (RT := Ref.runtime) :=
  with_store (fun m => <["agent:bad:registration" := Ref.Text "{not json"]>
                       (<["agent:raw:registration" := Ref.Junk]>
                       (<["agent:empty:registration" := Ref.Text ""]> m)))
             Ref.w0.

(** A token route that issues the one token the reference
    [jwt_decode] accepts. *)
#[export] Instance auth : AuthRuntime := {|
  admin_password := "admin";
  jwt_encode := fun _ => "t0k3n";
  utcnow_s := fun n => 1700000000 + Z.of_nat n
|}.

End RefMore.


(* ===================================================================== *)
(** * Properties *)
(* ===================================================================== *)

(** ** Dictionaries *)

Lemma dict_get_set_eq k v d : dict_get k (dict_set k v d) = Some v.
Proof.
  induction d as [|[k' v'] d IH]; simpl.
  - now rewrite String.eqb_refl.
  - destruct (String.eqb k k') eqn:E; simpl; rewrite E; auto.
Qed.

Lemma dict_get_set_ne k k' v d :
  k <> k' -> dict_get k' (dict_set k v d) = dict_get k' d.
Proof.
  intros Hne. induction d as [|[k0 v0] d IH]; simpl.
  - destruct (String.eqb_spec k' k); congruence.
  - destruct (String.eqb_spec k k0) as [->|]; simpl.
    + destruct (String.eqb_spec k' k0); congruence.
    + now rewrite IH.
Qed.

Lemma dict_set_same k v d : dict_get k d = Some v -> dict_set k v d = d.
Proof.
  induction d as [|[k' v'] d IH]; simpl; [discriminate|].
  destruct (String.eqb_spec k k') as [->|]; intros H.
  - congruence.
  - now rewrite IH.
Qed.

Lemma dict_set_set k v v' d : dict_set k v (dict_set k v' d) = dict_set k v d.
Proof.
  induction d as [|[k0 v0] d IH]; simpl.
  - now rewrite String.eqb_refl.
  - destruct (String.eqb k k0) eqn:E; simpl; rewrite E; [reflexivity|].
    now rewrite IH.
Qed.

Lemma dict_has_get k d : dict_has k d = true <-> exists v, dict_get k d = Some v.
Proof.
  unfold dict_has. destruct (dict_get k d); split; eauto; try discriminate.
  intros [v [=]].
Qed.

Lemma dict_has_set k v d : dict_has k (dict_set k v d) = true.
Proof. unfold dict_has. now rewrite dict_get_set_eq. Qed.

(** ** Well-formed documents stay well-formed under assignment *)

Lemma wf_json_cons k x rest :
  wf_json (JObj ((k, x) :: rest))
  = keys_fresh k rest && wf_json x && wf_json (JObj rest).
Proof. reflexivity. Qed.

Lemma keys_fresh_get k d : keys_fresh k d = true -> dict_get k d = None.
Proof.
  induction d as [|[k' v'] d IH]; simpl; [reflexivity|].
  destruct (String.eqb k k'); simpl; [discriminate|auto].
Qed.

Lemma keys_fresh_set k k' v d :
  k <> k' -> keys_fresh k' (dict_set k v d) = keys_fresh k' d.
Proof.
  intros Hne. induction d as [|[k0 v0] d IH]; simpl.
  - destruct (String.eqb_spec k' k); [congruence|reflexivity].
  - destruct (String.eqb_spec k k0) as [->|]; simpl; [reflexivity|].
    now rewrite IH.
Qed.

Lemma wf_dict_set k v d :
  wf_json (JObj d) = true -> wf_json v = true -> wf_json (JObj (dict_set k v d)) = true.
Proof.
  intros Hd Hv. induction d as [|[k0 v0] d IH].
  - simpl. now rewrite Hv.
  - rewrite wf_json_cons in Hd.
    apply andb_prop in Hd as [Hd Hrest]. apply andb_prop in Hd as [Hfresh Hx].
    simpl dict_set. destruct (String.eqb_spec k k0) as [->|Hne].
    + rewrite wf_json_cons, Hfresh, Hv, Hrest. reflexivity.
    + rewrite wf_json_cons, keys_fresh_set, Hfresh, Hx, IH by auto. reflexivity.
Qed.

Lemma wf_dict_get k d v :
  wf_json (JObj d) = true -> dict_get k d = Some v -> wf_json v = true.
Proof.
  induction d as [|[k0 v0] d IH]; simpl dict_get; [discriminate|].
  rewrite wf_json_cons. intros Hd.
  apply andb_prop in Hd as [Hd Hrest]. apply andb_prop in Hd as [_ Hx].
  destruct (String.eqb k k0); [congruence|auto].
Qed.

(** ** [deep_update] *)

Lemma deep_update_nil d : deep_update d [] = d.
Proof. reflexivity. Qed.

Lemma deep_update_cons d k v u :
  deep_update d ((k, v) :: u) = deep_update (deep_update_step d k v) u.
Proof.
  unfold deep_update at 1. simpl. unfold deep_update_step.
  destruct v; reflexivity.
Qed.

Lemma deep_update_step_set d k v :
  deep_update_step d k v = dict_set k (merged_value v (dict_get k d)) d.
Proof.
  unfold deep_update_step, merged_value.
  destruct v; try reflexivity. destruct (dict_get k d) as [[]|]; reflexivity.
Qed.

Lemma deep_update_get_other d u k :
  dict_get k u = None -> dict_get k (deep_update d u) = dict_get k d.
Proof.
  revert d. induction u as [|[k0 v0] u IH]; intros d; [reflexivity|].
  simpl dict_get. destruct (String.eqb_spec k k0) as [->|Hne]; [discriminate|].
  intros H. rewrite deep_update_cons, IH, deep_update_step_set by assumption.
  apply dict_get_set_ne. congruence.
Qed.

Lemma deep_update_get d u k :
  wf_json (JObj u) = true ->
  dict_get k (deep_update d u)
  = match dict_get k u with
    | Some v => Some (merged_value v (dict_get k d))
    | None => dict_get k d
    end.
Proof.
  revert d. induction u as [|[k0 v0] u IH]; intros d Hu; [reflexivity|].
  rewrite wf_json_cons in Hu.
  apply andb_prop in Hu as [Hu Hrest]. apply andb_prop in Hu as [Hfresh _].
  rewrite deep_update_cons. simpl dict_get.
  destruct (String.eqb_spec k k0) as [->|Hne].
  - rewrite deep_update_get_other by now apply keys_fresh_get.
    rewrite deep_update_step_set. apply dict_get_set_eq.
  - rewrite IH by assumption. destruct (dict_get k u); [|].
    + rewrite deep_update_step_set, dict_get_set_ne by congruence. reflexivity.
    + rewrite deep_update_step_set, dict_get_set_ne by congruence. reflexivity.
Qed.

(** ** Keys *)

Lemma last_char_app s t : t <> "" -> last_char (s ++ t) = last_char t.
Proof.
  intros Ht. induction s as [|c s IH]; [reflexivity|].
  simpl. rewrite IH. destruct (s ++ t) eqn:E; [|reflexivity].
  destruct s; [change (t = "") in E; congruence|discriminate].
Qed.

Lemma last_char_key agentId kind :
  kind <> "" -> last_char ("agent:" ++ agentId ++ kind) = last_char kind.
Proof.
  intros H. change ("agent:" ++ agentId ++ kind) with (("agent:" ++ agentId) ++ kind) at 1.
  - apply (last_char_app ("agent:" ++ agentId)), H.
Qed.

Lemma state_key_not_registration a b : state_key_of a <> reg_key_of b.
Proof.
  intros H. apply (f_equal last_char) in H. unfold state_key_of, reg_key_of in H.
  rewrite !last_char_key in H by discriminate. discriminate.
Qed.

Lemma state_key_not_metrics a b : state_key_of a <> metrics_key_of b.
Proof.
  intros H. apply (f_equal last_char) in H. unfold state_key_of, metrics_key_of in H.
  rewrite !last_char_key in H by discriminate. discriminate.
Qed.

Lemma state_key_not_last_signal a b : state_key_of a <> last_signal_key_of b.
Proof.
  intros H. apply (f_equal last_char) in H. unfold state_key_of, last_signal_key_of in H.
  rewrite !last_char_key in H by discriminate. discriminate.
Qed.

Section Properties.
Context `{RT : Runtime}.

(** ** Running coroutines *)

Lemma bind_inl {A B} (m : M A) (k : A -> M B) w b w' :
  bind m k w = (inl b, w') ->
  exists a w1, m w = (inl a, w1) /\ k a w1 = (inl b, w').
Proof.
  unfold bind. destruct (m w) as [[a|e] w1]; [eauto|discriminate].
Qed.

Lemma bind_run {A B} (m : M A) (k : A -> M B) w a w1 :
  m w = (inl a, w1) -> bind m k w = k a w1.
Proof. unfold bind. now intros ->. Qed.

(** ** The lifecycle handlers *)

Lemma pause_agent_lifecycle agentId :
  pause_agent agentId = lifecycle "pause_requested" "pause" "paused" "paused" agentId.
Proof. reflexivity. Qed.

Lemma resume_agent_lifecycle agentId :
  resume_agent agentId = lifecycle "resume_requested" "resume" "running" "resumed" agentId.
Proof. reflexivity. Qed.

Lemma restart_agent_lifecycle agentId :
  restart_agent agentId
  = lifecycle "restart_requested" "restart" "initializing" "restarting" agentId.
Proof. reflexivity. Qed.

Lemma lifecycle_registered requested command state done agentId w :
  is_Some (store w !! reg_key_of agentId) ->
  lifecycle requested command state done agentId w
  = (inl {| success := true; message := "Agent " ++ agentId ++ " " ++ done |},
     after_lifecycle requested command state agentId w).
Proof.
  intros Hreg. unfold lifecycle, bind, r_exists.
  rewrite bool_decide_eq_true_2 by assumption. cbn.
  unfold broadcast_websocket_message, after_lifecycle. cbn.
  destruct (send_all _ _) as [sent disconnected]. cbn.
  rewrite <- app_assoc. reflexivity.
Qed.

Lemma lifecycle_unregistered requested command state done agentId w :
  store w !! reg_key_of agentId = None ->
  lifecycle requested command state done agentId w
  = (inr (HTTPException 404 "Agent not found"), w).
Proof.
  intros Hreg. unfold lifecycle, bind, r_exists.
  rewrite bool_decide_eq_false_2; [reflexivity|].
  rewrite Hreg. intros [? [=]].
Qed.

Lemma send_all_frames frame conns :
  fst (send_all frame conns) = frames_to_open frame conns.
Proof.
  unfold frames_to_open. induction conns as [|[c ws] conns IH]; [reflexivity|].
  simpl send_all. destruct (send_all frame conns) as [sent disc]. simpl in IH.
  simpl. destruct (ws_open ws); simpl; [now rewrite IH|exact IH].
Qed.

(** ** [promote_canary] *)

Lemma in_canary_dict exec_config w :
  in_canary (JObj exec_config) w = (inl (signals_canary exec_config), w).
Proof.
  unfold in_canary, signals_canary, bind, py_get, ret.
  destruct (dict_get "mode" exec_config) as [m|]; simpl.
  - destruct (eq_str m "canary"); [reflexivity|].
    destruct (dict_get "canaryMode" exec_config); reflexivity.
  - destruct (dict_get "canaryMode" exec_config); reflexivity.
Qed.

#[local] Arguments in_canary : simpl never.

Lemma promote_canary_absent agentId w :
  present (store w !! reg_key_of agentId) = None ->
  promote_canary agentId w
  = (inr (HTTPException 404 "Agent not found"), after_get (reg_key_of agentId) w).
Proof.
  intros H. unfold promote_canary, bind, r_get. cbn. now rewrite H.
Qed.

Lemma promote_canary_success agentId w b agent_json config exec_config :
  present (store w !! reg_key_of agentId) = Some b ->
  loads b = Some (JObj agent_json) ->
  dict_get "config" agent_json = Some (JObj config) ->
  dict_get "executionConfig" config = Some (JObj exec_config) ->
  signals_canary exec_config = true ->
  promote_canary agentId w
  = (inl {| success := true;
            message := "Agent " ++ agentId ++ " promoted from canary to live" |},
     after_promote agentId agent_json config exec_config w).
Proof.
  intros Hb Hj Hc He Hs. unfold promote_canary, bind, r_get. cbn.
  rewrite Hb. cbn. rewrite Hj. cbn. unfold dict_has. rewrite Hc. cbn.
  unfold dict_has. rewrite He. cbn.
  rewrite in_canary_dict, Hs. cbn.
  unfold broadcast_websocket_message, after_promote, promoted_registration,
    promoted_exec_config, with_store. cbn.
  destruct (send_all _ _) as [sent disconnected]. cbn.
  rewrite <- app_assoc. reflexivity.
Qed.

Lemma promote_canary_inv agentId w r w' :
  promote_canary agentId w = (inl r, w') ->
  exists b agent_json config exec_config,
    present (store w !! reg_key_of agentId) = Some b /\
    loads b = Some (JObj agent_json) /\
    dict_get "config" agent_json = Some (JObj config) /\
    dict_get "executionConfig" config = Some (JObj exec_config) /\
    signals_canary exec_config = true.
Proof.
  unfold promote_canary, bind, r_get. cbn.
  destruct (present (store w !! reg_key_of agentId)) as [b|] eqn:Hb; [|discriminate].
  cbn. destruct (loads b) as [agent_json|] eqn:Hj; [|discriminate].
  cbn. intros H. exists b.
  destruct agent_json as [| | | | s |xs|o]; cbn in H; try discriminate.
  - destruct (is_substring "config" s); cbn in H; discriminate.
  - destruct (existsb _ xs); cbn in H; discriminate.
  - unfold dict_has in H.
    destruct (dict_get "config" o) as [config|] eqn:Hc; cbn in H; [|discriminate].
    destruct config as [| | | | s |xs|c]; cbn in H; try discriminate.
    + destruct (is_substring "executionConfig" s); cbn in H; discriminate.
    + destruct (existsb _ xs); cbn in H; discriminate.
    + unfold dict_has in H.
      destruct (dict_get "executionConfig" c) as [e|] eqn:He; cbn in H; [|discriminate].
      destruct e as [| | | | s |xs|e]; try (unfold in_canary in H; cbn in H; discriminate).
      rewrite in_canary_dict in H.
      destruct (signals_canary e) eqn:Hs; cbn in H; [|discriminate].
      exists o, c, e. auto.
Qed.

Lemma promote_canary_not_canary agentId w b agent_json config exec_config :
  present (store w !! reg_key_of agentId) = Some b ->
  loads b = Some (JObj agent_json) ->
  dict_get "config" agent_json = Some (JObj config) ->
  dict_get "executionConfig" config = Some (JObj exec_config) ->
  signals_canary exec_config = false ->
  promote_canary agentId w
  = (inr (HTTPException 400 "Agent is not in canary mode"),
     after_get (reg_key_of agentId) w).
Proof.
  intros Hb Hj Hc He Hs. unfold promote_canary, bind, r_get. cbn.
  rewrite Hb. cbn. rewrite Hj. cbn. unfold dict_has. rewrite Hc. cbn.
  unfold dict_has. rewrite He. cbn.
  rewrite in_canary_dict, Hs. reflexivity.
Qed.

Lemma promote_canary_no_exec agentId w b agent_json :
  present (store w !! reg_key_of agentId) = Some b ->
  loads b = Some (JObj agent_json) ->
  dict_get "config" agent_json = None \/
  (exists config, dict_get "config" agent_json = Some (JObj config) /\
                  dict_get "executionConfig" config = None) ->
  promote_canary agentId w
  = (inr (HTTPException 400 "Agent does not have execution configuration"),
     after_get (reg_key_of agentId) w).
Proof.
  intros Hb Hj H. unfold promote_canary, bind, r_get. cbn.
  rewrite Hb. cbn. rewrite Hj. cbn. unfold dict_has.
  destruct H as [Hc|(config & Hc & He)]; rewrite Hc; cbn; [reflexivity|].
  unfold dict_has. rewrite He. reflexivity.
Qed.

Lemma present_Some o b : present o = Some b <-> o = Some b /\ is_empty b = false.
Proof.
  unfold present. destruct o as [b'|]; [|split; [discriminate|intros [[=] _]]].
  destruct (is_empty b') eqn:E; split.
  - discriminate.
  - intros [[= ->] H]. congruence.
  - intros [= ->]. auto.
  - intros [[= ->] _]. reflexivity.
Qed.

Lemma present_None o :
  present o = None <-> o = None \/ exists b, o = Some b /\ is_empty b = true.
Proof.
  unfold present. destruct o as [b|]; [|split; auto].
  destruct (is_empty b) eqn:E; split; eauto; try discriminate.
  intros [[=]|(b' & [= <-] & H)]. congruence.
Qed.

Lemma present_dumps j : present (Some (dumps j)) = Some (dumps j).
Proof. unfold present. now rewrite is_empty_dumps. Qed.

(** The registration written back by a promotion is a well-formed
    document that no longer signals canary. *)
Lemma promoted_exec_config_live e :
  dict_get "mode" (promoted_exec_config e) = Some (JStr "live") /\
  dict_get "canaryMode" (promoted_exec_config e) = Some (JBool false).
Proof.
  unfold promoted_exec_config. split.
  - rewrite dict_get_set_ne by discriminate. apply dict_get_set_eq.
  - apply dict_get_set_eq.
Qed.

Lemma promoted_exec_config_not_canary e : signals_canary (promoted_exec_config e) = false.
Proof.
  unfold signals_canary. destruct (promoted_exec_config_live e) as [-> ->]. reflexivity.
Qed.

Lemma promoted_registration_wf o c e :
  wf_json (JObj o) = true ->
  dict_get "config" o = Some (JObj c) ->
  dict_get "executionConfig" c = Some (JObj e) ->
  wf_json (JObj (promoted_registration o c e)) = true.
Proof.
  intros Ho Hc He.
  pose proof (wf_dict_get _ _ _ Ho Hc) as Hwc.
  pose proof (wf_dict_get _ _ _ Hwc He) as Hwe.
  unfold promoted_registration, promoted_exec_config.
  repeat (apply wf_dict_set; try assumption; try reflexivity).
Qed.

Lemma promoted_registration_exec o c e :
  exec_config_of (promoted_registration o c e) = Some (JObj (promoted_exec_config e)).
Proof.
  unfold exec_config_of, promoted_registration.
  rewrite dict_get_set_eq. apply dict_get_set_eq.
Qed.

Lemma eq_str_true v s : eq_str v s = true <-> v = JStr s.
Proof.
  destruct v; simpl; try (split; [discriminate|intros [=]]).
  destruct (String.eqb_spec s0 s); split; congruence.
Qed.

Lemma promote_canary_undecoded agentId w b :
  present (store w !! reg_key_of agentId) = Some b ->
  loads b = None ->
  promote_canary agentId w
  = (inr (loads_error b), after_get (reg_key_of agentId) w).
Proof.
  intros Hb Hj. unfold promote_canary, bind, r_get. cbn.
  rewrite Hb. cbn. rewrite Hj. reflexivity.
Qed.

Lemma promote_canary_lacks agentId w b agent_json :
  present (store w !! reg_key_of agentId) = Some b ->
  loads b = Some agent_json ->
  lacks_exec_config agent_json = true ->
  promote_canary agentId w
  = (inr (HTTPException 400 "Agent does not have execution configuration"),
     after_get (reg_key_of agentId) w).
Proof.
  intros Hb Hj Hl. unfold promote_canary, bind, r_get. cbn.
  rewrite Hb. cbn. rewrite Hj. cbn.
  unfold lacks_exec_config, py_not_in in Hl.
  destruct agent_json as [| | | | s |xs|o]; cbn in Hl; try discriminate; cbn.
  - rewrite orb_false_r in Hl. apply negb_true_iff in Hl. now rewrite Hl.
  - rewrite orb_false_r in Hl. apply negb_true_iff in Hl. now rewrite Hl.
  - unfold dict_has in *.
    destruct (dict_get "config" o) as [config|]; cbn in *; [|reflexivity].
    destruct config as [| | | | s |xs|c]; cbn in Hl; try discriminate; cbn.
    + apply negb_true_iff in Hl. now rewrite Hl.
    + apply negb_true_iff in Hl. now rewrite Hl.
    + apply negb_true_iff in Hl. unfold dict_has in *. now rewrite Hl.
Qed.

(** A decoded registration that has the two keys, on which the handler
    nevertheless cannot go on: some value on the way is of another
    type than the handler takes for granted. *)
Lemma promote_canary_untyped agentId w b agent_json :
  present (store w !! reg_key_of agentId) = Some b ->
  loads b = Some agent_json ->
  lacks_exec_config agent_json = false ->
  (forall o e, agent_json = JObj o -> exec_config_of o <> Some (JObj e)) ->
  fst (promote_canary agentId w) = inr TypeError \/
  fst (promote_canary agentId w) = inr AttributeError.
Proof.
  intros Hb Hj Hl Hty. unfold promote_canary, bind, r_get. cbn.
  rewrite Hb. cbn. rewrite Hj. cbn.
  unfold lacks_exec_config, py_not_in in Hl.
  destruct agent_json as [| | | | s |xs|o]; cbn in Hl; cbn; auto.
  - rewrite orb_false_r in Hl. apply negb_false_iff in Hl. rewrite Hl. cbn. auto.
  - rewrite orb_false_r in Hl. apply negb_false_iff in Hl. rewrite Hl. cbn. auto.
  - specialize (Hty o). unfold exec_config_of, dict_has in *.
    destruct (dict_get "config" o) as [config|]; cbn in *; [|discriminate].
    destruct config as [| | | | s |xs|c]; cbn in Hl; cbn; auto.
    + apply negb_false_iff in Hl. rewrite Hl. cbn. auto.
    + apply negb_false_iff in Hl. rewrite Hl. cbn. auto.
    + unfold dict_has in *.
      destruct (dict_get "executionConfig" c) as [e|]; cbn in *; [|discriminate].
      destruct e as [| | | | s |xs|e]; cbn; auto.
      exfalso. now apply (Hty e).
Qed.

Lemma lacks_exec_config_typed o e :
  exec_config_of o = Some e -> lacks_exec_config (JObj o) = false.
Proof.
  unfold exec_config_of, lacks_exec_config, py_not_in, dict_has.
  destruct (dict_get "config" o) as [[| | | | | |c]|]; try discriminate.
  intros ->. reflexivity.
Qed.

(** C3, as the code has it.  What is stored for an agent is the
    non-empty value under its registration key.  [promote_canary] fails
    with 404 "Agent not found" exactly when nothing, or an empty value,
    is stored; with 400 "Agent does not have execution configuration"
    exactly when the stored value decodes and
    ["config" not in agent_json or "executionConfig" not in agent_json["config"]]
    holds of it; with 400 "Agent is not in canary mode" exactly when it
    decodes to an object whose [config] is an object whose
    [executionConfig] is an object with a [mode] other than ["canary"]
    and a [canaryMode] that is missing or that Python takes for false;
    and it succeeds exactly when that [executionConfig] has
    [mode == "canary"] or a [canaryMode] that Python takes for true
    (any such value, not only [true]).  On success the registration now
    stored reads back as a document whose [executionConfig] has
    [mode = "live"] and [canaryMode = false].  No other
    [HTTPException] is raised: a value that does not decode, or whose
    [config] or [executionConfig] is not an object, makes the call
    raise the exception of the failing operation. *)
Theorem promote_canary_outcomes agentId w :
  let res := promote_canary agentId w in
  let stored := store w !! reg_key_of agentId in
  (fst res = inr (HTTPException 404 "Agent not found")
   <-> stored = None \/ exists b, stored = Some b /\ is_empty b = true) /\
  (fst res = inr (HTTPException 400 "Agent does not have execution configuration")
   <-> exists b agent_json,
         stored = Some b /\ is_empty b = false /\
         loads b = Some agent_json /\ lacks_exec_config agent_json = true) /\
  (fst res = inr (HTTPException 400 "Agent is not in canary mode")
   <-> exists b o e,
         stored = Some b /\ is_empty b = false /\
         loads b = Some (JObj o) /\ exec_config_of o = Some (JObj e) /\
         signals_canary e = false) /\
  (fst res = inl {| success := true;
                    message := "Agent " ++ agentId ++ " promoted from canary to live" |}
   <-> exists b o e,
         stored = Some b /\ is_empty b = false /\
         loads b = Some (JObj o) /\ exec_config_of o = Some (JObj e) /\
         signals_canary e = true) /\
  (forall r, fst res = inl r ->
     r = {| success := true;
            message := "Agent " ++ agentId ++ " promoted from canary to live" |} /\
     exists o' e', store (snd res) !! reg_key_of agentId = Some (dumps (JObj o')) /\
                   loads (dumps (JObj o')) = Some (JObj o') /\
                   exec_config_of o' = Some (JObj e') /\
                   dict_get "mode" e' = Some (JStr "live") /\
                   dict_get "canaryMode" e' = Some (JBool false)) /\
  (forall status_code detail,
     fst res = inr (HTTPException status_code detail) ->
     (status_code = 404 /\ detail = "Agent not found") \/
     (status_code = 400 /\
      (detail = "Agent does not have execution configuration" \/
       detail = "Agent is not in canary mode"))).
Proof.
  intros res stored. subst res stored.
  destruct (store w !! reg_key_of agentId) as [b|] eqn:Hreg.
  2:{ rewrite promote_canary_absent by (rewrite Hreg; reflexivity). cbn.
      repeat split; try discriminate; auto.
      - intros (? & ? & [=] & _).
      - intros (? & ? & ? & [=] & _).
      - intros (? & ? & ? & [=] & _).
      - intros ? ? [= <- <-]. auto. }
  destruct (is_empty b) eqn:Hne.
  { rewrite promote_canary_absent
      by (rewrite Hreg; apply present_None; right; eauto). cbn.
    repeat split; try discriminate; eauto.
    - intros (? & ? & [= <-] & ? & _). congruence.
    - intros (? & ? & ? & [= <-] & ? & _). congruence.
    - intros (? & ? & ? & [= <-] & ? & _). congruence.
    - intros ? ? [= <- <-]. auto. }
  assert (Hb : present (store w !! reg_key_of agentId) = Some b)
    by (rewrite Hreg; apply present_Some; auto).
  assert (H404 : ~ (Some b = None \/ exists b', Some b = Some b' /\ is_empty b' = true)).
  { intros [[=]|(b' & [= <-] & E)]. congruence. }
  destruct (loads b) as [j|] eqn:Hj.
  2:{ rewrite (promote_canary_undecoded _ _ _ Hb Hj). cbn.
      pose proof (loads_error_builtin b) as Hle.
      repeat split; try (intros E; injection E as E; now apply Hle in E);
        try discriminate; try tauto.
      - intros (? & ? & [= <-] & _ & ? & _). congruence.
      - intros (? & ? & ? & [= <-] & _ & ? & _). congruence.
      - intros (? & ? & ? & [= <-] & _ & ? & _). congruence.
      - intros ? ? E. injection E as E. now apply Hle in E. }
  destruct (lacks_exec_config j) eqn:Hl.
  { rewrite (promote_canary_lacks _ _ _ _ Hb Hj Hl). cbn.
    repeat split; try discriminate; try tauto; eauto 10.
    - intros (? & o & e & [= <-] & _ & Ho & He & _).
      assert (j = JObj o) as -> by congruence.
      rewrite (lacks_exec_config_typed _ _ He) in Hl. discriminate.
    - intros (? & o & e & [= <-] & _ & Ho & He & _).
      assert (j = JObj o) as -> by congruence.
      rewrite (lacks_exec_config_typed _ _ He) in Hl. discriminate.
    - intros ? ? [= <- <-]. auto. }
  assert (Hnl : ~ exists b' j', Some b = Some b' /\ is_empty b' = false /\
                                loads b' = Some j' /\ lacks_exec_config j' = true).
  { intros (? & ? & [= <-] & _ & ? & ?). congruence. }
  destruct (match j with
            | JObj o => match exec_config_of o with
                        | Some (JObj e) => Some (o, e)
                        | _ => None
                        end
            | _ => None
            end) as [p|] eqn:Hty.
  2:{ assert (Hun : forall o e, j = JObj o -> exec_config_of o <> Some (JObj e)).
      { intros o e -> E. rewrite E in Hty. discriminate. }
      assert (Hno : ~ exists b' o e, Some b = Some b' /\ is_empty b' = false /\
                      loads b' = Some (JObj o) /\ exec_config_of o = Some (JObj e)).
      { intros (? & o & e & [= <-] & _ & Ho & He). apply (Hun o e); congruence. }
      destruct (promote_canary_untyped _ _ _ _ Hb Hj Hl Hun) as [-> | ->];
        repeat split; try discriminate; try tauto;
        try (intros (b' & o & e & ? & ? & ? & ? & _); exfalso; apply Hno; eauto 10). }
  destruct j as [| | | | | |o]; try discriminate.
  destruct (exec_config_of o) as [[| | | | | |e]|] eqn:He; try discriminate.
  clear p Hty.
  assert (Hsame : forall b' o', Some b = Some b' -> loads b' = Some (JObj o') -> o' = o)
    by (intros b' o' [= <-] E; congruence).
  assert (Hc : exists c, dict_get "config" o = Some (JObj c) /\
                         dict_get "executionConfig" c = Some (JObj e)).
  { unfold exec_config_of in He.
    destruct (dict_get "config" o) as [[| | | | | |c]|]; try discriminate. eauto. }
  destruct Hc as (c & Hc & Hec).
  destruct (signals_canary e) eqn:Hs.
  - rewrite (promote_canary_success _ _ _ _ _ _ Hb Hj Hc Hec Hs). cbn.
    repeat split; try discriminate; try tauto.
    + intros (b' & o' & e' & E1 & _ & E2 & E3 & E4).
      rewrite (Hsame _ _ E1 E2), He in E3. congruence.
    + eauto 10.
    + congruence.
    + exists (promoted_registration o c e), (promoted_exec_config e).
      rewrite lookup_insert_eq. split; [reflexivity|].
      split; [apply loads_dumps, promoted_registration_wf; eauto using loads_wf|].
      split; [apply promoted_registration_exec|]. apply promoted_exec_config_live.
  - rewrite (promote_canary_not_canary _ _ _ _ _ _ Hb Hj Hc Hec Hs). cbn.
    repeat split; try discriminate; try tauto.
    + eauto 10.
    + intros (b' & o' & e' & E1 & _ & E2 & E3 & E4).
      rewrite (Hsame _ _ E1 E2), He in E3. congruence.
    + intros ? ? [= <- <-]. auto.
Qed.

(** C6. After a successful [promote_canary], a second call for the same
    agent on the resulting world fails with 400 "Agent is not in canary
    mode", and writes and publishes nothing. *)
Theorem promote_canary_twice agentId w r w' :
  promote_canary agentId w = (inl r, w') ->
  fst (promote_canary agentId w')
  = inr (HTTPException 400 "Agent is not in canary mode") /\
  quiet w' (snd (promote_canary agentId w')).
Proof.
  intros H. pose proof H as Hinv.
  apply promote_canary_inv in Hinv as (b & o & c & e & Hb & Hj & Hc & He & Hs).
  rewrite (promote_canary_success _ _ _ _ _ _ Hb Hj Hc He Hs) in H.
  injection H as _ <-.
  erewrite promote_canary_not_canary; [cbn; repeat split | | | | |].
  - cbn. rewrite lookup_insert_eq. apply present_dumps.
  - apply loads_dumps, promoted_registration_wf; eauto using loads_wf.
  - unfold promoted_registration. apply dict_get_set_eq.
  - apply dict_get_set_eq.
  - apply promoted_exec_config_not_canary.
Qed.

(** ** Unknown agents *)

Lemma get_agent_config_absent agentId w :
  present (store w !! reg_key_of agentId) = None ->
  get_agent_config agentId w
  = (inr (HTTPException 404 "Agent not found"), after_get (reg_key_of agentId) w).
Proof.
  intros H. unfold get_agent_config, bind, r_get. cbn. now rewrite H.
Qed.

Lemma inject_config_absent agentId config w :
  present (store w !! reg_key_of agentId) = None ->
  inject_config agentId config w
  = (inr (HTTPException 404 "Agent not found"), after_get (reg_key_of agentId) w).
Proof.
  intros H. unfold inject_config, bind, r_get. cbn. now rewrite H.
Qed.

Lemma quiet_refl w : quiet w w.
Proof. repeat split. Qed.

Lemma quiet_after_get k w : quiet w (after_get k w).
Proof. repeat split. Qed.

(** C7. For an [agentId] with no registration in the store, [pause],
    [resume], [restart], [getConfig], [injectConfig] and
    [promoteCanary] all raise 404 "Agent not found"; none of them
    writes the store, publishes on a topic or sends a frame. *)
Theorem unknown_agent_not_found agentId config w :
  store w !! reg_key_of agentId = None ->
  let not_found := HTTPException 404 "Agent not found" in
  (fst (pause_agent agentId w) = inr not_found
   /\ quiet w (snd (pause_agent agentId w))) /\
  (fst (resume_agent agentId w) = inr not_found
   /\ quiet w (snd (resume_agent agentId w))) /\
  (fst (restart_agent agentId w) = inr not_found
   /\ quiet w (snd (restart_agent agentId w))) /\
  (fst (get_agent_config agentId w) = inr not_found
   /\ quiet w (snd (get_agent_config agentId w))) /\
  (fst (inject_config agentId config w) = inr not_found
   /\ quiet w (snd (inject_config agentId config w))) /\
  (fst (promote_canary agentId w) = inr not_found
   /\ quiet w (snd (promote_canary agentId w))).
Proof.
  intros Hreg nf. subst nf.
  assert (Hp : present (store w !! reg_key_of agentId) = None)
    by (rewrite Hreg; reflexivity).
  rewrite pause_agent_lifecycle, resume_agent_lifecycle, restart_agent_lifecycle.
  rewrite !lifecycle_unregistered by assumption.
  rewrite get_agent_config_absent, inject_config_absent, promote_canary_absent
    by assumption.
  cbn. auto 20 using quiet_refl, quiet_after_get.
Qed.

(** ** Frame of the lifecycle handlers *)

(** C8. For a registered agent, [pause] writes ["paused"], [resume]
    writes ["running"] and [restart] writes ["initializing"] under the
    agent's state key, and that is the only change to the store: the
    registration, metrics and last-signal documents of every agent are
    as before. *)
Theorem lifecycle_writes_state_only agentId w :
  is_Some (store w !! reg_key_of agentId) ->
  store (snd (pause_agent agentId w))
  = <[state_key_of agentId := encode "paused"]> (store w) /\
  store (snd (resume_agent agentId w))
  = <[state_key_of agentId := encode "running"]> (store w) /\
  store (snd (restart_agent agentId w))
  = <[state_key_of agentId := encode "initializing"]> (store w) /\
  forall handler, In handler [pause_agent; resume_agent; restart_agent] ->
  forall other,
    store (snd (handler agentId w)) !! reg_key_of other = store w !! reg_key_of other /\
    store (snd (handler agentId w)) !! metrics_key_of other
    = store w !! metrics_key_of other /\
    store (snd (handler agentId w)) !! last_signal_key_of other
    = store w !! last_signal_key_of other.
Proof.
  intros Hreg.
  rewrite pause_agent_lifecycle, resume_agent_lifecycle, restart_agent_lifecycle.
  rewrite !lifecycle_registered by assumption. cbn [snd after_lifecycle store].
  repeat split; try reflexivity.
  all: destruct H as [<-|[<-|[<-|[]]]];
    rewrite ?pause_agent_lifecycle, ?resume_agent_lifecycle, ?restart_agent_lifecycle;
    rewrite lifecycle_registered by assumption; cbn [snd after_lifecycle store];
    apply lookup_insert_ne;
    auto using state_key_not_registration, state_key_not_metrics,
               state_key_not_last_signal.
Qed.

(** ** Events of a status change *)

Lemma on_topic_app topic l l' :
  on_topic topic (l ++ l') = (on_topic topic l ++ on_topic topic l')%list.
Proof. unfold on_topic. now rewrite List.filter_app, map_app. Qed.

Lemma lifecycle_inv requested command state done agentId w r w' :
  lifecycle requested command state done agentId w = (inl r, w') ->
  is_Some (store w !! reg_key_of agentId).
Proof.
  destruct (store w !! reg_key_of agentId) eqn:E; [eauto|].
  rewrite lifecycle_unregistered by assumption. discriminate.
Qed.

Lemma lifecycle_events requested command state done agentId w r w' :
  (forall n m, (n <= m)%nat -> now_ms n <= now_ms m) ->
  lifecycle requested command state done agentId w = (inl r, w') ->
  exists t1 t2,
    now_ms (ticks w) <= t1 /\ now_ms (ticks w) <= t2 /\
    on_topic "agent_events" (published w')
    = (on_topic "agent_events" (published w) ++
       [dumps (JObj [("type", JStr requested); ("agentId", JStr agentId);
                     ("timestamp", JInt t1)])])%list /\
    delivered w'
    = (delivered w ++ frames_to_open (status_changed agentId state t2)
                                      (active_connections w))%list.
Proof.
  intros Hclock H. pose proof (lifecycle_inv _ _ _ _ _ _ _ _ H) as Hreg.
  rewrite lifecycle_registered in H by assumption. injection H as _ <-.
  exists (now_ms (ticks w)), (now_ms (S (ticks w))).
  split; [lia|]. split; [apply Hclock; lia|].
  cbn [after_lifecycle published delivered]. rewrite on_topic_app, send_all_frames.
  split; reflexivity.
Qed.

(** C4, as the code has it.  With a clock that does not go back, a
    successful [pause], [resume] or [restart] publishes exactly one
    event on [agent_events], of type [pause_requested],
    [resume_requested] or [restart_requested]; a successful
    [promote_canary] publishes exactly one, of type [canary_promoted].
    The [agent_status_changed] message with the new status is not
    published on the topic: it is sent once to each open WebSocket
    connection of the process.  Both carry a timestamp that is at
    least the clock at the start of the call. *)
Theorem status_change_events agentId w :
  (forall n m, (n <= m)%nat -> now_ms n <= now_ms m) ->
  (forall handler requested state,
     In (handler, requested, state)
        [(pause_agent, "pause_requested", "paused");
         (resume_agent, "resume_requested", "running");
         (restart_agent, "restart_requested", "initializing")] ->
     forall r w', handler agentId w = (inl r, w') ->
     exists t1 t2,
       now_ms (ticks w) <= t1 /\ now_ms (ticks w) <= t2 /\
       on_topic "agent_events" (published w')
       = (on_topic "agent_events" (published w) ++
          [dumps (JObj [("type", JStr requested); ("agentId", JStr agentId);
                        ("timestamp", JInt t1)])])%list /\
       delivered w'
       = (delivered w ++ frames_to_open (status_changed agentId state t2)
                                         (active_connections w))%list) /\
  (forall r w', promote_canary agentId w = (inl r, w') ->
     exists t1 t2,
       now_ms (ticks w) <= t1 /\ now_ms (ticks w) <= t2 /\
       on_topic "agent_events" (published w')
       = (on_topic "agent_events" (published w) ++
          [dumps (JObj [("type", JStr "canary_promoted"); ("agentId", JStr agentId);
                        ("timestamp", JInt t1); ("newMode", JStr "live")])])%list /\
       delivered w'
       = (delivered w ++ frames_to_open (status_changed agentId "running" t2)
                                         (active_connections w))%list).
Proof.
  intros Hclock. split.
  - intros handler requested state Hin r w' H.
    destruct Hin as [[= <- <- <-]|[[= <- <- <-]|[[= <- <- <-]|[]]]].
    + rewrite pause_agent_lifecycle in H. eapply lifecycle_events; eauto.
    + rewrite resume_agent_lifecycle in H. eapply lifecycle_events; eauto.
    + rewrite restart_agent_lifecycle in H. eapply lifecycle_events; eauto.
  - intros r w' H. pose proof H as Hinv.
    apply promote_canary_inv in Hinv as (b & o & c & e & Hb & Hj & Hc & He & Hs).
    rewrite (promote_canary_success _ _ _ _ _ _ Hb Hj Hc He Hs) in H.
    injection H as _ <-.
    exists (now_ms (ticks w)), (now_ms (S (ticks w))).
    split; [lia|]. split; [apply Hclock; lia|].
    cbn [after_promote published delivered]. rewrite on_topic_app, send_all_frames.
    split; reflexivity.
Qed.

(** ** [inject_config] *)

Lemma inject_config_dict agentId config w b agent_json c :
  present (store w !! reg_key_of agentId) = Some b ->
  loads b = Some (JObj agent_json) ->
  config_dict agent_json = Some c ->
  inject_config agentId config w
  = (inl {| success := true;
            message := "Configuration injected into agent " ++ agentId |},
     after_inject agentId config
       (dict_set "config" (JObj (deep_update c config)) agent_json) w).
Proof.
  intros Hb Hj Hc. unfold inject_config, bind, r_get. cbn.
  rewrite Hb. cbn. rewrite Hj. cbn. unfold dict_has, config_dict in *.
  destruct (dict_get "config" agent_json) as [stored|] eqn:Hs; cbn.
  - destruct stored; try discriminate. injection Hc as ->.
    rewrite Hs. cbn.
    unfold broadcast_websocket_message, after_inject, with_store. cbn.
    destruct (send_all _ _) as [sent disconnected]. cbn.
    rewrite <- app_assoc. reflexivity.
  - injection Hc as <-. rewrite dict_get_set_eq. cbn. rewrite dict_set_set.
    unfold broadcast_websocket_message, after_inject, with_store. cbn.
    destruct (send_all _ _) as [sent disconnected]. cbn.
    rewrite <- app_assoc. reflexivity.
Qed.

#[local] Arguments deep_update_any : simpl never.

Lemma inject_config_empty agentId w b agent_json stored :
  present (store w !! reg_key_of agentId) = Some b ->
  loads b = Some (JObj agent_json) ->
  dict_get "config" agent_json = Some stored ->
  inject_config agentId [] w
  = (inl {| success := true;
            message := "Configuration injected into agent " ++ agentId |},
     after_inject agentId [] agent_json w).
Proof.
  intros Hb Hj Hs. unfold inject_config, bind, r_get. cbn.
  rewrite Hb. cbn. rewrite Hj. cbn. unfold dict_has. rewrite Hs. cbn.
  assert (E : deep_update_any stored [] = ret stored) by (destruct stored; reflexivity).
  rewrite Hs. cbn. rewrite E. cbn. rewrite (dict_set_same _ _ _ Hs).
  unfold broadcast_websocket_message, after_inject, with_store. cbn.
  destruct (send_all _ _) as [sent disconnected]. cbn.
  rewrite <- app_assoc. reflexivity.
Qed.

(** C2. [inject_config] on a registration whose [config] is a
    dictionary (or is missing) and a patch with distinct keys writes
    the registration back with [config] deep-merged: under every key of
    the patch, the merge of the two values when both are dictionaries,
    and the patch value otherwise; every other key as it was.  With
    [{"a": {"b": 1, "c": 2}}] stored, the patch [{"a": {"b": 5}}] gives
    [{"a": {"b": 5, "c": 2}}] and the patch [{"a": 9}] gives
    [{"a": 9}]. *)
Theorem inject_config_deep_merge agentId config w b agent_json c :
  store w !! reg_key_of agentId = Some b ->
  is_empty b = false ->
  loads b = Some (JObj agent_json) ->
  config_dict agent_json = Some c ->
  wf_json (JObj config) = true ->
  (exists r w',
     inject_config agentId config w = (inl r, w') /\
     store w'
     = <[reg_key_of agentId :=
           dumps (JObj (dict_set "config" (JObj (deep_update c config)) agent_json))]>
       (store w)) /\
  (forall k,
     dict_get k (deep_update c config)
     = match dict_get k config with
       | Some v =>
           Some match v, dict_get k c with
                | JObj vk, Some (JObj dk) => JObj (deep_update dk vk)
                | _, _ => v
                end
       | None => dict_get k c
       end) /\
  (c = [("a", JObj [("b", JInt 1); ("c", JInt 2)])] ->
   (config = [("a", JObj [("b", JInt 5)])] ->
    deep_update c config = [("a", JObj [("b", JInt 5); ("c", JInt 2)])]) /\
   (config = [("a", JInt 9)] -> deep_update c config = [("a", JInt 9)])).
Proof.
  intros Hreg Hne Hj Hc Hwf.
  assert (Hb : present (store w !! reg_key_of agentId) = Some b)
    by (rewrite Hreg; apply present_Some; auto).
  split; [|split].
  - eexists _, _. split; [apply (inject_config_dict _ _ _ _ _ _ Hb Hj Hc)|reflexivity].
  - intros k. rewrite deep_update_get by assumption. reflexivity.
  - intros ->. split; intros ->; reflexivity.
Qed.

(** C9. On a registration that has a [config], [inject_config] with
    the empty patch succeeds; the registration it writes back is the
    document that was stored, [config] included; and it publishes the
    [config_update_requested] event on [agent_events] and the empty
    patch on the agent's [inject_config] topic. *)
Theorem inject_config_empty_patch agentId w b agent_json stored :
  store w !! reg_key_of agentId = Some b ->
  is_empty b = false ->
  loads b = Some (JObj agent_json) ->
  dict_get "config" agent_json = Some stored ->
  exists w',
    inject_config agentId [] w
    = (inl {| success := true;
              message := "Configuration injected into agent " ++ agentId |}, w') /\
    store w' = <[reg_key_of agentId := dumps (JObj agent_json)]> (store w) /\
    (exists b', store w' !! reg_key_of agentId = Some b' /\ loads b' = loads b) /\
    published w'
    = (published w ++
       [("agent_events",
         dumps (JObj [("type", JStr "config_update_requested");
                      ("agentId", JStr agentId);
                      ("timestamp", JInt (now_ms (ticks w)));
                      ("config", JObj [])]));
        (("agent:" ++ agentId ++ ":inject_config")%string, dumps (JObj []))])%list.
Proof.
  intros Hreg Hne Hj Hs.
  assert (Hb : present (store w !! reg_key_of agentId) = Some b)
    by (rewrite Hreg; apply present_Some; auto).
  eexists. split; [apply (inject_config_empty _ _ _ _ _ Hb Hj Hs)|].
  cbn [after_inject store published]. split; [reflexivity|]. split; [|reflexivity].
  exists (dumps (JObj agent_json)). rewrite lookup_insert_eq. split; [reflexivity|].
  rewrite Hj. apply loads_dumps. eauto using loads_wf.
Qed.

(** ** Authorization *)

Lemma verify_token_outcome authorization w :
  verify_token authorization w
  = (match split_ws authorization with
     | [scheme; token] =>
         if String.eqb (lower scheme) "bearer" then
           match jwt_decode token with
           | Some payload => inl payload
           | None =>
               inr (HTTPException 401
                      match jwt_error token with
                      | PyJWTError => "Invalid token"
                      | _ => "Invalid authorization header"
                      end)
           end
         else inr (HTTPException 401 "Invalid authorization header")
     | _ => inr (HTTPException 401 "Invalid authorization header")
     end, w).
Proof.
  unfold verify_token, try_except.
  destruct (split_ws authorization) as [|scheme [|token [|? ?]]]; try reflexivity.
  destruct (String.eqb (lower scheme) "bearer"); cbn; [|reflexivity].
  destruct (jwt_decode token); [reflexivity|].
  cbn. destruct (jwt_error token); reflexivity.
Qed.

(** C5, as the code has it.  No mutating operation consults
    [verify_token]: the outcome of a request is the same whatever its
    [Authorization] header, and a request that presents no valid token
    for [pause], [resume] or [restart] of a registered agent succeeds,
    writes the state and publishes. *)
Theorem handle_ignores_authorization authorization op w :
  presents_valid_token authorization w = false ->
  (forall other, handle authorization op w = handle other op w) /\
  (is_Some (store w !! reg_key_of (agent_of op)) ->
   forall state,
     (op = Pause (agent_of op) /\ state = "paused") \/
     (op = Resume (agent_of op) /\ state = "running") \/
     (op = Restart (agent_of op) /\ state = "initializing") ->
     exists r w',
       handle authorization op w = (inl r, w') /\
       store w' !! state_key_of (agent_of op) = Some (encode state) /\
       published w' <> published w).
Proof.
  intros _. split; [reflexivity|].
  intros Hreg state Hop.
  assert (Hpub : forall (l : list (string * bytes)) x y, (l ++ [x; y])%list <> l).
  { intros l x y E. apply (f_equal (@length _)) in E.
    rewrite length_app in E. simpl in E. lia. }
  destruct Hop as [[-> ->]|[[-> ->]|[-> ->]]]; cbn [handle agent_of] in *.
  - rewrite pause_agent_lifecycle, lifecycle_registered by assumption.
    eexists _, _. split; [reflexivity|]. cbn [after_lifecycle store published].
    rewrite lookup_insert_eq. auto.
  - rewrite resume_agent_lifecycle, lifecycle_registered by assumption.
    eexists _, _. split; [reflexivity|]. cbn [after_lifecycle store published].
    rewrite lookup_insert_eq. auto.
  - rewrite restart_agent_lifecycle, lifecycle_registered by assumption.
    eexists _, _. split; [reflexivity|]. cbn [after_lifecycle store published].
    rewrite lookup_insert_eq. auto.
Qed.

(** ** [list_agents] only reads *)

Lemma quiet_trans w1 w2 w3 : quiet w1 w2 -> quiet w2 w3 -> quiet w1 w3.
Proof. unfold quiet. intros (-> & -> & ->) (-> & -> & ->). auto. Qed.

Lemma readonly_ret {A} (a : A) : readonly (ret a).
Proof. intros w. apply quiet_refl. Qed.

Lemma readonly_raise {A} e : readonly (@raise _ A e).
Proof. intros w. apply quiet_refl. Qed.

Lemma readonly_lift {A} (o : option A) e : readonly (lift o e).
Proof. destruct o; [apply readonly_ret|apply readonly_raise]. Qed.

Lemma readonly_bind {A B} (m : M A) (k : A -> M B) :
  readonly m -> (forall a, readonly (k a)) -> readonly (bind m k).
Proof.
  intros Hm Hk w. unfold bind. specialize (Hm w).
  destruct (m w) as [[a|e] w1]; simpl in *; [|exact Hm].
  eapply quiet_trans; [exact Hm|apply Hk].
Qed.

Lemma readonly_try {A} (m : M A) (h : exn -> M A) :
  readonly m -> (forall e, readonly (h e)) -> readonly (try_except m h).
Proof.
  intros Hm Hh w. unfold try_except. specialize (Hm w).
  destruct (m w) as [[a|e] w1]; simpl in *; [exact Hm|].
  eapply quiet_trans; [exact Hm|apply Hh].
Qed.

Lemma readonly_r_get k : readonly (r_get k).
Proof. intros w. repeat split. Qed.

Lemma readonly_now : readonly now.
Proof. intros w. repeat split. Qed.

Lemma readonly_py_in k v : readonly (py_in k v).
Proof. destruct v; first [apply readonly_ret|apply readonly_raise]. Qed.

Lemma readonly_py_getitem v k : readonly (py_getitem v k).
Proof. destruct v; first [apply readonly_lift|apply readonly_raise]. Qed.

Lemma readonly_py_get v k d : readonly (py_get v k d).
Proof. destruct v; first [apply readonly_ret|apply readonly_raise]. Qed.

Lemma readonly_py_slice2 v : readonly (py_slice2 v).
Proof. destruct v; first [apply readonly_ret|apply readonly_raise]. Qed.

Lemma readonly_if {A} (c : bool) (m1 m2 : M A) :
  readonly m1 -> readonly m2 -> readonly (if c then m1 else m2).
Proof. now destruct c. Qed.

Create HintDb readonly.
#[local] Hint Resolve readonly_ret readonly_raise readonly_lift readonly_r_get
  readonly_now readonly_py_in readonly_py_getitem readonly_py_get
  readonly_py_slice2 : readonly.

Ltac readonly_tac :=
  repeat first
    [ progress auto with readonly
    | apply readonly_bind; [|intros ?]
    | apply readonly_if
    | match goal with
      | |- readonly (match ?x with _ => _ end) => destruct x
      end ].

Lemma readonly_has_path v k1 k2 : readonly (has_path v k1 k2).
Proof. unfold has_path. readonly_tac. Qed.

Lemma readonly_in_canary v : readonly (in_canary v).
Proof. unfold in_canary. readonly_tac. Qed.

#[local] Hint Resolve readonly_has_path readonly_in_canary : readonly.

Lemma readonly_agent_panel b : readonly (agent_panel b).
Proof. unfold agent_panel. readonly_tac. Qed.

Lemma readonly_list_step agents k : readonly (list_step agents k).
Proof.
  unfold list_step. apply readonly_try; [|intros; apply readonly_ret].
  apply readonly_bind; [apply readonly_r_get|intros o].
  destruct (present o); [|apply readonly_ret].
  apply readonly_bind; [apply readonly_agent_panel|intros; apply readonly_ret].
Qed.

(** ** What [list_agents] reports for one registration *)

Lemma lift_inl {A} (o : option A) e w a w' :
  lift o e w = (inl a, w') -> o = Some a /\ w' = w.
Proof. destruct o; cbn; intros [= <- <-] || discriminate. auto. Qed.

Lemma py_get_inl v k d w a w' :
  py_get v k d w = (inl a, w') ->
  exists o, v = JObj o /\ a = match dict_get k o with Some x => x | None => d end /\ w' = w.
Proof. destruct v; cbn; try discriminate. intros [= <- <-]. eauto. Qed.

Lemma canary_check o w1 w2 w3 has_exec is_canary :
  has_path (JObj o) "config" "executionConfig" w1 = (inl has_exec, w2) ->
  (if has_exec then
     config <- py_getitem (JObj o) "config" ;;
     exec_config <- py_getitem config "executionConfig" ;;
     in_canary exec_config
   else ret false) w2 = (inl is_canary, w3) ->
  is_canary = canary_flag o.
Proof.
  unfold has_path, canary_flag, exec_config_of, bind. cbn. unfold dict_has.
  destruct (dict_get "config" o) as [config|] eqn:Hc; cbn.
  2:{ intros [= <- <-]. cbn. now intros [= <- _]. }
  destruct config as [| | | | s |xs|c]; cbn; try discriminate.
  - intros [= <- <-]. destruct (is_substring "executionConfig" s); cbn;
      [discriminate|now intros [= <- _]].
  - intros [= <- <-]. destruct (existsb _ xs); cbn;
      [discriminate|now intros [= <- _]].
  - unfold dict_has. destruct (dict_get "executionConfig" c) as [e|] eqn:He; cbn.
    2:{ intros [= <- <-]. cbn. now intros [= <- _]. }
    intros [= <- <-]. cbn.
    destruct e as [| | | | | |e]; try (unfold in_canary; cbn; discriminate).
    rewrite in_canary_dict. now intros [= <- _].
Qed.

Ltac step H :=
  let a := fresh "a" in
  let w := fresh "w" in
  let Hm := fresh "Hm" in
  apply bind_inl in H as (a & w & Hm & H); cbv beta zeta in H.

Lemma agent_panel_inv b w p w' :
  agent_panel b w = (inl p, w') ->
  exists o state,
    loads b = Some (JObj o) /\
    validate_str (registered_id o) = Some (agentId p) /\
    raw_state w (py_str (registered_id o)) = Some state /\
    status p = (if canary_flag o then "canary" else status_of_state state) /\
    actions p = actions_of_status (status p).
Proof.
  intros H. unfold agent_panel in H.
  step H. apply lift_inl in Hm as [Hj ->].
  step H. apply py_get_inl in Hm as (o & -> & -> & ->).
  step H. cbn in Hm. injection Hm as <- <-.
  step H. rename a into state.
  assert (Hstate : raw_state w (py_str (registered_id o)) = Some state).
  { unfold raw_state, state_key_of, registered_id.
    destruct (present _); [apply lift_inl in Hm as [? _]; assumption|].
    unfold ret in Hm. injection Hm as <- _. reflexivity. }
  clear Hm.
  step H. step H. pose proof (canary_check _ _ _ _ _ _ Hm Hm0) as ->. clear Hm Hm0.
  do 13 step H.
  match type of H with
  | context [validate_str ?x] => destruct (validate_str x) as [id|] eqn:Hid; [|discriminate]
  end.
  match type of H with
  | context [validate_opt_str ?x] => destruct (validate_opt_str x); [|discriminate]
  end.
  match type of H with
  | context [validate_float ?x] => destruct (validate_float x); [|discriminate]
  end.
  match type of H with
  | context [validate_str_list ?x] => destruct (validate_str_list x); [|discriminate]
  end.
  unfold ret in H. injection H as <- _. cbn.
  exists o, state. auto.
Qed.

Lemma list_step_cases agents k w :
  exists w',
    quiet w w' /\
    (list_step agents k w = (inl agents, w') \/
     exists b p,
       present (store w !! k) = Some b /\
       agent_panel b (after_get k w) = (inl p, w') /\
       list_step agents k w = (inl (agents ++ [p])%list, w')).
Proof.
  pose proof (readonly_list_step agents k w) as Hq.
  destruct (list_step agents k w) as [r w'] eqn:E. exists w'. split; [exact Hq|].
  revert E. unfold list_step, try_except, bind, r_get. cbn. fold (after_get k w).
  destruct (present (store w !! k)) as [b|]; cbn.
  - destruct (agent_panel b (after_get k w)) as [[p|e] w1] eqn:Hp; cbn.
    + intros [= <- <-]. right. eauto.
    + intros [= <- <-]. left. reflexivity.
  - intros [= <- <-]. left. reflexivity.
Qed.

Lemma raw_state_store w1 w2 a : store w1 = store w2 -> raw_state w1 a = raw_state w2 a.
Proof. unfold raw_state. now intros ->. Qed.

(** Every panel [list_loop] adds comes from one of the keys, whose
    value decoded to the registration the panel is computed from. *)
Lemma list_loop_spec keys agents w :
  exists new w',
    list_loop keys agents w = (inl (agents ++ new)%list, w') /\
    quiet w w' /\
    forall p, In p new ->
      exists k b w1 w2,
        In k keys /\ store w1 = store w /\ store w !! k = Some b /\
        agent_panel b w1 = (inl p, w2).
Proof.
  revert agents w. induction keys as [|k keys IH]; intros agents w.
  - exists [], w. cbn. rewrite app_nil_r. split; [reflexivity|].
    split; [apply quiet_refl|]. intros p [].
  - destruct (list_step_cases agents k w) as (w1 & Hq & Hstep).
    assert (Hs : store w1 = store w) by apply Hq.
    destruct Hstep as [Hstep|(b & p & Hb & Hp & Hstep)].
    + destruct (IH agents w1) as (new & w' & Hloop & Hq' & Hnew).
      exists new, w'. cbn [list_loop]. rewrite (bind_run _ _ _ _ _ Hstep).
      split; [exact Hloop|]. split; [eapply quiet_trans; eauto|].
      intros p Hp. destruct (Hnew p Hp) as (k' & b & wa & wb & Hk & Hst & Hg & Hpan).
      exists k', b, wa, wb. rewrite Hs in Hg.
      repeat split; [right; exact Hk|congruence|exact Hg|exact Hpan].
    + destruct (IH (agents ++ [p])%list w1) as (new & w' & Hloop & Hq' & Hnew).
      exists (p :: new), w'. cbn [list_loop]. rewrite (bind_run _ _ _ _ _ Hstep).
      rewrite <- app_assoc in Hloop. split; [exact Hloop|].
      split; [eapply quiet_trans; eauto|].
      intros p' [<-|Hp'].
      * apply present_Some in Hb as [Hb _].
        exists k, b, (after_get k w), w1. cbn. auto.
      * destruct (Hnew p' Hp') as (k' & b' & wa & wb & Hk & Hst & Hg & Hpan).
        exists k', b', wa, wb. rewrite Hs in Hg.
        repeat split; [right; exact Hk|congruence|exact Hg|exact Hpan].
Qed.

Lemma r_keys_spec pattern w k :
  In k (List.filter (glob pattern) (map fst (map_to_list (store w))))
  <-> glob pattern k = true /\ is_Some (store w !! k).
Proof.
  rewrite List.filter_In, in_map_iff. split.
  - intros [([k' b] & <- & Hin) Hg]. split; [exact Hg|].
    apply list_elem_of_In, elem_of_map_to_list in Hin. cbn. eauto.
  - intros [Hg [b Hb]]. split; [|exact Hg].
    exists (k, b). split; [reflexivity|].
    apply list_elem_of_In, elem_of_map_to_list. exact Hb.
Qed.

(** C1, as the code has it.  [list_agents] always returns, and every
    panel it returns comes from a registration key whose value decodes
    to an object; its [status] and [actions] are a function of that
    registration's execution configuration and of the raw state stored
    for its [agentId]: when the execution configuration signals canary
    ([mode == "canary"] or a true [canaryMode]) the status is
    ["canary"] with actions promote, pause, restart, whatever the raw
    state; otherwise, when the raw state is ["paused"] or ["disabled"]
    the status is ["paused"] with actions resume, restart; otherwise
    the status is ["running"] with actions pause, restart. *)
Theorem list_agents_status w :
  exists agents w',
    list_agents w = (inl agents, w') /\
    forall p, In p agents ->
      exists reg_key b o state,
        glob "agent:*:registration" reg_key = true /\
        store w !! reg_key = Some b /\
        loads b = Some (JObj o) /\
        validate_str (registered_id o) = Some (agentId p) /\
        raw_state w (py_str (registered_id o)) = Some state /\
        (canary_flag o = true ->
         status p = "canary" /\ actions p = ["promote"; "pause"; "restart"]) /\
        (canary_flag o = false -> state = "paused" \/ state = "disabled" ->
         status p = "paused" /\ actions p = ["resume"; "restart"]) /\
        (canary_flag o = false -> state <> "paused" -> state <> "disabled" ->
         status p = "running" /\ actions p = ["pause"; "restart"]).
Proof.
  unfold list_agents, bind, r_keys. cbn.
  destruct (list_loop_spec
              (List.filter (glob "agent:*:registration") (map fst (map_to_list (store w))))
              [] w) as (new & w' & Hloop & _ & Hnew).
  exists new, w'. split; [exact Hloop|].
  intros p Hp. destruct (Hnew p Hp) as (k & b & w1 & w2 & Hk & Hst & Hg & Hpan).
  apply r_keys_spec in Hk as [Hglob _].
  apply agent_panel_inv in Hpan as (o & state & Hj & Hid & Hraw & Hstatus & Hact).
  rewrite (raw_state_store _ _ _ Hst) in Hraw.
  exists k, b, o, state. do 5 (split; [assumption|]).
  rewrite Hact, Hstatus. split; [|split].
  - intros ->. split; reflexivity.
  - intros -> [-> | ->]; split; reflexivity.
  - intros -> H1 H2. unfold status_of_state.
    destruct (String.eqb_spec state "paused"); [contradiction|].
    destruct (String.eqb_spec state "disabled"); [contradiction|].
    split; reflexivity.
Qed.

(** ** A registration without [agentId] *)

Lemma validate_str_list_ok l :
  forallb is_str l = true -> exists ss, validate_str_list l = Some ss.
Proof.
  induction l as [|v l IH]; cbn; [eauto|].
  intros H. apply andb_prop in H as [Hv Hl].
  destruct v; try discriminate. rewrite validate_str_str.
  destruct (IH Hl) as [ss ->]. eauto.
Qed.

Lemma forallb_firstn {A} (f : A -> bool) n l :
  forallb f l = true -> forallb f (firstn n l) = true.
Proof.
  revert n. induction l as [|x l IH]; intros [|n]; cbn; auto.
  intros H. apply andb_prop in H as [-> Hl]. cbn. auto.
Qed.

Lemma state_step (o : option bytes) :
  (forall sb, present o = Some sb -> is_Some (decode sb)) ->
  exists state, forall w,
    match present o with
    | Some b => lift (decode b) UnicodeDecodeError
    | None => ret "unknown"
    end w = (inl state, w).
Proof.
  intros H. destruct (present o) as [sb|]; [|eexists; reflexivity].
  destruct (H sb eq_refl) as [state ->]. eexists. reflexivity.
Qed.

Lemma metrics_step (o : option bytes) :
  (forall mb, present o = Some mb ->
              exists m, loads mb = Some m /\ metrics_listable m = true) ->
  exists m,
    metrics_listable (JObj m) = true /\
    forall w,
      match present o with
      | Some b => lift (loads b) (loads_error b)
      | None => ret (JObj [])
      end w = (inl (JObj m), w).
Proof.
  intros H. destruct (present o) as [mb|]; [|exists []; split; reflexivity].
  destruct (H mb eq_refl) as (m & -> & Hm).
  destruct m; try discriminate. eexists. split; [eassumption|reflexivity].
Qed.

Lemma last_signal_step (o : option bytes) :
  (forall lb, present o = Some lb -> is_Some (py_int lb)) ->
  exists t, forall w,
    match present o with
    | Some b => lift (py_int b) ValueError
    | None => ret 0
    end w = (inl t, w).
Proof.
  intros H. destruct (present o) as [lb|]; [|eexists; reflexivity].
  destruct (H lb eq_refl) as [t ->]. eexists. reflexivity.
Qed.

Lemma canary_step o :
  registration_typed (JObj o) = true ->
  exists has_exec, forall w,
    has_path (JObj o) "config" "executionConfig" w = (inl has_exec, w) /\
    (if has_exec then
       config <- py_getitem (JObj o) "config" ;;
       exec_config <- py_getitem config "executionConfig" ;;
       in_canary exec_config
     else ret false) w = (inl (canary_flag o), w).
Proof.
  unfold registration_typed, has_path, canary_flag, exec_config_of, bind. cbn.
  unfold dict_has.
  destruct (dict_get "config" o) as [config|] eqn:Hc; cbn.
  2:{ intros _. exists false. split; reflexivity. }
  destruct config as [| | | | | |c]; try discriminate. cbn. unfold dict_has.
  destruct (dict_get "executionConfig" c) as [e|] eqn:He; cbn.
  2:{ intros _. exists false. split; reflexivity. }
  destruct e as [| | | | | |e]; try discriminate. intros _.
  exists true. intros w. split; [reflexivity|]. cbn. apply in_canary_dict.
Qed.

Lemma pnl_step m :
  metrics_listable (JObj m) = true ->
  exists has_custom v x,
    validate_float v = Some x /\
    forall w,
      has_path (JObj m) "custom" "pnl_24h" w = (inl has_custom, w) /\
      (if has_custom then
         custom <- py_getitem (JObj m) "custom" ;;
         py_getitem custom "pnl_24h"
       else ret match dict_get "pnl" m with
                | Some x => x
                | None => JFloat (S754_zero false)
                end) w = (inl v, w).
Proof.
  unfold metrics_listable, has_path, bind. cbn. unfold dict_has.
  intros H. apply andb_prop in H as [Hpnl Hcustom].
  assert (Hdef : exists x, validate_float match dict_get "pnl" m with
                                          | Some x => x
                                          | None => JFloat (S754_zero false)
                                          end = Some x).
  { destruct (dict_get "pnl" m) as [[]|]; try discriminate;
      rewrite validate_float_float; eauto. }
  destruct Hdef as [x0 Hx0].
  destruct (dict_get "custom" m) as [custom|] eqn:Hc; cbn.
  2:{ exists false. eexists _, x0. split; [exact Hx0|]. split; reflexivity. }
  destruct custom as [| | | | | |custom]; try discriminate. cbn. unfold dict_has.
  destruct (dict_get "pnl_24h" custom) as [v|] eqn:Hv; cbn.
  2:{ exists false. eexists _, x0. split; [exact Hx0|]. split; reflexivity. }
  destruct v; try discriminate.
  exists true. eexists _, _. split; [apply validate_float_float|].
  split; reflexivity.
Qed.

Lemma pairs_step o (tags : list json) :
  match dict_get "tradingPairs" o with
  | None => true
  | Some (JArr xs) => forallb is_str xs
  | Some _ => false
  end = true ->
  forallb is_str tags = true ->
  exists tags',
    forallb is_str tags' = true /\
    forall w,
      (if dict_has "tradingPairs" o then
         pairs <- py_getitem (JObj o) "tradingPairs" ;;
         pairs <- py_slice2 pairs ;;
         ret (tags ++ pairs)%list
       else ret tags) w = (inl tags', w).
Proof.
  unfold dict_has, bind. cbn.
  destruct (dict_get "tradingPairs" o) as [pairs|]; cbn.
  2:{ intros _ Ht. exists tags. auto. }
  destruct pairs as [| | | | |xs|]; try discriminate. cbn.
  intros Hxs Ht. eexists. split; [|reflexivity].
  rewrite forallb_app, Ht. cbn. now apply (forallb_firstn is_str 2).
Qed.

Lemma type_step o (tags : list json) :
  match dict_get "agentType" o with
  | None | Some (JStr _) => true
  | Some _ => false
  end = true ->
  forallb is_str tags = true ->
  exists tags',
    forallb is_str tags' = true /\
    forall w,
      (if dict_has "agentType" o then
         agentType <- py_getitem (JObj o) "agentType" ;;
         ret (tags ++ [agentType])%list
       else ret tags) w = (inl tags', w).
Proof.
  unfold dict_has, bind. cbn.
  destruct (dict_get "agentType" o) as [t|]; cbn.
  2:{ intros _ Ht. exists tags. auto. }
  destruct t; try discriminate. intros _ Ht.
  eexists. split; [|reflexivity]. rewrite forallb_app, Ht. reflexivity.
Qed.

Lemma name_step o :
  match dict_get "name" o with
  | None | Some JNull | Some (JStr _) => true
  | Some _ => false
  end = true ->
  exists name,
    validate_opt_str match dict_get "name" o with
                     | Some x => x
                     | None => JNull
                     end = Some name.
Proof.
  destruct (dict_get "name" o) as [[]|]; try discriminate; intros _; cbn; eauto.
  rewrite validate_str_str. eauto.
Qed.

Ltac run tac := etransitivity; [apply bind_run; tac|]; cbv beta zeta.

Lemma agent_panel_unknown b o w :
  loads b = Some (JObj o) ->
  dict_get "agentId" o = None ->
  registration_listable o = true ->
  (forall sb, present (store w !! "agent:unknown:state") = Some sb ->
              is_Some (decode sb)) ->
  (forall mb, present (store w !! "agent:unknown:metrics") = Some mb ->
              exists m, loads mb = Some m /\ metrics_listable m = true) ->
  (forall lb, present (store w !! "agent:unknown:last_signal") = Some lb ->
              is_Some (py_int lb)) ->
  exists p,
    agent_panel b w
    = (inl p, after_tick (after_get "agent:unknown:last_signal"
                            (after_get "agent:unknown:metrics"
                               (after_get "agent:unknown:state" w)))) /\
    agentId p = "unknown".
Proof.
  intros Hj Hid Hlist Hstate Hmetrics Hsignal.
  unfold registration_listable in Hlist.
  apply andb_prop in Hlist as [Hlist Htype].
  apply andb_prop in Hlist as [Hlist Hpairs].
  apply andb_prop in Hlist as [Htyped Hname].
  destruct (state_step _ Hstate) as [state Hst].
  destruct (canary_step _ Htyped) as [has_exec Hcan].
  destruct (metrics_step _ Hmetrics) as (m & Hm & Hmet).
  destruct (last_signal_step _ Hsignal) as [t Hsig].
  destruct (pnl_step _ Hm) as (has_custom & v & x & Hx & Hpnl).
  set (status := if canary_flag o then "canary" else status_of_state state).
  set (tags0 := ((if canary_flag o then [JStr "canary"] else [])
                 ++ (if String.eqb status "paused" then [JStr "paused"] else []))%list).
  assert (Ht0 : forallb is_str tags0 = true).
  { subst tags0. destruct (canary_flag o), (String.eqb status "paused"); reflexivity. }
  destruct (pairs_step _ _ Hpairs Ht0) as (tags1 & Ht1 & Hp1).
  destruct (type_step _ _ Htype Ht1) as (tags2 & Ht2 & Hp2).
  destruct (validate_str_list_ok _ Ht2) as [tags Htags].
  destruct (name_step _ Hname) as [name Hnm].
  eexists. split.
  - unfold agent_panel. rewrite Hj.
    run ltac:(reflexivity).
    run ltac:(cbn; rewrite Hid; reflexivity).
    rewrite !py_str_str.
    run ltac:(reflexivity).
    run ltac:(apply Hst).
    run ltac:(apply Hcan).
    run ltac:(apply Hcan).
    run ltac:(reflexivity).
    run ltac:(apply Hmet).
    run ltac:(reflexivity).
    run ltac:(apply Hsig).
    run ltac:(reflexivity).
    run ltac:(apply Hpnl).
    run ltac:(apply Hpnl).
    run ltac:(reflexivity).
    run ltac:(apply Hp1).
    run ltac:(reflexivity).
    run ltac:(apply Hp2).
    run ltac:(reflexivity).
    run ltac:(reflexivity).
    rewrite validate_str_str, Hnm, Hx, Htags. reflexivity.
  - reflexivity.
Qed.

Lemma list_loop_includes (Q : AgentPanelState -> Prop) keys k :
  In k keys ->
  forall agents w,
    (forall agents1 w1, store w1 = store w ->
       exists p w2, list_step agents1 k w1 = (inl (agents1 ++ [p])%list, w2) /\ Q p) ->
    exists agents' w',
      list_loop keys agents w = (inl agents', w') /\
      exists p, In p agents' /\ Q p.
Proof.
  induction keys as [|k0 keys IH]; intros Hin agents w Hk; [destruct Hin|].
  cbn [list_loop]. destruct Hin as [->|Hin].
  - destruct (Hk agents w eq_refl) as (p & w1 & Hstep & Hq).
    rewrite (bind_run _ _ _ _ _ Hstep).
    destruct (list_loop_spec keys (agents ++ [p])%list w1) as (new & w' & -> & _ & _).
    eexists _, _. split; [reflexivity|].
    exists p. split; [|exact Hq]. rewrite !in_app_iff. cbn. auto.
  - destruct (list_step_cases agents k0 w) as (w1 & Hquiet & Hstep).
    assert (Hs : store w1 = store w) by apply Hquiet.
    assert (Hk1 : forall agents1 w2, store w2 = store w1 ->
              exists p w3, list_step agents1 k w2 = (inl (agents1 ++ [p])%list, w3) /\ Q p).
    { intros agents1 w2 E. apply Hk. congruence. }
    destruct Hstep as [Hstep|(b & p & _ & _ & Hstep)];
      rewrite (bind_run _ _ _ _ _ Hstep); apply (IH Hin); exact Hk1.
Qed.

Lemma list_agents_unfold w :
  list_agents w
  = list_loop (List.filter (glob "agent:*:registration") (map fst (map_to_list (store w))))
              [] w.
Proof. reflexivity. Qed.

(** C10. A registration key whose value decodes to an object without
    [agentId], the rest of which has the shape of the data model (and
    so have the metrics, state and last-signal values stored for
    ["unknown"], if any), is not skipped: its iteration reads the
    registration and then [agent:unknown:state],
    [agent:unknown:metrics] and [agent:unknown:last_signal], and
    appends a panel whose [agentId] is ["unknown"]; the list returned
    by [list_agents] contains such a panel. *)
Theorem registration_without_agentId w reg_key b o :
  glob "agent:*:registration" reg_key = true ->
  store w !! reg_key = Some b ->
  is_empty b = false ->
  loads b = Some (JObj o) ->
  dict_get "agentId" o = None ->
  registration_listable o = true ->
  (forall sb, present (store w !! "agent:unknown:state") = Some sb ->
              is_Some (decode sb)) ->
  (forall mb, present (store w !! "agent:unknown:metrics") = Some mb ->
              exists m, loads mb = Some m /\ metrics_listable m = true) ->
  (forall lb, present (store w !! "agent:unknown:last_signal") = Some lb ->
              is_Some (py_int lb)) ->
  (forall agents w1, store w1 = store w ->
     exists p w2,
       list_step agents reg_key w1 = (inl (agents ++ [p])%list, w2) /\
       agentId p = "unknown" /\
       gets w2 = (gets w1 ++ [reg_key; "agent:unknown:state"; "agent:unknown:metrics";
                              "agent:unknown:last_signal"])%list) /\
  (exists agents w',
     list_agents w = (inl agents, w') /\
     exists p, In p agents /\ agentId p = "unknown").
Proof.
  intros Hglob Hreg Hne Hj Hid Hlist Hstate Hmetrics Hsignal.
  assert (Hstep : forall agents w1, store w1 = store w ->
     exists p w2,
       list_step agents reg_key w1 = (inl (agents ++ [p])%list, w2) /\
       agentId p = "unknown" /\
       gets w2 = (gets w1 ++ [reg_key; "agent:unknown:state"; "agent:unknown:metrics";
                              "agent:unknown:last_signal"])%list).
  { intros agents w1 Hs.
    assert (Hb : present (store w1 !! reg_key) = Some b)
      by (rewrite Hs, Hreg; apply present_Some; auto).
    destruct (agent_panel_unknown b o (after_get reg_key w1) Hj Hid Hlist)
      as (p & Hp & Hpid); cbn [after_get store]; try (rewrite Hs; assumption).
    exists p. eexists. split; [|split; [exact Hpid|]].
    - unfold list_step, try_except, bind, r_get. cbn. fold (after_get reg_key w1).
      rewrite Hb. cbn. rewrite Hp. reflexivity.
    - cbn. rewrite <- !app_assoc. reflexivity. }
  split; [exact Hstep|].
  rewrite list_agents_unfold.
  apply (list_loop_includes (fun p => agentId p = "unknown") _ reg_key).
  - apply r_keys_spec. split; [exact Hglob|]. rewrite Hreg. eauto.
  - intros agents1 w1 Hs. destruct (Hstep agents1 w1 Hs) as (p & w2 & H1 & H2 & _).
    eauto.
Qed.

End Properties.

(* ===================================================================== *)
(** * Runs on the reference runtime *)
(* ===================================================================== *)

Section Runs.
#[local] Existing Instance Ref.runtime.

(** A run is determined by its outcome and the world it leaves. *)
Lemma run_fst {A} (m : M A) (w : world) (r : A + exn) :
  fst (m w) = r -> m w = (r, snd (m w)).
Proof. intros <-. apply surjective_pairing. Qed.

Lemma ref_clock_monotone n m : (n <= m)%nat -> now_ms n <= now_ms m.
Proof. cbn. unfold Ref.ref_now_ms. lia. Qed.

(** C1, counterexample: agent [a1] is stored with raw state ["paused"]
    and [executionConfig.mode = "canary"]; [list_agents] reports it as
    ["canary"] with actions promote, pause, restart, not as ["paused"]
    with resume, restart. *)
Lemma paused_canary_listed_as_canary :
  raw_state Ref.w0 "a1" = Some "paused" /\
  match fst (list_agents Ref.w0) with
  | inl (p :: _) =>
      agentId p = "a1" /\ status p = "canary" /\
      actions p = ["promote"; "pause"; "restart"] /\
      status p <> "paused" /\ actions p <> ["resume"; "restart"]
  | _ => False
  end.
Proof. vm_compute. repeat split; discriminate. Qed.

(** C2, on the stored agent [a1]. *)
Lemma inject_config_deep_merge_witness :
  (exists r w',
     inject_config "a1" [("a", JObj [("b", JInt 5)])] Ref.w0 = (inl r, w') /\
     exists o c,
       store w' !! "agent:a1:registration" = Some (Ref.Doc (JObj o)) /\
       dict_get "config" o = Some (JObj c) /\
       dict_get "a" c = Some (JObj [("b", JInt 5); ("c", JInt 2)])).
Proof.
  destruct (inject_config_deep_merge "a1" [("a", JObj [("b", JInt 5)])] Ref.w0
              (Ref.Doc Ref.a1_registration)
              [("agentId", JStr "a1"); ("name", JStr "alpha");
               ("tradingPairs", JArr [JStr "BTC/USD"; JStr "ETH/USD"; JStr "SOL/USD"]);
               ("config", JObj [("executionConfig", JObj [("mode", JStr "canary")]);
                                ("a", JObj [("b", JInt 1); ("c", JInt 2)])])]
              [("executionConfig", JObj [("mode", JStr "canary")]);
               ("a", JObj [("b", JInt 1); ("c", JInt 2)])]
              eq_refl eq_refl eq_refl eq_refl eq_refl)
    as [(r & w' & Hrun & Hstore) _].
  exists r, w'. split; [exact Hrun|].
  rewrite Hstore. eexists _, _. split; [reflexivity|]. split; reflexivity.
Defined.

(** C3 as amended, on the stored canary agent [a1]: the call succeeds
    and the registration that is stored afterwards is live. *)
Lemma promote_canary_outcomes_witness :
  fst (promote_canary "a1" Ref.w0)
  = inl {| success := true; message := "Agent a1 promoted from canary to live" |} /\
  exists o' e',
    store (snd (promote_canary "a1" Ref.w0)) !! reg_key_of "a1" = Some (dumps (JObj o')) /\
    exec_config_of o' = Some (JObj e') /\
    dict_get "mode" e' = Some (JStr "live") /\
    dict_get "canaryMode" e' = Some (JBool false).
Proof.
  pose proof (promote_canary_outcomes "a1" Ref.w0) as H. cbv zeta in H.
  destruct H as (_ & _ & _ & [_ Hok] & Hstored & _).
  assert (Hrun : fst (promote_canary "a1" Ref.w0)
                 = inl {| success := true;
                          message := "Agent a1 promoted from canary to live" |}).
  { apply Hok.
    exists (Ref.Doc Ref.a1_registration),
           [("agentId", JStr "a1"); ("name", JStr "alpha");
            ("tradingPairs", JArr [JStr "BTC/USD"; JStr "ETH/USD"; JStr "SOL/USD"]);
            ("config", JObj [("executionConfig", JObj [("mode", JStr "canary")]);
                             ("a", JObj [("b", JInt 1); ("c", JInt 2)])])],
           [("mode", JStr "canary")].
    repeat split; vm_compute; reflexivity. }
  split; [exact Hrun|].
  destruct (Hstored _ Hrun) as (_ & o' & e' & H1 & _ & H2 & H3 & H4).
  exists o', e'. auto.
Defined.

(** C3, counterexample: the [executionConfig] of agent [a2] has a
    [mode] other than ["canary"] and a [canaryMode] that is not [true]
    but the string ["yes"].  [promote_canary] does not answer "Agent is
    not in canary mode": it promotes the agent. *)
Lemma promote_canary_truthy_canaryMode :
  store Ref.w2 !! reg_key_of "a2" = Some (dumps (JObj Ref.a2_registration)) /\
  exec_config_of Ref.a2_registration = Some (JObj Ref.a2_exec_config) /\
  dict_get "mode" Ref.a2_exec_config <> Some (JStr "canary") /\
  dict_get "canaryMode" Ref.a2_exec_config <> Some (JBool true) /\
  fst (promote_canary "a2" Ref.w2)
  <> inr (HTTPException 400 "Agent is not in canary mode") /\
  fst (promote_canary "a2" Ref.w2)
  = inl {| success := true; message := "Agent a2 promoted from canary to live" |} /\
  store (snd (promote_canary "a2" Ref.w2)) !! reg_key_of "a2"
  = Some (dumps (JObj [("agentId", JStr "a2");
                       ("config",
                        JObj [("executionConfig",
                               JObj [("mode", JStr "live");
                                     ("canaryMode", JBool false)])])])).
Proof.
  repeat split; try (vm_compute; reflexivity);
    intros E; vm_compute in E; discriminate.
Qed.

(** C4, counterexample: a successful [pause] of [a1] puts one event on
    [agent_events], of type [pause_requested]; no
    [agent_status_changed] event is on the topic. *)
Lemma pause_publishes_no_status_change :
  fst (pause_agent "a1" Ref.w0) = inl {| success := true; message := "Agent a1 paused" |} /\
  map event_type (on_topic "agent_events" (published (snd (pause_agent "a1" Ref.w0))))
  = [Some "pause_requested"] /\
  length (List.filter (fun t => bool_decide (t = Some "agent_status_changed"))
            (map event_type
               (on_topic "agent_events" (published (snd (pause_agent "a1" Ref.w0))))))
  <> 1%nat.
Proof. vm_compute. repeat split. discriminate. Qed.

(** C4 as amended, on [a1]: the one frame goes to the open socket. *)
Lemma status_change_events_witness :
  exists t1 t2,
    now_ms 0 <= t1 /\ now_ms 0 <= t2 /\
    on_topic "agent_events" (published (snd (pause_agent "a1" Ref.w0)))
    = [dumps (JObj [("type", JStr "pause_requested"); ("agentId", JStr "a1");
                    ("timestamp", JInt t1)])] /\
    delivered (snd (pause_agent "a1" Ref.w0))
    = [("c1", status_changed "a1" "paused" t2)].
Proof.
  destruct (status_change_events "a1" Ref.w0 ref_clock_monotone) as [H _].
  apply (H pause_agent "pause_requested" "paused" (or_introl eq_refl)
           {| success := true; message := "Agent a1 paused" |}).
  apply run_fst. vm_compute. reflexivity.
Defined.

(** C5, counterexample: a request without [Authorization] header
    resumes the paused agent [a1]: no authorization error, the state
    is rewritten and two messages are published. *)
Lemma resume_without_token :
  presents_valid_token None Ref.w0 = false /\
  fst (handle None (Resume "a1") Ref.w0)
  = inl {| success := true; message := "Agent a1 resumed" |} /\
  store Ref.w0 !! "agent:a1:state" = Some (Ref.Text "paused") /\
  store (snd (handle None (Resume "a1") Ref.w0)) !! "agent:a1:state"
  = Some (Ref.Text "running") /\
  length (published (snd (handle None (Resume "a1") Ref.w0))) = 2%nat.
Proof. vm_compute. repeat split. Qed.

(** C5 as amended, with a header that [verify_token] rejects. *)
Lemma handle_ignores_authorization_witness :
  presents_valid_token (Some "Bearer expired") Ref.w0 = false /\
  exists r w',
    handle (Some "Bearer expired") (Pause "a1") Ref.w0 = (inl r, w') /\
    store w' !! state_key_of "a1" = Some (encode "paused") /\
    published w' <> published Ref.w0.
Proof.
  split; [reflexivity|].
  destruct (handle_ignores_authorization (Some "Bearer expired") (Pause "a1") Ref.w0
              eq_refl) as [_ H].
  apply H; [eexists; reflexivity|]. left. split; reflexivity.
Defined.

(** C6, on [a1]. *)
Lemma promote_canary_twice_witness :
  fst (promote_canary "a1" (snd (promote_canary "a1" Ref.w0)))
  = inr (HTTPException 400 "Agent is not in canary mode").
Proof.
  apply (promote_canary_twice "a1" Ref.w0
           {| success := true; message := "Agent a1 promoted from canary to live" |}
           (snd (promote_canary "a1" Ref.w0))).
  apply run_fst. vm_compute. reflexivity.
Defined.

(** C7, on an identifier that is not registered. *)
Lemma unknown_agent_not_found_witness :
  fst (pause_agent "zz" Ref.w0) = inr (HTTPException 404 "Agent not found") /\
  fst (inject_config "zz" [("a", JInt 9)] Ref.w0)
  = inr (HTTPException 404 "Agent not found") /\
  quiet Ref.w0 (snd (inject_config "zz" [("a", JInt 9)] Ref.w0)).
Proof.
  destruct (unknown_agent_not_found "zz" [("a", JInt 9)] Ref.w0 eq_refl)
    as ([H1 _] & _ & _ & _ & [H5 H5'] & _).
  auto.
Defined.

(** C8, on [a1]. *)
Lemma lifecycle_writes_state_only_witness :
  store (snd (restart_agent "a1" Ref.w0))
  = <[state_key_of "a1" := encode "initializing"]> (store Ref.w0) /\
  store (snd (restart_agent "a1" Ref.w0)) !! reg_key_of "x9"
  = store Ref.w0 !! reg_key_of "x9".
Proof.
  destruct (lifecycle_writes_state_only "a1" Ref.w0 ltac:(eexists; reflexivity))
    as (_ & _ & H3 & Hframe).
  split; [exact H3|].
  apply (Hframe restart_agent ltac:(cbn; auto) "x9").
Defined.

(** C9, on [a1]. *)
Lemma inject_config_empty_patch_witness :
  exists w',
    inject_config "a1" [] Ref.w0
    = (inl {| success := true; message := "Configuration injected into agent a1" |}, w') /\
    store w' !! "agent:a1:registration" = Some (Ref.Doc Ref.a1_registration).
Proof.
  destruct (inject_config_empty_patch "a1" Ref.w0 (Ref.Doc Ref.a1_registration)
              [("agentId", JStr "a1"); ("name", JStr "alpha");
               ("tradingPairs", JArr [JStr "BTC/USD"; JStr "ETH/USD"; JStr "SOL/USD"]);
               ("config", JObj [("executionConfig", JObj [("mode", JStr "canary")]);
                                ("a", JObj [("b", JInt 1); ("c", JInt 2)])])]
              (JObj [("executionConfig", JObj [("mode", JStr "canary")]);
                     ("a", JObj [("b", JInt 1); ("c", JInt 2)])])
              eq_refl eq_refl eq_refl eq_refl)
    as (w' & Hrun & Hstore & _).
  exists w'. split; [exact Hrun|]. rewrite Hstore. reflexivity.
Defined.

(** C10, on the registration stored under [agent:x9:registration]. *)
Lemma registration_without_agentId_witness :
  exists agents w',
    list_agents Ref.w0 = (inl agents, w') /\
    exists p, In p agents /\ agentId p = "unknown".
Proof.
  apply (registration_without_agentId Ref.w0 "agent:x9:registration"
           (Ref.Doc Ref.anon_registration)
           [("name", JStr "nameless"); ("agentType", JStr "arb")]
           eq_refl eq_refl eq_refl eq_refl eq_refl eq_refl).
  - intros sb Hsb. vm_compute in Hsb. injection Hsb as <-.
    eexists. reflexivity.
  - intros mb Hmb. vm_compute in Hmb. injection Hmb as <-.
    eexists. split; reflexivity.
  - intros lb Hlb. vm_compute in Hlb. injection Hlb as <-.
    eexists. vm_compute. reflexivity.
Defined.

End Runs.

(* ===================================================================== *)
(** * Further properties of the controller *)
(* ===================================================================== *)

(** ** Induction on JSON values *)

Lemma json_nested_ind (P : json -> Prop) :
  P JNull ->
  (forall b, P (JBool b)) ->
  (forall n, P (JInt n)) ->
  (forall x, P (JFloat x)) ->
  (forall s, P (JStr s)) ->
  (forall xs, Forall P xs -> P (JArr xs)) ->
  (forall kvs, Forall (fun kv => P (snd kv)) kvs -> P (JObj kvs)) ->
  forall v, P v.
Proof.
  intros HNull HBool HInt HFloat HStr HArr HObj.
  fix IH 1. intros [|b|n|x|s|xs|kvs].
  - exact HNull.
  - apply HBool.
  - apply HInt.
  - apply HFloat.
  - apply HStr.
  - apply HArr.
    induction xs as [|x xs IHxs]; constructor; [apply IH|exact IHxs].
  - apply HObj.
    induction kvs as [|[k x] kvs IHkvs]; constructor; [apply IH|exact IHkvs].
Qed.

(** ** The merge keeps documents well formed, keeps keys, and absorbs
    a repeated patch *)

Lemma wf_json_obj_inv k x rest :
  wf_json (JObj ((k, x) :: rest)) = true ->
  keys_fresh k rest = true /\ wf_json x = true /\ wf_json (JObj rest) = true.
Proof.
  rewrite wf_json_cons. intros H.
  apply andb_prop in H as [H Hrest]. apply andb_prop in H as [Hk Hx]. auto.
Qed.

Lemma merged_value_wf v old :
  wf_json v = true ->
  (forall vk dk, v = JObj vk -> old = Some (JObj dk) ->
                 wf_json (JObj (deep_update dk vk)) = true) ->
  wf_json (merged_value v old) = true.
Proof.
  intros Hv H. unfold merged_value.
  destruct v; auto. destruct old as [[]|]; auto.
Qed.

Lemma deep_update_wf_items (items : dict) :
  Forall (fun kv => wf_json (snd kv) = true ->
                    forall d, wf_json (JObj d) = true ->
                              wf_json (JObj (deep_update_val (snd kv) d)) = true) items ->
  wf_json (JObj items) = true ->
  forall d, wf_json (JObj d) = true -> wf_json (JObj (deep_update d items)) = true.
Proof.
  induction 1 as [|[k v] rest Hv _ IH]; intros Hu d Hd; [exact Hd|].
  apply wf_json_obj_inv in Hu as (_ & Hwv & Hrest).
  rewrite deep_update_cons, deep_update_step_set. apply IH; [exact Hrest|].
  apply wf_dict_set; [exact Hd|]. apply merged_value_wf; [exact Hwv|].
  intros vk dk -> Hold. apply (Hv Hwv dk).
  destruct (dict_get k d) eqn:E; [|discriminate]. injection Hold as ->.
  exact (wf_dict_get _ _ _ Hd E).
Qed.

Lemma deep_update_val_wf u :
  wf_json u = true ->
  forall d, wf_json (JObj d) = true -> wf_json (JObj (deep_update_val u d)) = true.
Proof.
  induction u as [| | | | | |items IH] using json_nested_ind; intros Hu d Hd;
    try exact Hd.
  exact (deep_update_wf_items items IH Hu d Hd).
Qed.

Lemma deep_update_wf d u :
  wf_json (JObj d) = true -> wf_json (JObj u) = true ->
  wf_json (JObj (deep_update d u)) = true.
Proof. intros Hd Hu. exact (deep_update_val_wf (JObj u) Hu d Hd). Qed.

Lemma keys_fresh_in k d k' v : keys_fresh k d = true -> In (k', v) d -> k' <> k.
Proof.
  induction d as [|[k0 v0] d IH]; cbn; [intros _ []|].
  intros H [[= -> ->]|Hin].
  - apply andb_prop in H as [H _]. intros ->. rewrite String.eqb_refl in H. discriminate.
  - apply andb_prop in H as [_ H]. auto.
Qed.

Lemma wf_in_get d k v :
  wf_json (JObj d) = true -> In (k, v) d -> dict_get k d = Some v.
Proof.
  induction d as [|[k0 v0] d IH]; [intros _ []|].
  intros Hd Hin. apply wf_json_obj_inv in Hd as (Hk & _ & Hrest).
  cbn. destruct Hin as [[= -> ->]|Hin].
  - now rewrite String.eqb_refl.
  - pose proof (keys_fresh_in _ _ _ _ Hk Hin) as Hne.
    destruct (String.eqb_spec k k0); [contradiction|auto].
Qed.

(** Items that are already bound as they are in [d] change nothing. *)
Lemma deep_update_absorb d items :
  (forall k v, In (k, v) items ->
     dict_get k d = Some v /\
     forall vk, v = JObj vk -> deep_update vk vk = vk) ->
  deep_update d items = d.
Proof.
  induction items as [|[k v] rest IH]; intros H; [reflexivity|].
  destruct (H k v (or_introl eq_refl)) as [Hget Hself].
  rewrite deep_update_cons, deep_update_step_set, Hget.
  assert (E : merged_value v (Some v) = v).
  { destruct v as [| | | | | |vk]; try reflexivity.
    unfold merged_value. now rewrite (Hself vk eq_refl). }
  rewrite E, (dict_set_same _ _ _ Hget). apply IH.
  intros k' v' Hin. apply H. now right.
Qed.

Lemma deep_update_self_val v :
  wf_json v = true -> forall vk, v = JObj vk -> deep_update vk vk = vk.
Proof.
  induction v as [| | | | | |items IH] using json_nested_ind;
    intros Hv vk [=]. subst vk.
  apply deep_update_absorb. intros k v Hin. split; [exact (wf_in_get _ _ _ Hv Hin)|].
  rewrite List.Forall_forall in IH. apply (IH (k, v) Hin).
  clear IH. induction items as [|[k0 v0] items IHi]; [destruct Hin|].
  apply wf_json_obj_inv in Hv as (_ & Hv0 & Hrest).
  destruct Hin as [[= -> ->]|Hin]; auto.
Qed.

Lemma deep_update_twice_items (items : dict) :
  Forall (fun kv => wf_json (snd kv) = true ->
                    forall d, deep_update_val (snd kv) (deep_update_val (snd kv) d)
                              = deep_update_val (snd kv) d) items ->
  wf_json (JObj items) = true ->
  forall d, deep_update (deep_update d items) items = deep_update d items.
Proof.
  induction 1 as [|[k v] rest Hv _ IH]; intros Hu d; [reflexivity|].
  apply wf_json_obj_inv in Hu as (Hk & Hwv & Hrest). cbn [snd] in Hv.
  rewrite (deep_update_cons d k v rest).
  remember (deep_update_step d k v) as d1 eqn:Hd1.
  remember (deep_update d1 rest) as D eqn:HDdef.
  rewrite (deep_update_cons D k v rest), deep_update_step_set.
  assert (HD : dict_get k D = Some (merged_value v (dict_get k d))).
  { rewrite HDdef, deep_update_get_other by now apply keys_fresh_get.
    rewrite Hd1, deep_update_step_set. apply dict_get_set_eq. }
  rewrite HD.
  assert (E : merged_value v (Some (merged_value v (dict_get k d)))
              = merged_value v (dict_get k d)).
  { destruct v as [| | | | | |vk]; try reflexivity.
    unfold merged_value.
    destruct (dict_get k d) as [[| | | | | |dk]|];
      try (rewrite (deep_update_self_val _ Hwv vk eq_refl); reflexivity).
    f_equal. exact (Hv Hwv dk). }
  rewrite E, (dict_set_same _ _ _ HD), HDdef. apply IH. exact Hrest.
Qed.

Lemma deep_update_val_twice u :
  wf_json u = true ->
  forall d, deep_update_val u (deep_update_val u d) = deep_update_val u d.
Proof.
  induction u as [| | | | | |items IH] using json_nested_ind; intros Hu d;
    try reflexivity.
  exact (deep_update_twice_items items IH Hu d).
Qed.

Lemma dict_has_set_other k k' v d :
  dict_has k d = true -> dict_has k (dict_set k' v d) = true.
Proof.
  unfold dict_has. destruct (String.eqb_spec k' k) as [->|Hne].
  - now rewrite dict_get_set_eq.
  - now rewrite dict_get_set_ne.
Qed.

Lemma deep_update_keeps_keys d u k :
  dict_has k d = true -> dict_has k (deep_update d u) = true.
Proof.
  revert d. induction u as [|[k0 v0] u IH]; intros d H; [exact H|].
  rewrite deep_update_cons, deep_update_step_set. apply IH.
  now apply dict_has_set_other.
Qed.

(** ** Keys name their agent *)

Lemma string_length_app (a s : string) :
  String.length (a ++ s) = (String.length a + String.length s)%nat.
Proof.
  induction a as [|c a IH]; [reflexivity|].
  change (String c a ++ s) with (String c (a ++ s)). simpl. now rewrite IH.
Qed.

Lemma string_app_inv_tail (a b s : string) : a ++ s = b ++ s -> a = b.
Proof.
  revert b. induction a as [|c a IH]; intros [|c' b] H.
  - reflexivity.
  - apply (f_equal String.length) in H.
    rewrite !string_length_app in H. simpl in H. lia.
  - apply (f_equal String.length) in H.
    rewrite !string_length_app in H. simpl in H. lia.
  - change (String c (a ++ s) = String c' (b ++ s)) in H.
    injection H as -> H. f_equal. auto.
Qed.

Lemma state_key_of_inj a b : state_key_of a = state_key_of b -> a = b.
Proof.
  unfold state_key_of. intros H. simpl in H.
  repeat (injection H as H). change (a ++ ":state" = b ++ ":state") in H.
  exact (string_app_inv_tail _ _ _ H).
Qed.

(** ** Splitting an [Authorization] header *)

Lemma string_app_empty (s : string) : s ++ "" = s.
Proof.
  induction s as [|c s IH]; [reflexivity|].
  change (String c s ++ "") with (String c (s ++ "")). now rewrite IH.
Qed.

Lemma split_ws_from_word cur word rest :
  no_space word = true ->
  split_ws_from cur (word ++ rest)
  = split_ws_from (rev (list_ascii_of_string word) ++ cur)%list rest.
Proof.
  revert cur. induction word as [|c word IH]; intros cur H; [reflexivity|].
  simpl in H. apply andb_prop in H as [Hc Hw].
  change (String c word ++ rest) with (String c (word ++ rest)).
  simpl split_ws_from. apply negb_true_iff in Hc. rewrite Hc.
  rewrite (IH (c :: cur) Hw). simpl. now rewrite <- app_assoc.
Qed.

Lemma flush_word word :
  word <> "" ->
  match rev (list_ascii_of_string word) with
  | [] => []
  | _ => [string_of_list_ascii (rev (rev (list_ascii_of_string word)))]
  end = [word].
Proof.
  intros Hne. rewrite rev_involutive, string_of_list_ascii_of_string.
  destruct (rev (list_ascii_of_string word)) eqn:E; [|reflexivity].
  apply (f_equal (@rev _)) in E. rewrite rev_involutive in E. simpl in E.
  destruct word; [contradiction|discriminate].
Qed.

Lemma split_ws_two scheme token :
  scheme <> "" -> token <> "" ->
  no_space scheme = true -> no_space token = true ->
  split_ws (scheme ++ " " ++ token) = [scheme; token].
Proof.
  intros Hs Ht Hns Hnt. unfold split_ws.
  rewrite (split_ws_from_word [] scheme _ Hns), app_nil_r.
  change (" " ++ token) with (String " "%char token).
  simpl split_ws_from. change (is_space " ") with true. cbv iota.
  rewrite (flush_word scheme Hs).
  rewrite <- (string_app_empty token) at 1.
  rewrite (split_ws_from_word [] token "" Hnt), app_nil_r.
  simpl split_ws_from. rewrite (flush_word token Ht). reflexivity.
Qed.

(** ** The registration key pattern *)

Lemma glob_star p s :
  glob (String "*" p) s
  = glob p s || match s with
                | EmptyString => false
                | String _ s' => glob (String "*" p) s'
                end.
Proof. destruct s; reflexivity. Qed.

Lemma glob_literal p s : literal p = true -> (glob p s = true <-> s = p).
Proof.
  revert s. induction p as [|c p IH]; intros s Hl.
  - destruct s; simpl; split; congruence.
  - simpl in Hl. apply andb_prop in Hl as [Hc Hp]. apply negb_true_iff in Hc.
    simpl. rewrite Hc. destruct s as [|c' s]; [split; discriminate|].
    rewrite andb_true_iff, (IH s Hp). split.
    + intros [E ->]. apply Ascii.eqb_eq in E. now subst.
    + intros [= -> ->]. split; [apply Ascii.eqb_refl|reflexivity].
Qed.

Lemma glob_star_literal p s :
  literal p = true ->
  (glob (String "*" p) s = true <-> exists a, s = a ++ p).
Proof.
  intros Hl. induction s as [|c s IH].
  - rewrite glob_star, orb_false_r, (glob_literal p "" Hl). split.
    + intros <-. now exists "".
    + intros [a E]. destruct a; [exact E|discriminate].
  - rewrite glob_star, orb_true_iff, (glob_literal p _ Hl), IH. split.
    + intros [->|[a ->]]; [now exists ""|now exists (String c a)].
    + intros [[|c' a] E]; [left; exact E|].
      change (String c s = String c' (a ++ p)) in E. injection E as -> ->. eauto.
Qed.

Lemma glob_prefix pre p s :
  literal pre = true ->
  (glob (pre ++ p) s = true <-> exists t, s = pre ++ t /\ glob p t = true).
Proof.
  revert s. induction pre as [|c pre IH]; intros s Hl.
  - split; [intros H; now exists s|intros (t & -> & H); exact H].
  - simpl in Hl. apply andb_prop in Hl as [Hc Hp]. apply negb_true_iff in Hc.
    change (String c pre ++ p) with (String c (pre ++ p)).
    simpl glob. rewrite Hc. destruct s as [|c' s].
    + split; [discriminate|intros (t & [=] & _)].
    + rewrite andb_true_iff, (IH s Hp). split.
      * intros [E (t & -> & H)]. apply Ascii.eqb_eq in E. subst. now exists t.
      * intros (t & E & H).
        change (String c' s = String c (pre ++ t)) in E. injection E as -> ->.
        split; [apply Ascii.eqb_refl|eauto].
Qed.

Lemma registration_pattern k :
  glob "agent:*:registration" k = true <-> exists agentId, k = reg_key_of agentId.
Proof.
  unfold reg_key_of.
  change "agent:*:registration" with ("agent:" ++ String "*" ":registration").
  rewrite (glob_prefix "agent:" _ k eq_refl). split.
  - intros (t & -> & H).
    apply (glob_star_literal ":registration" t eq_refl) in H as [agentId ->].
    now exists agentId.
  - intros [agentId ->]. exists (agentId ++ ":registration"). split; [reflexivity|].
    apply (glob_star_literal ":registration" _ eq_refl). eauto.
Qed.

(** ** [dict.update] *)

Lemma dict_update_nil d : dict_update d [] = d.
Proof. reflexivity. Qed.

Lemma dict_update_cons d k v u :
  dict_update d ((k, v) :: u) = dict_update (dict_set k v d) u.
Proof. reflexivity. Qed.

Lemma dict_update_get_other d u k :
  dict_get k u = None -> dict_get k (dict_update d u) = dict_get k d.
Proof.
  revert d. induction u as [|[k0 v0] u IH]; intros d; [reflexivity|].
  rewrite dict_update_cons. intros H. simpl in H.
  destruct (String.eqb_spec k k0) as [->|Hne]; [discriminate|].
  rewrite IH by assumption. apply dict_get_set_ne. congruence.
Qed.

Lemma dict_update_get d u k :
  wf_json (JObj u) = true ->
  dict_get k (dict_update d u)
  = match dict_get k u with
    | Some v => Some v
    | None => dict_get k d
    end.
Proof.
  revert d. induction u as [|[k0 v0] u IH]; intros d Hu; [reflexivity|].
  apply wf_json_obj_inv in Hu as (Hfresh & _ & Hrest).
  rewrite dict_update_cons.
  change (dict_get k ((k0, v0) :: u))
    with (if String.eqb k k0 then Some v0 else dict_get k u).
  destruct (String.eqb_spec k k0) as [->|Hne].
  - rewrite dict_update_get_other by now apply keys_fresh_get.
    apply dict_get_set_eq.
  - rewrite IH by assumption. destruct (dict_get k u); [reflexivity|].
    apply dict_get_set_ne. congruence.
Qed.

Lemma dict_update_wf d u :
  wf_json (JObj d) = true -> wf_json (JObj u) = true ->
  wf_json (JObj (dict_update d u)) = true.
Proof.
  revert d. induction u as [|[k v] u IH]; intros d Hd Hu; [exact Hd|].
  apply wf_json_obj_inv in Hu as (_ & Hv & Hrest).
  rewrite dict_update_cons. apply IH; [|exact Hrest]. now apply wf_dict_set.
Qed.

(** ** The connection registry *)

Lemma send_all_disconnected frame conns :
  snd (send_all frame conns)
  = map fst (List.filter (fun c => negb (ws_open (snd c))) conns).
Proof.
  induction conns as [|[c ws] conns IH]; [reflexivity|].
  simpl send_all. destruct (send_all frame conns) as [sent disc]. simpl in IH.
  simpl. destruct (ws_open ws); simpl; [exact IH|now rewrite IH].
Qed.

Lemma pop_all_filter ids conns :
  fold_left (fun cs c => pop_connection c cs) ids conns
  = List.filter (fun c => negb (existsb (String.eqb (fst c)) ids)) conns.
Proof.
  revert conns. induction ids as [|i ids IH]; intros conns; simpl.
  - induction conns as [|c conns IHc]; simpl; [reflexivity|now rewrite <- IHc].
  - rewrite IH. unfold pop_connection.
    induction conns as [|c conns IHc]; simpl; [reflexivity|].
    destruct (String.eqb (fst c) i); simpl; [exact IHc|].
    destruct (existsb (String.eqb (fst c)) ids); simpl; [exact IHc|now rewrite IHc].
Qed.

Lemma distinct_ids_same (conns : list (string * WebSocket)) c c' :
  NoDup (map fst conns) -> In c conns -> In c' conns -> fst c = fst c' -> c = c'.
Proof.
  induction conns as [|c0 conns IH]; [intros _ []|].
  simpl. intros Hnd. inversion Hnd as [|? ? Hnotin Hnd']; subst.
  intros [->|Hc] [->|Hc'] E; auto.
  - exfalso. apply Hnotin, list_elem_of_In. rewrite E. now apply in_map.
  - exfalso. apply Hnotin, list_elem_of_In. rewrite <- E. now apply in_map.
Qed.

Lemma prune_is_filter_open frame conns :
  NoDup (map fst conns) ->
  fold_left (fun cs c => pop_connection c cs) (snd (send_all frame conns)) conns
  = List.filter (fun c => ws_open (snd c)) conns.
Proof.
  intros Hnd. rewrite pop_all_filter, send_all_disconnected.
  apply List.filter_ext_in. intros c Hc.
  destruct (ws_open (snd c)) eqn:Hopen.
  - apply negb_true_iff. apply not_true_is_false. intros Hex.
    apply existsb_exists in Hex as (i & Hi & E).
    apply in_map_iff in Hi as (c' & <- & Hc').
    apply List.filter_In in Hc' as [Hc' Hdead].
    apply String.eqb_eq in E.
    apply negb_true_iff in Hdead.
    rewrite <- (distinct_ids_same conns c c' Hnd Hc Hc' E) in Hdead. congruence.
  - apply negb_false_iff. apply existsb_exists. exists (fst c).
    split; [|apply String.eqb_refl].
    apply in_map. apply List.filter_In. split; [exact Hc|]. now rewrite Hopen.
Qed.

Lemma filter_open_twice (conns : list (string * WebSocket)) :
  List.filter (fun c => ws_open (snd c)) (List.filter (fun c => ws_open (snd c)) conns)
  = List.filter (fun c => ws_open (snd c)) conns.
Proof.
  induction conns as [|c conns IH]; simpl; [reflexivity|].
  destruct (ws_open (snd c)) eqn:E; simpl; [rewrite E, IH|]; auto.
Qed.

Lemma filter_open_distinct (conns : list (string * WebSocket)) :
  NoDup (map fst conns) ->
  NoDup (map fst (List.filter (fun c => ws_open (snd c)) conns)).
Proof.
  induction conns as [|c conns IH]; simpl; [auto|].
  intros Hnd. inversion Hnd as [|? ? Hnotin Hnd']; subst.
  destruct (ws_open (snd c)); simpl; auto.
  constructor; auto. intros Hin. apply Hnotin, list_elem_of_In.
  apply list_elem_of_In, in_map_iff in Hin as (c' & E & Hc').
  apply List.filter_In in Hc' as [Hc' _].
  rewrite <- E. now apply in_map.
Qed.

Section MoreProperties.
Context `{RT : Runtime}.

Ltac run_with tac := etransitivity; [apply bind_run; tac|]; cbv beta zeta.

(** ** [inject_config], continued *)

Lemma inject_config_result_wf o c config :
  wf_json (JObj o) = true ->
  config_dict o = Some c ->
  wf_json (JObj config) = true ->
  wf_json (JObj (dict_set "config" (JObj (deep_update c config)) o)) = true.
Proof.
  intros Ho Hc Hu. apply wf_dict_set; [exact Ho|].
  apply deep_update_wf; [|exact Hu].
  unfold config_dict in Hc. destruct (dict_get "config" o) as [[]|] eqn:E;
    try discriminate; injection Hc as <-; [|reflexivity].
  exact (wf_dict_get _ _ _ Ho E).
Qed.

Lemma config_dict_set o c : config_dict (dict_set "config" (JObj c) o) = Some c.
Proof. unfold config_dict. now rewrite dict_get_set_eq. Qed.

(** X1. Sending the same patch again is harmless: on a registration
    whose [config] is a dictionary (or missing) and a patch with
    distinct keys, a second [inject_config] with the same patch succeeds
    and leaves the store as the first one left it. *)
Theorem inject_config_same_patch_twice agentId config w b agent_json c :
  store w !! reg_key_of agentId = Some b ->
  is_empty b = false ->
  loads b = Some (JObj agent_json) ->
  config_dict agent_json = Some c ->
  wf_json (JObj config) = true ->
  exists r w1 w2,
    inject_config agentId config w = (inl r, w1) /\
    inject_config agentId config w1 = (inl r, w2) /\
    store w2 = store w1.
Proof.
  intros Hreg Hne Hj Hc Hu.
  assert (Hb : present (store w !! reg_key_of agentId) = Some b)
    by (rewrite Hreg; apply present_Some; auto).
  pose proof (loads_wf _ _ Hj) as Ho.
  pose proof (inject_config_result_wf _ _ _ Ho Hc Hu) as Hwf.
  eexists _, _, _. split; [apply (inject_config_dict _ _ _ _ _ _ Hb Hj Hc)|].
  split.
  - apply (inject_config_dict agentId config _
             (dumps (JObj (dict_set "config" (JObj (deep_update c config)) agent_json)))
             (dict_set "config" (JObj (deep_update c config)) agent_json)
             (deep_update c config)).
    + cbn [after_inject store]. rewrite lookup_insert_eq. apply present_dumps.
    + apply loads_dumps, Hwf.
    + apply config_dict_set.
  - cbn [after_inject store].
    change (deep_update (deep_update c config) config)
      with (deep_update_val (JObj config) (deep_update_val (JObj config) c)).
    rewrite (deep_update_val_twice (JObj config) Hu c).
    change (deep_update_val (JObj config) c) with (deep_update c config).
    rewrite dict_set_set. apply insert_insert_eq.
Qed.

(** X2. The merge never removes anything: after a successful
    [inject_config] every field the registration had, and every key
    its [config] had, is still there. *)
Theorem inject_config_keeps_keys agentId config w b agent_json c :
  store w !! reg_key_of agentId = Some b ->
  is_empty b = false ->
  loads b = Some (JObj agent_json) ->
  config_dict agent_json = Some c ->
  exists r w1 agent_json' c',
    inject_config agentId config w = (inl r, w1) /\
    store w1 !! reg_key_of agentId = Some (dumps (JObj agent_json')) /\
    config_dict agent_json' = Some c' /\
    (forall k, dict_has k agent_json = true -> dict_has k agent_json' = true) /\
    (forall k, dict_has k c = true -> dict_has k c' = true).
Proof.
  intros Hreg Hne Hj Hc.
  assert (Hb : present (store w !! reg_key_of agentId) = Some b)
    by (rewrite Hreg; apply present_Some; auto).
  eexists _, _, _, _. split; [apply (inject_config_dict _ _ _ _ _ _ Hb Hj Hc)|].
  cbn [after_inject store]. rewrite lookup_insert_eq.
  split; [reflexivity|]. split; [apply config_dict_set|]. split.
  - intros k Hk. now apply dict_has_set_other.
  - intros k Hk. now apply deep_update_keeps_keys.
Qed.

Lemma get_agent_config_present agentId w b agent_json :
  present (store w !! reg_key_of agentId) = Some b ->
  loads b = Some (JObj agent_json) ->
  get_agent_config agentId w
  = (inl (JObj [("agentId", JStr agentId);
                ("config", match dict_get "config" agent_json with
                           | Some config => config
                           | None => JObj []
                           end)]),
     after_get (reg_key_of agentId) w).
Proof.
  intros Hb Hj. unfold get_agent_config, bind, r_get. cbn.
  rewrite Hb. cbn. rewrite Hj. reflexivity.
Qed.

(** X3. What was injected is what is read back: after a successful
    [inject_config], [get_agent_config] returns the merged
    configuration. *)
Theorem get_agent_config_after_inject agentId config w b agent_json c :
  store w !! reg_key_of agentId = Some b ->
  is_empty b = false ->
  loads b = Some (JObj agent_json) ->
  config_dict agent_json = Some c ->
  wf_json (JObj config) = true ->
  exists r w1,
    inject_config agentId config w = (inl r, w1) /\
    fst (get_agent_config agentId w1)
    = inl (JObj [("agentId", JStr agentId); ("config", JObj (deep_update c config))]).
Proof.
  intros Hreg Hne Hj Hc Hu.
  assert (Hb : present (store w !! reg_key_of agentId) = Some b)
    by (rewrite Hreg; apply present_Some; auto).
  pose proof (inject_config_result_wf _ _ _ (loads_wf _ _ Hj) Hc Hu) as Hwf.
  eexists _, _. split; [apply (inject_config_dict _ _ _ _ _ _ Hb Hj Hc)|].
  erewrite get_agent_config_present.
  - cbn [fst]. rewrite dict_get_set_eq. reflexivity.
  - cbn [after_inject store]. rewrite lookup_insert_eq. apply present_dumps.
  - apply loads_dumps, Hwf.
Qed.

Lemma readonly_get_agent_config agentId : readonly (get_agent_config agentId).
Proof.
  unfold get_agent_config. apply readonly_bind; [apply readonly_r_get|intros o].
  destruct (present o); [|apply readonly_raise].
  apply readonly_bind; [apply readonly_lift|intros j].
  apply readonly_bind; [apply readonly_py_get|intros; apply readonly_ret].
Qed.

(** X4. [get_agent_config] only reads, whatever its outcome.  On a
    stored, non-empty registration value it returns the [config] of
    the decoded object as it is, or the empty dictionary when the
    object has none.  A value that [json.loads] does not decode makes
    the call raise what [json.loads] raised ([JSONDecodeError] on a
    text that is not JSON, [UnicodeDecodeError] on bytes that are not
    UTF-8, and so on), and a document that is not an object raises
    [AttributeError]: no failure on a stored value is an
    [HTTPException], so none is the 404 of an unknown agent. *)
Theorem get_agent_config_reads agentId w :
  quiet w (snd (get_agent_config agentId w)) /\
  forall b,
    store w !! reg_key_of agentId = Some b ->
    is_empty b = false ->
    fst (get_agent_config agentId w)
    = match loads b with
      | None => inr (loads_error b)
      | Some (JObj agent_json) =>
          inl (JObj [("agentId", JStr agentId);
                     ("config", match dict_get "config" agent_json with
                                | Some config => config
                                | None => JObj []
                                end)])
      | Some _ => inr AttributeError
      end /\
    forall status_code detail,
      fst (get_agent_config agentId w) <> inr (HTTPException status_code detail).
Proof.
  split; [apply readonly_get_agent_config|].
  intros b Hreg Hne.
  assert (Hb : present (store w !! reg_key_of agentId) = Some b)
    by (rewrite Hreg; apply present_Some; auto).
  unfold get_agent_config, bind, r_get. cbn. rewrite Hb. cbn.
  destruct (loads b) as [[]|]; (split; [reflexivity|]);
    intros status_code detail; cbn; try discriminate.
  intros E. injection E as E. now apply loads_error_builtin in E.
Qed.

(** ** [promote_canary], continued *)

(** X5. A promotion touches two settings and nothing else: every
    other field of the registration, every other key of its [config]
    and every other key of its [executionConfig] is written back as it
    was, and the command sent to the agent carries exactly the
    execution configuration that was stored. *)
Theorem promote_canary_changes_two_settings agentId w r w' :
  promote_canary agentId w = (inl r, w') ->
  exists o c e o' c' e',
    (exists b, store w !! reg_key_of agentId = Some b /\ loads b = Some (JObj o)) /\
    dict_get "config" o = Some (JObj c) /\
    dict_get "executionConfig" c = Some (JObj e) /\
    store w' !! reg_key_of agentId = Some (dumps (JObj o')) /\
    dict_get "config" o' = Some (JObj c') /\
    dict_get "executionConfig" c' = Some (JObj e') /\
    (forall k, k <> "config" -> dict_get k o' = dict_get k o) /\
    (forall k, k <> "executionConfig" -> dict_get k c' = dict_get k c) /\
    (forall k, k <> "mode" -> k <> "canaryMode" -> dict_get k e' = dict_get k e) /\
    on_topic ("agent:" ++ agentId ++ ":inject_config") (published w')
    = (on_topic ("agent:" ++ agentId ++ ":inject_config") (published w)
       ++ [dumps (JObj [("executionConfig", JObj e')])])%list.
Proof.
  intros H. pose proof H as Hinv.
  apply promote_canary_inv in Hinv as (b & o & c & e & Hb & Hj & Hc & He & Hs).
  rewrite (promote_canary_success _ _ _ _ _ _ Hb Hj Hc He Hs) in H.
  injection H as _ <-.
  exists o, c, e, (promoted_registration o c e),
    (dict_set "executionConfig" (JObj (promoted_exec_config e)) c),
    (promoted_exec_config e).
  apply present_Some in Hb as [Hb _].
  split; [eauto|]. split; [exact Hc|]. split; [exact He|].
  cbn [after_promote store published]. rewrite lookup_insert_eq.
  split; [reflexivity|].
  split; [apply dict_get_set_eq|]. split; [apply dict_get_set_eq|].
  split; [intros k Hk; apply dict_get_set_ne; congruence|].
  split; [intros k Hk; apply dict_get_set_ne; congruence|].
  split.
  - intros k H1 H2. unfold promoted_exec_config.
    rewrite !dict_get_set_ne by congruence. reflexivity.
  - rewrite on_topic_app. f_equal. unfold on_topic. cbn [List.filter fst].
    rewrite String.eqb_refl.
    replace (String.eqb "agent_events" ("agent:" ++ agentId ++ ":inject_config"))
      with false by reflexivity.
    reflexivity.
Qed.

Lemma promote_canary_failure_quiet agentId w e w' :
  promote_canary agentId w = (inr e, w') -> quiet w w'.
Proof.
  unfold promote_canary, bind, r_get. cbn.
  destruct (present (store w !! reg_key_of agentId)) as [b|];
    [|intros [= <- <-]; repeat split].
  cbn. destruct (loads b) as [agent_json|]; [|intros [= <- <-]; repeat split].
  cbn. destruct agent_json as [| | | | s |xs|o]; cbn;
    try (intros [= <- <-]; repeat split).
  - destruct (is_substring "config" s); cbn; intros [= <- <-]; repeat split.
  - destruct (existsb _ xs); cbn; intros [= <- <-]; repeat split.
  - unfold dict_has.
    destruct (dict_get "config" o) as [config|]; cbn;
      [|intros [= <- <-]; repeat split].
    destruct config as [| | | | s |xs|c]; cbn;
      try (intros [= <- <-]; repeat split).
    + destruct (is_substring "executionConfig" s); cbn; intros [= <- <-]; repeat split.
    + destruct (existsb _ xs); cbn; intros [= <- <-]; repeat split.
    + unfold dict_has.
      destruct (dict_get "executionConfig" c) as [ec|]; cbn;
        [|intros [= <- <-]; repeat split].
      destruct ec as [| | | | | |ec];
        try (unfold in_canary; cbn; intros [= <- <-]; repeat split).
      rewrite in_canary_dict. destruct (signals_canary ec); cbn.
      * unfold broadcast_websocket_message. cbn.
        destruct (send_all _ _). discriminate.
      * intros [= <- <-]. repeat split.
Qed.

(** X6. [promote_canary] checks everything before it acts: whenever
    it raises, for whatever reason, it has written nothing to the
    store, published nothing and sent no frame. *)
Theorem promote_canary_fails_without_effect agentId w e w' :
  promote_canary agentId w = (inr e, w') -> quiet w w'.
Proof. apply promote_canary_failure_quiet. Qed.


(** ** [inject_config] is not all-or-nothing *)

(** The event and the command [inject_config] publishes for a stored
    registration. *)
Lemma inject_config_effects agentId config w b :
  present (store w !! reg_key_of agentId) = Some b ->
  let w' := snd (inject_config agentId config w) in
  published w'
  = (published w ++
     [("agent_events",
       dumps (JObj [("type", JStr "config_update_requested");
                    ("agentId", JStr agentId);
                    ("timestamp", JInt (now_ms (ticks w)));
                    ("config", JObj config)]));
      (("agent:" ++ agentId ++ ":inject_config")%string, dumps (JObj config))])%list /\
  (forall e, fst (inject_config agentId config w) = inr e ->
             store w' = store w /\ delivered w' = delivered w /\
             ((loads b = None /\ e = loads_error b) \/ e = TypeError)).
Proof.
  intros Hb. unfold inject_config, bind, r_get. cbn. rewrite Hb. cbn.
  rewrite <- app_assoc. cbn [app].
  destruct (loads b) as [agent_json|]; cbn;
    [|split; [reflexivity|]; intros e [= <-]; auto].
  destruct agent_json as [| | | | s |xs|o]; cbn;
    try (split; [reflexivity|]; intros e [= <-]; auto).
  - destruct (is_substring "config" s); cbn;
      (split; [reflexivity|]; intros e [= <-]; auto).
  - destruct (existsb _ xs); cbn;
      (split; [reflexivity|]; intros e [= <-]; auto).
  - unfold dict_has.
    destruct (dict_get "config" o) as [stored|] eqn:Hs; cbn.
    + rewrite Hs. cbn. unfold deep_update_any.
      destruct stored, config; cbn;
        try (split; [reflexivity|]; intros e [= <-]; auto);
        unfold broadcast_websocket_message; cbn; destruct (send_all _ _); cbn;
        (split; [reflexivity|discriminate]).
    + rewrite dict_get_set_eq. cbn.
      unfold broadcast_websocket_message; cbn; destruct (send_all _ _); cbn.
      split; [reflexivity|discriminate].
Qed.

(** X7. [inject_config] publishes before it parses: for a stored,
    non-empty registration value the [config_update_requested] event
    and the command to the agent go out in every outcome, also when
    the call then raises.  When it raises, the store is left as it was,
    no frame is sent, and what is raised is either what [json.loads]
    raised on a value it does not decode, or the [TypeError] of a
    document that is not an object or of a stored [config] that cannot
    take the patch; a value that does not decode always ends so. *)
Theorem inject_config_publishes_before_failing agentId config w b :
  store w !! reg_key_of agentId = Some b ->
  is_empty b = false ->
  let res := inject_config agentId config w in
  published (snd res)
  = (published w ++
     [("agent_events",
       dumps (JObj [("type", JStr "config_update_requested");
                    ("agentId", JStr agentId);
                    ("timestamp", JInt (now_ms (ticks w)));
                    ("config", JObj config)]));
      (("agent:" ++ agentId ++ ":inject_config")%string, dumps (JObj config))])%list /\
  (forall e, fst res = inr e ->
             store (snd res) = store w /\ delivered (snd res) = delivered w /\
             ((loads b = None /\ e = loads_error b) \/ e = TypeError)) /\
  (loads b = None -> fst res = inr (loads_error b)).
Proof.
  intros Hreg Hne res.
  assert (Hb : present (store w !! reg_key_of agentId) = Some b)
    by (rewrite Hreg; apply present_Some; auto).
  destruct (inject_config_effects agentId config w b Hb) as [Hpub Hfail].
  split; [exact Hpub|]. split; [exact Hfail|].
  intros Hj. subst res. unfold inject_config, bind, r_get. cbn.
  rewrite Hb. cbn. rewrite Hj. reflexivity.
Qed.

(** ** The lifecycle handlers, continued *)

Lemma raw_state_after_set (w : world) agentId state m :
  store w = <[state_key_of agentId := encode state]> m ->
  state <> "" ->
  raw_state w agentId = Some state.
Proof.
  intros Hs Hne. unfold raw_state, present. rewrite Hs, lookup_insert_eq.
  rewrite is_empty_encode. destruct (String.eqb_spec state ""); [contradiction|].
  apply decode_encode.
Qed.

(** X8. The lifecycle handlers look at the key only: [pause], [resume]
    and [restart] succeed exactly when the registration key exists,
    whatever is stored under it, and otherwise raise 404 and change
    nothing.  In particular, on a key that holds an empty value they
    succeed, while [get_agent_config], [inject_config] and
    [promote_canary] answer 404 for the same agent. *)
Theorem lifecycle_tests_key_only agentId config w :
  forall handler done,
    In (handler, done)
       [(pause_agent, "paused"); (resume_agent, "resumed"); (restart_agent, "restarting")] ->
    (forall b, store w !! reg_key_of agentId = Some b ->
       fst (handler agentId w)
       = inl {| success := true; message := "Agent " ++ agentId ++ " " ++ done |}) /\
    (store w !! reg_key_of agentId = None ->
       handler agentId w = (inr (HTTPException 404 "Agent not found"), w)) /\
    (forall b, store w !! reg_key_of agentId = Some b -> is_empty b = true ->
       fst (get_agent_config agentId w) = inr (HTTPException 404 "Agent not found") /\
       fst (inject_config agentId config w) = inr (HTTPException 404 "Agent not found") /\
       fst (promote_canary agentId w) = inr (HTTPException 404 "Agent not found")).
Proof.
  intros handler done Hin.
  assert (Hh : exists requested command state,
             handler agentId = lifecycle requested command state done agentId).
  { destruct Hin as [[= <- <-]|[[= <- <-]|[[= <- <-]|[]]]]; eexists _, _, _; reflexivity. }
  destruct Hh as (requested & command & state & ->).
  split; [|split].
  - intros b Hb. rewrite lifecycle_registered by (rewrite Hb; eauto). reflexivity.
  - apply lifecycle_unregistered.
  - intros b Hb Hempty.
    assert (Hp : present (store w !! reg_key_of agentId) = None)
      by (apply present_None; eauto).
    rewrite get_agent_config_absent, inject_config_absent, promote_canary_absent
      by assumption.
    auto.
Qed.

Lemma lifecycle_state_raw agentId w :
  is_Some (store w !! reg_key_of agentId) ->
  raw_state (snd (pause_agent agentId w)) agentId = Some "paused" /\
  raw_state (snd (resume_agent agentId w)) agentId = Some "running" /\
  raw_state (snd (restart_agent agentId w)) agentId = Some "initializing".
Proof.
  intros Hreg.
  rewrite pause_agent_lifecycle, resume_agent_lifecycle, restart_agent_lifecycle.
  rewrite !lifecycle_registered by assumption. cbn [snd].
  repeat split; eapply raw_state_after_set; try reflexivity; discriminate.
Qed.

(** X9. What a lifecycle handler writes is what [list_agents] will
    read: after a successful [pause], [resume] or [restart] the raw
    state of the agent is ["paused"], ["running"] or ["initializing"]. *)
Theorem lifecycle_state_reads_back agentId w :
  is_Some (store w !! reg_key_of agentId) ->
  raw_state (snd (pause_agent agentId w)) agentId = Some "paused" /\
  raw_state (snd (resume_agent agentId w)) agentId = Some "running" /\
  raw_state (snd (restart_agent agentId w)) agentId = Some "initializing".
Proof.
  exact (lifecycle_state_raw agentId w).
Qed.

Lemma lifecycle_keeps_registration requested command state agentId w :
  is_Some (store w !! reg_key_of agentId) ->
  is_Some (store (after_lifecycle requested command state agentId w)
           !! reg_key_of agentId).
Proof.
  intros H. cbn [after_lifecycle store].
  rewrite lookup_insert_ne by apply state_key_not_registration. exact H.
Qed.

(** X10. The last writer wins: two lifecycle calls for the same
    registered agent, one after the other, leave the store as the
    second one alone would. *)
Theorem lifecycle_last_writer_wins agentId w :
  is_Some (store w !! reg_key_of agentId) ->
  forall first second,
    In first [pause_agent; resume_agent; restart_agent] ->
    In second [pause_agent; resume_agent; restart_agent] ->
    store (snd (second agentId (snd (first agentId w))))
    = store (snd (second agentId w)).
Proof.
  intros Hreg first second Hf Hs.
  assert (Hl : forall h, In h [pause_agent; resume_agent; restart_agent] ->
             exists requested command state done,
               h agentId = lifecycle requested command state done agentId).
  { intros h [<-|[<-|[<-|[]]]]; eexists _, _, _, _; reflexivity. }
  destruct (Hl first Hf) as (r1 & c1 & s1 & d1 & ->).
  destruct (Hl second Hs) as (r2 & c2 & s2 & d2 & ->).
  rewrite (lifecycle_registered r1) by assumption. cbn [snd].
  rewrite !lifecycle_registered by (try apply lifecycle_keeps_registration; assumption).
  cbn [snd after_lifecycle store]. apply insert_insert_eq.
Qed.

(** X11. A lifecycle call for one agent leaves every other agent
    alone: nothing but the caller's own state key changes in the
    store, and the raw state of any other agent is as before. *)
Theorem lifecycle_leaves_other_agents agentId w :
  is_Some (store w !! reg_key_of agentId) ->
  forall handler, In handler [pause_agent; resume_agent; restart_agent] ->
    (forall k, k <> state_key_of agentId ->
               store (snd (handler agentId w)) !! k = store w !! k) /\
    (forall other, other <> agentId ->
                   raw_state (snd (handler agentId w)) other = raw_state w other).
Proof.
  intros Hreg handler Hin.
  assert (Hl : exists requested command state done,
             handler agentId = lifecycle requested command state done agentId).
  { destruct Hin as [<-|[<-|[<-|[]]]]; eexists _, _, _, _; reflexivity. }
  destruct Hl as (r1 & c1 & s1 & d1 & ->).
  rewrite lifecycle_registered by assumption. cbn [snd after_lifecycle store].
  split.
  - intros k Hk. apply lookup_insert_ne. congruence.
  - intros other Hne. unfold raw_state, after_lifecycle. cbn [store].
    rewrite lookup_insert_ne; [reflexivity|].
    intros E. apply state_key_of_inj in E. congruence.
Qed.

(** ** [broadcast_websocket_message] *)

(** X12. A broadcast reaches every open connection once, in registry
    order, and prunes exactly the connections whose send failed; it
    touches neither the store nor the topics.  A second broadcast
    right after it therefore prunes nothing and reaches the same
    clients.  (Client ids are the keys of a dictionary, hence
    distinct.) *)
Theorem broadcast_prunes_dead_connections frame frame' w :
  NoDup (map fst (active_connections w)) ->
  let w1 := snd (broadcast_websocket_message frame w) in
  let w2 := snd (broadcast_websocket_message frame' w1) in
  active_connections w1
  = List.filter (fun c => ws_open (snd c)) (active_connections w) /\
  delivered w1 = (delivered w ++ frames_to_open frame (active_connections w))%list /\
  store w1 = store w /\ published w1 = published w /\
  active_connections w2 = active_connections w1 /\
  delivered w2 = (delivered w1 ++ frames_to_open frame' (active_connections w))%list.
Proof.
  intros Hnd w1 w2.
  assert (H1 : active_connections w1
               = List.filter (fun c => ws_open (snd c)) (active_connections w) /\
               delivered w1
               = (delivered w ++ frames_to_open frame (active_connections w))%list /\
               store w1 = store w /\ published w1 = published w).
  { subst w1. unfold broadcast_websocket_message.
    pose proof (send_all_frames frame (active_connections w)) as Hs.
    pose proof (prune_is_filter_open frame (active_connections w) Hnd) as Hp.
    destruct (send_all frame (active_connections w)) as [sent disc].
    cbn in *. subst sent. rewrite Hp. auto. }
  destruct H1 as (Hc1 & Hd1 & Hs1 & Hp1).
  repeat (split; [assumption|]).
  subst w2. unfold broadcast_websocket_message.
  pose proof (send_all_frames frame' (active_connections w1)) as Hs.
  pose proof (prune_is_filter_open frame' (active_connections w1)) as Hp.
  destruct (send_all frame' (active_connections w1)) as [sent disc].
  cbn in *. subst sent. rewrite Hp.
  - rewrite Hc1. unfold frames_to_open. rewrite !filter_open_twice. auto.
  - rewrite Hc1. now apply filter_open_distinct.
Qed.

(** ** [verify_token], continued *)

(** X13. [verify_token] answers every refusal with 401 and one of two
    details, and changes nothing.  The parts of a header are those
    [str.split()] makes: the runs between white space, which in a
    header is the ASCII white space, NEL and the no-break space.
    ["Invalid token"] means the header had two parts, a bearer scheme,
    and a token PyJWT rejected with a [PyJWTError]; every other
    refusal, a scheme other than bearer included, is reported as
    ["Invalid authorization header"]: the exception raised for the
    wrong scheme is caught by the handler's own last clause, so
    ["Invalid authentication scheme"] never reaches the caller. *)
Theorem verify_token_refusals authorization w :
  snd (verify_token authorization w) = w /\
  (forall e, fst (verify_token authorization w) = inr e ->
     e = HTTPException 401 "Invalid token" \/
     e = HTTPException 401 "Invalid authorization header") /\
  (fst (verify_token authorization w) = inr (HTTPException 401 "Invalid token") <->
   exists scheme token,
     split_ws authorization = [scheme; token] /\
     lower scheme = "bearer" /\ jwt_decode token = None /\
     jwt_error token = PyJWTError) /\
  (forall payload,
     fst (verify_token authorization w) = inl payload <->
     exists scheme token,
       split_ws authorization = [scheme; token] /\
       lower scheme = "bearer" /\ jwt_decode token = Some payload).
Proof.
  rewrite verify_token_outcome. cbn [fst snd].
  split; [reflexivity|].
  destruct (split_ws authorization) as [|scheme [|token [|? ?]]];
    try (split; [intros e [= <-]; auto|];
         split; [split; [discriminate|intros (? & ? & [=] & _)]|];
         intros payload; split; [discriminate|intros (? & ? & [=] & _)]).
  destruct (String.eqb_spec (lower scheme) "bearer") as [Hb|Hb].
  - destruct (jwt_decode token) as [p|] eqn:Hd.
    + split; [discriminate|]. split.
      * split; [discriminate|]. intros (? & ? & [= <- <-] & _ & E & _). congruence.
      * intros payload. split.
        -- intros [= <-]. eauto.
        -- intros (? & ? & [= <- <-] & _ & E). congruence.
    + split; [intros e [= <-]; destruct (jwt_error token); auto|]. split.
      * split.
        -- intros E. exists scheme, token. repeat split; auto.
           destruct (jwt_error token); try reflexivity; discriminate.
        -- intros (? & ? & [= <- <-] & _ & _ & ->). reflexivity.
      * intros payload. split; [discriminate|].
        intros (? & ? & [= <- <-] & _ & E). congruence.
  - split; [intros e [= <-]; auto|]. split.
    + split; [discriminate|]. intros (? & ? & [= <- <-] & E & _). contradiction.
    + intros payload. split; [discriminate|].
      intros (? & ? & [= <- <-] & E & _). contradiction.
Qed.

(** X14. A header made of a scheme, one space and a token, neither of
    them empty or containing white space (that of [str.split()]: the
    ASCII one, NEL and the no-break space), is accepted exactly when
    the scheme is [bearer] in any letter case and PyJWT accepts the
    token, which is handed over as it is; a token it rejects with a
    [PyJWTError] is an invalid token, anything else an invalid
    header. *)
Theorem verify_token_bearer scheme token w :
  scheme <> "" -> token <> "" ->
  no_space scheme = true -> no_space token = true ->
  verify_token (scheme ++ " " ++ token) w
  = (if String.eqb (lower scheme) "bearer" then
       match jwt_decode token with
       | Some payload => inl payload
       | None =>
           inr (HTTPException 401
                  match jwt_error token with
                  | PyJWTError => "Invalid token"
                  | _ => "Invalid authorization header"
                  end)
       end
     else inr (HTTPException 401 "Invalid authorization header"), w).
Proof.
  intros Hs Ht Hns Hnt.
  rewrite verify_token_outcome, (split_ws_two scheme token Hs Ht Hns Hnt).
  reflexivity.
Qed.

(** ** [list_agents], continued *)

Ltac step_in H :=
  let a := fresh "a" in
  let w := fresh "w" in
  let Hm := fresh "Hm" in
  apply bind_inl in H as (a & w & Hm & H); cbv beta zeta in H.

Lemma list_loop_bound keys agents w :
  exists new w',
    list_loop keys agents w = (inl (agents ++ new)%list, w') /\
    quiet w w' /\ (length new <= length keys)%nat.
Proof.
  revert agents w. induction keys as [|k keys IH]; intros agents w.
  - exists [], w. cbn. rewrite app_nil_r. auto using quiet_refl.
  - destruct (list_step_cases agents k w) as (w1 & Hq & Hstep).
    destruct Hstep as [Hstep|(b & p & _ & _ & Hstep)].
    + destruct (IH agents w1) as (new & w' & Hloop & Hq' & Hlen).
      exists new, w'. cbn [list_loop]. rewrite (bind_run _ _ _ _ _ Hstep).
      split; [exact Hloop|]. split; [eapply quiet_trans; eauto|]. cbn. lia.
    + destruct (IH (agents ++ [p])%list w1) as (new & w' & Hloop & Hq' & Hlen).
      exists (p :: new), w'. cbn [list_loop]. rewrite (bind_run _ _ _ _ _ Hstep).
      rewrite <- app_assoc in Hloop. split; [exact Hloop|].
      split; [eapply quiet_trans; eauto|]. cbn. lia.
Qed.

Lemma metrics_key_not_registration a b : metrics_key_of a <> reg_key_of b.
Proof.
  intros H. apply (f_equal last_char) in H. unfold metrics_key_of, reg_key_of in H.
  rewrite !last_char_key in H by discriminate. discriminate.
Qed.

Lemma last_signal_key_not_registration a b : last_signal_key_of a <> reg_key_of b.
Proof.
  intros H. apply (f_equal last_char) in H. unfold last_signal_key_of, reg_key_of in H.
  rewrite !last_char_key in H by discriminate. discriminate.
Qed.

(** X15. [list_agents] never fails and only reads: it returns a list
    whatever is in the store, with at most one panel per registration
    key, and it writes nothing to the store, publishes nothing and
    sends no frame. *)
Theorem list_agents_total_and_quiet w :
  exists agents w' keys,
    list_agents w = (inl agents, w') /\
    quiet w w' /\
    fst (r_keys "agent:*:registration" w) = inl keys /\
    (length agents <= length keys)%nat.
Proof.
  rewrite list_agents_unfold.
  destruct (list_loop_bound
              (List.filter (glob "agent:*:registration") (map fst (map_to_list (store w))))
              [] w) as (new & w' & Hloop & Hq & Hlen).
  exists new, w'. eexists. split; [exact Hloop|]. split; [exact Hq|].
  split; [reflexivity|exact Hlen].
Qed.

(** X16. The keys [list_agents] enumerates are exactly the stored
    keys of the form [agent:{id}:registration], the form under which
    the other handlers look a registration up; the state, metrics and
    last-signal keys of an agent are never among them. *)
Theorem registration_keys_enumerated w :
  exists keys,
    r_keys "agent:*:registration" w = (inl keys, w) /\
    (forall k, In k keys <->
               (exists agentId, k = reg_key_of agentId) /\ is_Some (store w !! k)) /\
    (forall agentId,
       ~ In (state_key_of agentId) keys /\
       ~ In (metrics_key_of agentId) keys /\
       ~ In (last_signal_key_of agentId) keys).
Proof.
  eexists. split; [reflexivity|]. split.
  - intros k. rewrite r_keys_spec, registration_pattern. reflexivity.
  - intros agentId. rewrite !r_keys_spec, !registration_pattern.
    repeat split; intros [[a E] _].
    + exact (state_key_not_registration _ _ E).
    + exact (metrics_key_not_registration _ _ E).
    + exact (last_signal_key_not_registration _ _ E).
Qed.

Lemma status_of_state_range state :
  status_of_state state = "paused" \/ status_of_state state = "running".
Proof.
  unfold status_of_state.
  destruct (String.eqb state "paused"); auto.
  destruct (String.eqb state "disabled"); auto.
Qed.

(** X17. A listed status is one of ["running"], ["paused"] and
    ["canary"], with the actions of the table; ["restart"] is offered
    for every agent, and no agent is ever listed as ["initializing"]. *)
Theorem listed_status_range w :
  exists agents w',
    list_agents w = (inl agents, w') /\
    forall p, In p agents ->
      ((status p = "running" /\ actions p = ["pause"; "restart"]) \/
       (status p = "paused" /\ actions p = ["resume"; "restart"]) \/
       (status p = "canary" /\ actions p = ["promote"; "pause"; "restart"])) /\
      In "restart" (actions p) /\ status p <> "initializing".
Proof.
  rewrite list_agents_unfold.
  destruct (list_loop_spec
              (List.filter (glob "agent:*:registration") (map fst (map_to_list (store w))))
              [] w) as (new & w' & Hloop & _ & Hnew).
  exists new, w'. split; [exact Hloop|].
  intros p Hp. destruct (Hnew p Hp) as (k & b & w1 & w2 & _ & _ & _ & Hpan).
  apply agent_panel_inv in Hpan as (o & state & _ & _ & _ & Hstatus & Hact).
  rewrite Hact, Hstatus.
  destruct (canary_flag o).
  - split; [right; right; split; reflexivity|]. split; [cbn; auto|discriminate].
  - destruct (status_of_state_range state) as [-> | ->].
    + split; [right; left; split; reflexivity|]. split; [cbn; auto|discriminate].
    + split; [left; split; reflexivity|]. split; [cbn; auto|discriminate].
Qed.

(** X18. Listing after a lifecycle call: every panel built from a
    registration whose [agentId] is the agent just paused is
    ["paused"], just resumed is ["running"], and just restarted is
    ["running"] as well (the stored ["initializing"] is not a status
    of its own), unless the registration signals canary, in which case
    it is ["canary"] in all three cases. *)
Theorem list_after_lifecycle agent w :
  is_Some (store w !! reg_key_of agent) ->
  forall handler shown,
    In (handler, shown)
       [(pause_agent, "paused"); (resume_agent, "running"); (restart_agent, "running")] ->
    exists agents w',
      list_agents (snd (handler agent w)) = (inl agents, w') /\
      forall p, In p agents ->
        exists reg_key b o,
          store (snd (handler agent w)) !! reg_key = Some b /\
          loads b = Some (JObj o) /\
          validate_str (registered_id o) = Some (agentId p) /\
          (registered_id o = JStr agent ->
           status p = if canary_flag o then "canary" else shown).
Proof.
  intros Hreg handler shown Hin.
  assert (Hraw : exists state,
            raw_state (snd (handler agent w)) agent = Some state /\
            status_of_state state = shown).
  { destruct (lifecycle_state_raw agent w Hreg) as (H1 & H2 & H3).
    destruct Hin as [[= <- <-]|[[= <- <-]|[[= <- <-]|[]]]]; eexists; split;
      try eassumption; reflexivity. }
  destruct Hraw as (state0 & Hraw & Hshown).
  rewrite list_agents_unfold.
  destruct (list_loop_spec
              (List.filter (glob "agent:*:registration")
                 (map fst (map_to_list (store (snd (handler agent w))))))
              [] (snd (handler agent w))) as (new & w' & Hloop & _ & Hnew).
  exists new, w'. split; [exact Hloop|].
  intros p Hp. destruct (Hnew p Hp) as (k & b & w1 & w2 & _ & Hst & Hg & Hpan).
  apply agent_panel_inv in Hpan as (o & state & Hj & Hid & Hstate & Hstatus & _).
  exists k, b, o. do 3 (split; [assumption|]).
  intros E. rewrite E, py_str_str, (raw_state_store _ _ _ Hst), Hraw in Hstate.
  injection Hstate as <-. rewrite Hstatus, Hshown. reflexivity.
Qed.

Lemma validate_str_list_length vs ss :
  validate_str_list vs = Some ss -> length ss = length vs.
Proof.
  revert ss. induction vs as [|v vs IH]; cbn; intros ss.
  - now intros [= <-].
  - destruct (validate_str v); [|discriminate].
    destruct (validate_str_list vs); [|discriminate].
    intros [= <-]. cbn. f_equal. now apply IH.
Qed.

Lemma validate_str_list_head s vs ss :
  validate_str_list (JStr s :: vs) = Some ss -> exists rest, ss = s :: rest.
Proof.
  cbn. rewrite validate_str_str.
  destruct (validate_str_list vs); [|discriminate]. intros [= <-]. eauto.
Qed.

Lemma pairs_inv (c : bool) o (tags tags' : list json) w w' :
  (if c then
     pairs <- py_getitem (JObj o) "tradingPairs" ;;
     pairs <- py_slice2 pairs ;;
     ret (tags ++ pairs)%list
   else ret tags) w = (inl tags', w') ->
  exists extra, tags' = (tags ++ extra)%list /\ (length extra <= 2)%nat.
Proof.
  destruct c; [|intros [= <- _]; exists []; rewrite app_nil_r; auto].
  unfold bind. cbn. destruct (dict_get "tradingPairs" o) as [pairs|]; [|discriminate].
  cbn. destruct pairs as [| | | |s|xs|]; cbn; try discriminate.
  - intros [= <- _]. eexists. split; [reflexivity|].
    destruct s as [|? [|? ?]]; cbn; lia.
  - intros [= <- _]. eexists. split; [reflexivity|].
    apply firstn_le_length.
Qed.

Lemma type_inv (c : bool) o (tags tags' : list json) w w' :
  (if c then
     agentType <- py_getitem (JObj o) "agentType" ;;
     ret (tags ++ [agentType])%list
   else ret tags) w = (inl tags', w') ->
  exists extra, tags' = (tags ++ extra)%list /\ (length extra <= 1)%nat.
Proof.
  destruct c; [|intros [= <- _]; exists []; rewrite app_nil_r; auto].
  unfold bind. cbn. destruct (dict_get "agentType" o) as [t|]; [|discriminate].
  cbn. intros [= <- _]. eexists. split; [reflexivity|]. cbn. lia.
Qed.

Lemma agent_panel_tags b w p w' :
  agent_panel b w = (inl p, w') ->
  (length (tags p) <= 4)%nat /\
  (status p = "canary" -> exists rest, tags p = "canary" :: rest) /\
  (status p = "paused" -> exists rest, tags p = "paused" :: rest).
Proof.
  intros H. unfold agent_panel in H.
  step_in H. apply lift_inl in Hm as [Hj ->].
  step_in H. apply py_get_inl in Hm as (o & -> & -> & ->).
  do 2 step_in H. rename a0 into state. clear Hm Hm0.
  do 2 step_in H. rename a1 into is_canary. clear Hm Hm0.
  do 7 step_in H. clear Hm Hm0 Hm1 Hm2 Hm3 Hm4 Hm5.
  step_in H. clear Hm.
  step_in H. apply pairs_inv in Hm as (pairs & -> & Hpairs).
  step_in H. clear Hm.
  step_in H. apply type_inv in Hm as (type & -> & Htype).
  do 2 step_in H. clear Hm Hm0.
  repeat match type of H with
         | context [validate_str_list ?x] =>
             destruct (validate_str_list x) as [tgs|] eqn:Htags
         | context [validate_float ?x] => destruct (validate_float x)
         | context [validate_opt_str ?x] => destruct (validate_opt_str x)
         | context [validate_str ?x] => destruct (validate_str x)
         end; try discriminate H.
  unfold ret in H. injection H as <- _. cbn [tags status].
  pose proof (validate_str_list_length _ _ Htags) as Hlen.
  rewrite !length_app in Hlen.
  destruct is_canary.
  - cbn in Htags, Hlen. split; [lia|].
    split; [intros _; exact (validate_str_list_head _ _ _ Htags)|discriminate].
  - destruct (status_of_state_range state) as [E|E]; rewrite E in *;
      cbn in Htags, Hlen; (split; [lia|]).
    + split; [discriminate|intros _; exact (validate_str_list_head _ _ _ Htags)].
    + split; discriminate.
Qed.

(** X19. The tags of a listed panel are few and start with the
    status: at most four of them (canary or paused, at most two
    trading pairs, the agent type), the first being ["canary"] for a
    canary agent and ["paused"] for a paused one. *)
Theorem listed_tags_bounded w :
  exists agents w',
    list_agents w = (inl agents, w') /\
    forall p, In p agents ->
      (length (tags p) <= 4)%nat /\
      (status p = "canary" -> exists rest, tags p = "canary" :: rest) /\
      (status p = "paused" -> exists rest, tags p = "paused" :: rest).
Proof.
  rewrite list_agents_unfold.
  destruct (list_loop_spec
              (List.filter (glob "agent:*:registration") (map fst (map_to_list (store w))))
              [] w) as (new & w' & Hloop & _ & Hnew).
  exists new, w'. split; [exact Hloop|].
  intros p Hp. destruct (Hnew p Hp) as (k & b & w1 & w2 & _ & _ & _ & Hpan).
  exact (agent_panel_tags _ _ _ _ Hpan).
Qed.

(** ** What is published, and where *)

Lemma publish_agent_event_run event_type agent_id data w :
  publish_agent_event event_type agent_id data w
  = (inl tt,
     {| store := store w; gets := gets w;
        published :=
          (published w ++
           [("agent_events",
             dumps (JObj (dict_update
                            [("type", JStr event_type); ("agentId", JStr agent_id);
                             ("timestamp", JInt (now_ms (ticks w)))]
                            match data with Some u => u | None => [] end)))])%list;
        active_connections := active_connections w;
        delivered := delivered w; ticks := S (ticks w) |}).
Proof.
  unfold publish_agent_event, bind, now, r_publish. cbn.
  destruct data as [[|kv u]|]; reflexivity.
Qed.

(** X20. [publish_agent_event] publishes one message, on
    [agent_events], and touches nothing else.  The message decodes to
    an object in which every key of [data] has the value [data] gives
    it, so a [type], [agentId] or [timestamp] in [data] replaces the
    one the function sets, and every other key is as set: the event
    type, the agent and the clock reading. *)
Theorem publish_agent_event_fields event_type agent_id data w :
  wf_json (JObj match data with Some u => u | None => [] end) = true ->
  exists payload m w',
    publish_agent_event event_type agent_id data w = (inl tt, w') /\
    published w' = (published w ++ [("agent_events", payload)])%list /\
    store w' = store w /\ delivered w' = delivered w /\
    loads payload = Some (JObj m) /\
    forall k,
      dict_get k m
      = match dict_get k match data with Some u => u | None => [] end with
        | Some v => Some v
        | None =>
            dict_get k [("type", JStr event_type); ("agentId", JStr agent_id);
                        ("timestamp", JInt (now_ms (ticks w)))]
        end.
Proof.
  intros Hwf. eexists _, _, _. split; [apply publish_agent_event_run|].
  cbn [published store delivered]. do 3 (split; [reflexivity|]). split.
  - apply loads_dumps, dict_update_wf; [reflexivity|exact Hwf].
  - intros k. now apply dict_update_get.
Qed.

Lemma topic_of_two topic (l : list (string * bytes)) t1 p1 t2 p2 :
  on_topic topic (l ++ [(t1, p1); (t2, p2)])
  = (on_topic topic l
     ++ (if String.eqb t1 topic then [p1] else [])
     ++ (if String.eqb t2 topic then [p2] else []))%list.
Proof.
  rewrite on_topic_app. f_equal. unfold on_topic. cbn.
  destruct (String.eqb t1 topic), (String.eqb t2 topic); reflexivity.
Qed.

(** X21. A successful [pause], [resume] or [restart] publishes two
    messages and no more: the request event on [agent_events] and then
    an empty command on the agent's own topic
    [agent:{id}:pause|resume|restart]; a subscriber of any other topic
    receives nothing. *)
Theorem lifecycle_publishes_two agentId w :
  is_Some (store w !! reg_key_of agentId) ->
  forall handler requested command,
    In (handler, requested, command)
       [(pause_agent, "pause_requested", "pause");
        (resume_agent, "resume_requested", "resume");
        (restart_agent, "restart_requested", "restart")] ->
    let w' := snd (handler agentId w) in
    length (published w') = (length (published w) + 2)%nat /\
    on_topic ("agent:" ++ agentId ++ ":" ++ command) (published w')
    = (on_topic ("agent:" ++ agentId ++ ":" ++ command) (published w)
       ++ [encode ""])%list /\
    forall topic,
      topic <> "agent_events" ->
      topic <> ("agent:" ++ agentId ++ ":" ++ command)%string ->
      on_topic topic (published w') = on_topic topic (published w).
Proof.
  intros Hreg handler requested command Hin.
  assert (Hh : exists state done,
             handler agentId = lifecycle requested command state done agentId).
  { destruct Hin as [[= <- <- <-]|[[= <- <- <-]|[[= <- <- <-]|[]]]];
      eexists _, _; reflexivity. }
  destruct Hh as (state & done & ->).
  rewrite lifecycle_registered by assumption. cbv zeta.
  cbn [snd after_lifecycle published]. split; [|split].
  - rewrite length_app. reflexivity.
  - rewrite topic_of_two, String.eqb_refl.
    replace (String.eqb "agent_events" ("agent:" ++ agentId ++ ":" ++ command))
      with false by reflexivity.
    reflexivity.
  - intros topic H1 H2. rewrite topic_of_two.
    destruct (String.eqb_spec "agent_events" topic); [congruence|].
    destruct (String.eqb_spec ("agent:" ++ agentId ++ ":" ++ command) topic);
      [congruence|].
    now rewrite !app_nil_r.
Qed.

Lemma event_fields event_type agent_id t (extra : dict) :
  dict_get "type" extra = None -> dict_get "agentId" extra = None ->
  dict_get "timestamp" extra = None ->
  wf_json (JObj extra) = true ->
  exists m,
    loads (dumps (JObj (dict_update [("type", JStr event_type); ("agentId", JStr agent_id);
                                     ("timestamp", JInt t)] extra)))
    = Some (JObj m) /\
    dict_get "type" m = Some (JStr event_type) /\
    dict_get "agentId" m = Some (JStr agent_id) /\
    dict_get "timestamp" m = Some (JInt t).
Proof.
  intros H1 H2 H3 Hwf. eexists. split.
  - apply loads_dumps, dict_update_wf; [reflexivity|exact Hwf].
  - rewrite !dict_update_get_other by assumption. repeat split.
Qed.

(** X22. Whatever a mutating request does, it puts at most one event
    on [agent_events], and that event decodes to an object whose
    [type] is the one of the operation, whose [agentId] is the agent
    addressed and which has an integer [timestamp]. *)
Theorem events_are_typed authorization op w :
  patch_wf op = true ->
  exists new,
    on_topic "agent_events" (published (snd (handle authorization op w)))
    = (on_topic "agent_events" (published w) ++ new)%list /\
    (length new <= 1)%nat /\
    forall payload, In payload new ->
      exists m t,
        loads payload = Some (JObj m) /\
        dict_get "type" m = Some (JStr (event_name op)) /\
        dict_get "agentId" m = Some (JStr (agent_of op)) /\
        dict_get "timestamp" m = Some (JInt t).
Proof.
  intros Hwf.
  assert (Hnone : exists new,
            on_topic "agent_events" (published w)
            = (on_topic "agent_events" (published w) ++ new)%list /\
            (length new <= 1)%nat /\
            forall payload, In payload new ->
              exists m t,
                loads payload = Some (JObj m) /\
                dict_get "type" m = Some (JStr (event_name op)) /\
                dict_get "agentId" m = Some (JStr (agent_of op)) /\
                dict_get "timestamp" m = Some (JInt t)).
  { exists []. rewrite app_nil_r. split; [reflexivity|]. split; [cbn; lia|intros ? []]. }
  assert (Hlife : forall requested command state done agentId,
            event_name op = requested -> agent_of op = agentId ->
            exists new,
              on_topic "agent_events"
                (published (snd (lifecycle requested command state done agentId w)))
              = (on_topic "agent_events" (published w) ++ new)%list /\
              (length new <= 1)%nat /\
              forall payload, In payload new ->
                exists m t,
                  loads payload = Some (JObj m) /\
                  dict_get "type" m = Some (JStr (event_name op)) /\
                  dict_get "agentId" m = Some (JStr (agent_of op)) /\
                  dict_get "timestamp" m = Some (JInt t)).
  { intros requested command state done agentId E1 E2.
    destruct (store w !! reg_key_of agentId) eqn:Hreg.
    - rewrite lifecycle_registered by (rewrite Hreg; eauto).
      cbn [snd after_lifecycle published]. rewrite topic_of_two, String.eqb_refl.
      replace (String.eqb ("agent:" ++ agentId ++ ":" ++ command) "agent_events")
        with false by reflexivity.
      rewrite app_nil_r. eexists. split; [reflexivity|]. split; [cbn; lia|].
      intros payload [<-|[]]. rewrite E1, E2.
      destruct (event_fields requested agentId (now_ms (ticks w)) [])
        as (m & Hm & Hf); try reflexivity.
      exists m, (now_ms (ticks w)). split; [exact Hm|exact Hf].
    - rewrite lifecycle_unregistered by assumption. exact Hnone. }
  destruct op as [a|a|a|a config|a]; cbn [handle].
  - rewrite pause_agent_lifecycle. now apply Hlife.
  - rewrite resume_agent_lifecycle. now apply Hlife.
  - rewrite restart_agent_lifecycle. now apply Hlife.
  - destruct (present (store w !! reg_key_of a)) as [b|] eqn:Hb.
    + destruct (inject_config_effects a config w b Hb) as [-> _].
      rewrite topic_of_two, String.eqb_refl.
      replace (String.eqb ("agent:" ++ a ++ ":inject_config") "agent_events")
        with false by reflexivity.
      rewrite app_nil_r. eexists. split; [reflexivity|]. split; [cbn; lia|].
      intros payload [<-|[]].
      destruct (event_fields "config_update_requested" a (now_ms (ticks w))
                  [("config", JObj config)]) as (m & Hm & Hf); try reflexivity.
      { change (wf_json (JObj config) = true) in Hwf.
        rewrite wf_json_cons, Hwf. reflexivity. }
      exists m, (now_ms (ticks w)). split; [exact Hm|exact Hf].
    + rewrite inject_config_absent by assumption. exact Hnone.
  - destruct (promote_canary a w) as [[r|e] w'] eqn:Hrun.
    + pose proof Hrun as Hinv.
      apply promote_canary_inv in Hinv as (b & o & c & ec & Hb & Hj & Hc & He & Hs).
      rewrite (promote_canary_success _ _ _ _ _ _ Hb Hj Hc He Hs) in Hrun.
      injection Hrun as _ <-.
      cbn [snd after_promote published]. rewrite topic_of_two, String.eqb_refl.
      replace (String.eqb ("agent:" ++ a ++ ":inject_config") "agent_events")
        with false by reflexivity.
      rewrite app_nil_r. eexists. split; [reflexivity|]. split; [cbn; lia|].
      intros payload [<-|[]].
      destruct (event_fields "canary_promoted" a (now_ms (ticks w))
                  [("newMode", JStr "live")]) as (m & Hm & Hf); try reflexivity.
      exists m, (now_ms (ticks w)). split; [exact Hm|exact Hf].
    + apply promote_canary_failure_quiet in Hrun as (_ & Hpub & _).
      cbn [snd]. rewrite Hpub. exact Hnone.
Qed.

(** ** Defaults of a panel *)

Lemma step_store {A} (m : M A) w a w' :
  readonly m -> m w = (inl a, w') -> store w' = store w.
Proof. intros Hr Hm. pose proof (Hr w) as Hq. rewrite Hm in Hq. apply Hq. Qed.

Lemma readonly_present_lift {A} (o : option bytes) (f : bytes -> option A)
    (e : bytes -> exn) d :
  readonly (match present o with
            | Some b => lift (f b) (e b)
            | None => ret d
            end).
Proof. destruct (present o); [apply readonly_lift|apply readonly_ret]. Qed.

Lemma readonly_canary_branch (c : bool) v :
  readonly (if c then
              config <- py_getitem v "config" ;;
              exec_config <- py_getitem config "executionConfig" ;;
              in_canary exec_config
            else ret false).
Proof.
  destruct c; [|apply readonly_ret].
  apply readonly_bind; [apply readonly_py_getitem|intros config].
  apply readonly_bind; [apply readonly_py_getitem|intros ec]. apply readonly_in_canary.
Qed.

Lemma pnl_check m w1 w2 w3 has_custom v :
  has_path (JObj m) "custom" "pnl_24h" w1 = (inl has_custom, w2) ->
  (if has_custom then
     custom <- py_getitem (JObj m) "custom" ;;
     py_getitem custom "pnl_24h"
   else ret match dict_get "pnl" m with
            | Some x => x
            | None => JFloat (S754_zero false)
            end) w2 = (inl v, w3) ->
  v = shown_pnl m.
Proof.
  unfold has_path, shown_pnl, bind. cbn. unfold dict_has.
  destruct (dict_get "custom" m) as [custom|] eqn:Hc; cbn.
  2:{ intros [= <- <-]. cbn. now intros [= <- _]. }
  destruct custom as [| | | | s |xs|c]; cbn; try discriminate.
  - intros [= <- <-]. destruct (is_substring "pnl_24h" s); cbn;
      [discriminate|now intros [= <- _]].
  - intros [= <- <-]. destruct (existsb _ xs); cbn;
      [discriminate|now intros [= <- _]].
  - unfold dict_has. destruct (dict_get "pnl_24h" c) as [x|] eqn:Hx; cbn.
    + intros [= <- <-]. cbn. now intros [= <- _].
    + intros [= <- <-]. cbn. now intros [= <- _].
Qed.

Lemma agent_panel_numbers b w p w' :
  agent_panel b w = (inl p, w') ->
  exists o metrics,
    loads b = Some (JObj o) /\
    match present (store w !! metrics_key_of (py_str (registered_id o))) with
    | Some mb => loads mb = Some (JObj metrics)
    | None => metrics = []
    end /\
    validate_float (shown_pnl metrics) = Some (pnl24h p) /\
    match present (store w !! last_signal_key_of (py_str (registered_id o))) with
    | Some lb => py_int lb = Some (lastSignal p)
    | None => lastSignal p = 0
    end.
Proof.
  intros H. unfold agent_panel in H.
  step_in H. apply lift_inl in Hm as [Hj ->].
  step_in H. apply py_get_inl in Hm as (o & -> & -> & ->).
  fold (registered_id o) in H.
  step_in H. apply (step_store _ _ _ _ (readonly_r_get _)) in Hm as Hs0.
  step_in H. apply (step_store _ _ _ _ (readonly_present_lift _ _ _ _)) in Hm0 as Hs1.
  step_in H. apply (step_store _ _ _ _ (readonly_has_path _ _ _)) in Hm1 as Hs2.
  step_in H. apply (step_store _ _ _ _ (readonly_canary_branch _ _)) in Hm2 as Hs3.
  clear Hm Hm0 Hm1 Hm2.
  step_in H. cbn in Hm. injection Hm as <- <-.
  step_in H.
  match goal with
  | Hx : _ ?wa = (inl ?mj, ?wb) |- _ =>
      lazymatch type of mj with
      | json =>
          rename Hx into Hmet;
          assert (Hs4 : store wb = store w3)
            by exact (step_store _ _ _ _ (readonly_present_lift _ _ _ _) Hmet)
      end
  end.
  step_in H. cbn in Hm. injection Hm as <- <-.
  step_in H.
  match goal with
  | Hx : _ ?wa = (inl ?t, ?wb) |- _ =>
      lazymatch type of t with
      | Z => rename Hx into Hsig
      end
  end.
  step_in H. apply py_get_inl in Hm as (m & -> & -> & ->).
  step_in H. step_in H. pose proof (pnl_check _ _ _ _ _ _ Hm Hm0) as ->.
  clear Hm Hm0.
  do 6 step_in H.
  repeat match type of H with
         | context [validate_str_list ?x] => destruct (validate_str_list x)
         | context [validate_float ?x] => destruct (validate_float x) eqn:Hpnl
         | context [validate_opt_str ?x] => destruct (validate_opt_str x)
         | context [validate_str ?x] => destruct (validate_str x)
         end; try discriminate H.
  unfold ret in H. injection H as <- _. cbn [pnl24h lastSignal].
  exists o, m. split; [exact Hj|]. unfold metrics_key_of, last_signal_key_of.
  rewrite Hs4 in Hsig. rewrite Hs3, Hs2, Hs1, Hs0 in Hmet, Hsig.
  split; [|split; [exact Hpnl|]].
  - destruct (present _) in Hmet |- *.
    + now apply lift_inl in Hmet as [Hmet _].
    + unfold ret in Hmet. now injection Hmet as <- _.
  - destruct (present _) in Hsig |- *.
    + now apply lift_inl in Hsig as [Hsig _].
    + unfold ret in Hsig. now injection Hsig as <- _.
Qed.


End MoreProperties.

Section AuthProperties.
Context `{RT : Runtime} `{AR : AuthRuntime}.

(** ** The token route *)

(** X23. The token route and [verify_token] fit together.  A login
    with the administrator's credentials returns the token PyJWT makes
    of the claims [sub], [roles] and an [exp] twenty-four hours after
    the clock reading, with token type [bearer]; sending that token
    type, a space and the token as [Authorization] header makes
    [verify_token] return the claims PyJWT decodes from the token
    (a JWT has no white space in it).  Any other credentials get 401
    "Invalid credentials", and nothing is read or changed. *)
Theorem login_token_verifies username password w :
  (username = "admin" /\ password = admin_password ->
   exists r w',
     login_for_access_token username password w = (inl r, w') /\
     quiet w w' /\
     token_type r = "bearer" /\
     access_token r
     = jwt_encode [("sub", JStr "admin"); ("roles", JArr [JStr "admin"]);
                   ("exp", JInt (utcnow_s (ticks w) + 86400))] /\
     forall claims w2,
       access_token r <> "" -> no_space (access_token r) = true ->
       jwt_decode (access_token r) = Some claims ->
       verify_token (token_type r ++ " " ++ access_token r) w2 = (inl claims, w2)) /\
  (~ (username = "admin" /\ password = admin_password) ->
   login_for_access_token username password w
   = (inr (HTTPException 401 "Invalid credentials"), w)).
Proof.
  unfold login_for_access_token. split.
  - intros [-> ->]. rewrite !String.eqb_refl. cbn.
    eexists _, _. split; [reflexivity|]. split; [repeat split|].
    cbn [token_type access_token]. do 2 (split; [reflexivity|]).
    intros claims w2 Hne Hns Hdec.
    rewrite verify_token_outcome, (split_ws_two "bearer" _ ltac:(discriminate) Hne eq_refl Hns).
    cbn. rewrite Hdec. reflexivity.
  - intros Hno.
    destruct (String.eqb_spec username "admin") as [->|]; [|reflexivity].
    destruct (String.eqb_spec password admin_password) as [->|]; [|reflexivity].
    exfalso. auto.
Qed.

End AuthProperties.

(* ===================================================================== *)
(** * Further runs on the reference runtime *)
(* ===================================================================== *)

Section MoreRuns.
#[local] Existing Instance Ref.runtime.
#[local] Existing Instance RefMore.auth.

Lemma run_outcome {A} (m : M A) (w : world) (r : A + exn) :
  fst (m w) = r -> m w = (r, snd (m w)).
Proof. intros <-. apply surjective_pairing. Qed.

(** X1, on [a1]. *)
Lemma inject_config_same_patch_twice_witness :
  exists r w1 w2,
    inject_config "a1" [("a", JObj [("b", JInt 5)])] Ref.w0 = (inl r, w1) /\
    inject_config "a1" [("a", JObj [("b", JInt 5)])] w1 = (inl r, w2) /\
    store w2 = store w1.
Proof.
  exact (inject_config_same_patch_twice "a1" [("a", JObj [("b", JInt 5)])] Ref.w0
           (Ref.Doc Ref.a1_registration) RefMore.a1_fields RefMore.a1_config
           eq_refl eq_refl eq_refl eq_refl eq_refl).
Defined.

(** X2, on [a1]. *)
Lemma inject_config_keeps_keys_witness :
  exists r w1 agent_json' c',
    inject_config "a1" [("a", JInt 9)] Ref.w0 = (inl r, w1) /\
    store w1 !! reg_key_of "a1" = Some (dumps (JObj agent_json')) /\
    config_dict agent_json' = Some c' /\
    (forall k, dict_has k RefMore.a1_fields = true -> dict_has k agent_json' = true) /\
    (forall k, dict_has k RefMore.a1_config = true -> dict_has k c' = true).
Proof.
  exact (inject_config_keeps_keys "a1" [("a", JInt 9)] Ref.w0
           (Ref.Doc Ref.a1_registration) RefMore.a1_fields RefMore.a1_config
           eq_refl eq_refl eq_refl eq_refl).
Defined.

(** X3, on [a1]. *)
Lemma get_agent_config_after_inject_witness :
  exists r w1,
    inject_config "a1" [("a", JObj [("b", JInt 5)])] Ref.w0 = (inl r, w1) /\
    fst (get_agent_config "a1" w1)
    = inl (JObj [("agentId", JStr "a1");
                 ("config", JObj (deep_update RefMore.a1_config
                                              [("a", JObj [("b", JInt 5)])]))]).
Proof.
  exact (get_agent_config_after_inject "a1" [("a", JObj [("b", JInt 5)])] Ref.w0
           (Ref.Doc Ref.a1_registration) RefMore.a1_fields RefMore.a1_config
           eq_refl eq_refl eq_refl eq_refl eq_refl).
Defined.

(** X4, on the registration that is not JSON and on the one that is
    not UTF-8. *)
Lemma get_agent_config_reads_witness :
  fst (get_agent_config "bad" RefMore.w1) = inr JSONDecodeError /\
  fst (get_agent_config "raw" RefMore.w1) = inr UnicodeDecodeError.
Proof.
  destruct (get_agent_config_reads "bad" RefMore.w1) as [_ Hbad].
  destruct (get_agent_config_reads "raw" RefMore.w1) as [_ Hraw].
  split.
  - exact (proj1 (Hbad (Ref.Text "{not json") eq_refl eq_refl)).
  - exact (proj1 (Hraw Ref.Junk eq_refl eq_refl)).
Defined.

(** X5, on [a1]. *)
Lemma promote_canary_changes_two_settings_witness :
  exists o' , store (snd (promote_canary "a1" Ref.w0)) !! reg_key_of "a1"
              = Some (dumps (JObj o')) /\
              dict_get "name" o' = Some (JStr "alpha").
Proof.
  destruct (promote_canary_changes_two_settings "a1" Ref.w0
              {| success := true; message := "Agent a1 promoted from canary to live" |}
              (snd (promote_canary "a1" Ref.w0)))
    as (o & c & e & o' & c' & e' & (b & Hb & Hj) & _ & _ & Hs & _ & _ & Ho & _).
  - apply run_outcome. vm_compute. reflexivity.
  - exists o'. split; [exact Hs|]. rewrite Ho by discriminate.
    vm_compute in Hb. injection Hb as <-. vm_compute in Hj. injection Hj as <-.
    reflexivity.
Defined.

(** X6, on the registration [x9], which has no execution
    configuration. *)
Lemma promote_canary_fails_without_effect_witness :
  quiet Ref.w0 (snd (promote_canary "x9" Ref.w0)).
Proof.
  apply (promote_canary_fails_without_effect "x9" Ref.w0
           (HTTPException 400 "Agent does not have execution configuration")).
  apply run_outcome. vm_compute. reflexivity.
Defined.

(** X7, on the registration that is not UTF-8. *)
Lemma inject_config_publishes_before_failing_witness :
  fst (inject_config "raw" [("a", JInt 9)] RefMore.w1) = inr UnicodeDecodeError /\
  length (published (snd (inject_config "raw" [("a", JInt 9)] RefMore.w1))) = 2%nat /\
  store (snd (inject_config "raw" [("a", JInt 9)] RefMore.w1)) = store RefMore.w1.
Proof.
  destruct (inject_config_publishes_before_failing "raw" [("a", JInt 9)] RefMore.w1
              Ref.Junk eq_refl eq_refl) as (Hpub & Hfail & Hbad).
  split; [exact (Hbad eq_refl)|]. split.
  - rewrite Hpub. reflexivity.
  - exact (proj1 (Hfail _ (Hbad eq_refl))).
Defined.

(** X8, on the key that holds an empty value. *)
Lemma lifecycle_tests_key_only_witness :
  fst (pause_agent "empty" RefMore.w1)
  = inl {| success := true; message := "Agent empty paused" |} /\
  fst (get_agent_config "empty" RefMore.w1) = inr (HTTPException 404 "Agent not found").
Proof.
  destruct (lifecycle_tests_key_only "empty" [] RefMore.w1 pause_agent "paused"
              (or_introl eq_refl)) as (H1 & _ & H3).
  split; [exact (H1 (Ref.Text "") eq_refl)|].
  exact (proj1 (H3 (Ref.Text "") eq_refl eq_refl)).
Defined.

(** X9, on [a1]. *)
Lemma lifecycle_state_reads_back_witness :
  raw_state (snd (restart_agent "a1" Ref.w0)) "a1" = Some "initializing".
Proof.
  exact (proj2 (proj2 (lifecycle_state_reads_back "a1" Ref.w0
                         ltac:(eexists; reflexivity)))).
Defined.

(** X10, on [a1]: pause, then resume. *)
Lemma lifecycle_last_writer_wins_witness :
  store (snd (resume_agent "a1" (snd (pause_agent "a1" Ref.w0))))
  = store (snd (resume_agent "a1" Ref.w0)).
Proof.
  apply (lifecycle_last_writer_wins "a1" Ref.w0 ltac:(eexists; reflexivity)
           pause_agent resume_agent); cbn; auto.
Defined.

(** X11, on [a1] and the agent [unknown]. *)
Lemma lifecycle_leaves_other_agents_witness :
  raw_state (snd (pause_agent "a1" Ref.w0)) "unknown" = raw_state Ref.w0 "unknown".
Proof.
  destruct (lifecycle_leaves_other_agents "a1" Ref.w0 ltac:(eexists; reflexivity)
              pause_agent ltac:(cbn; auto)) as [_ H].
  apply H. discriminate.
Defined.

(** X12, on the two connections of the reference world, one of them
    closed. *)
Lemma broadcast_prunes_dead_connections_witness :
  active_connections (snd (broadcast_websocket_message JNull Ref.w0))
  = [("c1", {| ws_open := true |})].
Proof.
  destruct (broadcast_prunes_dead_connections JNull JNull Ref.w0) as [H _].
  - apply (bool_decide_unpack _). vm_compute. exact I.
  - exact H.
Defined.

(** X13, on a header whose scheme and token are separated by a
    no-break space (code point 160): [split] takes it for white space,
    so the header has two parts and it is the token that is refused. *)
Lemma verify_token_refusals_witness :
  fst (verify_token (String.append "Bearer" (String (ascii_of_nat 160) "x")) Ref.w0)
  = inr (HTTPException 401 "Invalid token").
Proof.
  destruct (verify_token_refusals
              (String.append "Bearer" (String (ascii_of_nat 160) "x")) Ref.w0)
    as (_ & _ & [_ Hrefused] & _).
  apply Hrefused. exists "Bearer", "x". repeat split; vm_compute; reflexivity.
Defined.

(** X14, on a header in capitals; a token with a no-break space in it
    is not one the statement speaks of. *)
Lemma verify_token_bearer_witness :
  no_space (String "x" (String (ascii_of_nat 160) "y")) = false /\
  verify_token "BEARER t0k3n" Ref.w0
  = (inl (JObj [("sub", JStr "admin"); ("roles", JArr [JStr "admin"])]), Ref.w0).
Proof.
  split; [reflexivity|].
  exact (verify_token_bearer "BEARER" "t0k3n" Ref.w0
           ltac:(discriminate) ltac:(discriminate) eq_refl eq_refl).
Defined.

(** X18, on [a1], which is a canary, and on a restart. *)
Lemma list_after_lifecycle_witness :
  exists agents w',
    list_agents (snd (restart_agent "a1" Ref.w0)) = (inl agents, w') /\
    forall p, In p agents ->
      exists reg_key b o,
        store (snd (restart_agent "a1" Ref.w0)) !! reg_key = Some b /\
        loads b = Some (JObj o) /\
        validate_str (registered_id o) = Some (agentId p) /\
        (registered_id o = JStr "a1" ->
         status p = if canary_flag o then "canary" else "running").
Proof.
  apply (list_after_lifecycle "a1" Ref.w0 ltac:(eexists; reflexivity) restart_agent).
  cbn. auto.
Defined.

(** X20, with a [data] that sets its own [type]. *)
Lemma publish_agent_event_fields_witness :
  exists payload m w',
    publish_agent_event "pause_requested" "a1" (Some [("type", JStr "other")]) Ref.w0
    = (inl tt, w') /\
    published w' = [("agent_events", payload)] /\
    loads payload = Some (JObj m) /\
    dict_get "type" m = Some (JStr "other") /\
    dict_get "agentId" m = Some (JStr "a1").
Proof.
  destruct (publish_agent_event_fields "pause_requested" "a1"
              (Some [("type", JStr "other")]) Ref.w0 eq_refl)
    as (payload & m & w' & Hrun & Hpub & _ & _ & Hm & Hf).
  exists payload, m, w'. split; [exact Hrun|]. split; [exact Hpub|].
  split; [exact Hm|]. split; [exact (Hf "type")|exact (Hf "agentId")].
Defined.

(** X21, on [a1]. *)
Lemma lifecycle_publishes_two_witness :
  length (published (snd (pause_agent "a1" Ref.w0))) = 2%nat /\
  on_topic "agent:a1:pause" (published (snd (pause_agent "a1" Ref.w0))) = [encode ""] /\
  on_topic "agent:x9:pause" (published (snd (pause_agent "a1" Ref.w0))) = [].
Proof.
  destruct (lifecycle_publishes_two "a1" Ref.w0 ltac:(eexists; reflexivity)
              pause_agent "pause_requested" "pause" (or_introl eq_refl))
    as (H1 & H2 & H3).
  split; [exact H1|]. split; [exact H2|].
  apply (H3 "agent:x9:pause"); discriminate.
Defined.

(** X22, on an injection into [a1]. *)
Lemma events_are_typed_witness :
  exists new,
    on_topic "agent_events"
      (published (snd (handle None (InjectConfig "a1" [("a", JInt 9)]) Ref.w0)))
    = new /\
    forall payload, In payload new ->
      exists m, loads payload = Some (JObj m) /\
                dict_get "type" m = Some (JStr "config_update_requested").
Proof.
  destruct (events_are_typed None (InjectConfig "a1" [("a", JInt 9)]) Ref.w0 eq_refl)
    as (new & Hnew & _ & Hall).
  exists new. split; [exact Hnew|].
  intros payload Hin. destruct (Hall payload Hin) as (m & t & Hm & Ht & _).
  eauto.
Defined.

(** X23, with the administrator's credentials. *)
Lemma login_token_verifies_witness :
  exists r w',
    login_for_access_token "admin" "admin" Ref.w0 = (inl r, w') /\
    verify_token (token_type r ++ " " ++ access_token r) w'
    = (inl (JObj [("sub", JStr "admin"); ("roles", JArr [JStr "admin"])]), w').
Proof.
  destruct (login_token_verifies "admin" "admin" Ref.w0) as [H _].
  destruct (H (conj eq_refl eq_refl)) as (r & w' & Hrun & _ & _ & Htok & Hver).
  exists r, w'. split; [exact Hrun|].
  apply Hver; rewrite Htok; [discriminate|reflexivity|reflexivity].
Defined.

End MoreRuns.
